(** * MistralOCR: the ingestion and OCR-result reconstruction pipeline

    A shallow embedding of the core of [main.py]
    ([replace_images_in_markdown], [create_output_directory],
    [save_ocr_results], [is_image_file], [convert_image_to_pdf],
    [process_file], [process_pdf]) and the properties its specification
    states about them.

    Conventions of the embedding.
    - A Python [str] and a Python [bytes] are both a [string]: a sequence of
      8-bit characters.  A [str] stands for its UTF-8 encoding; substring
      search and replacement on UTF-8 text coincide with the ones on code
      points, and [str.lower] is modelled on the ASCII letters (no supported
      extension is reachable from a non-ASCII letter by lowering its case).
    - [os.path] is [posixpath].
    - The file system, the clock and the log of effects are the [World] that
      every effectful function threads; an exception ends a computation and
      leaves the world as it was when it was raised.
    - What third-party code computes (base64 decoding, PIL's image
      identification, img2pdf, the remote OCR service) is an [Externals]
      instance, over which every statement is universally quantified. *)

From Stdlib Require Import ZArith NArith Ascii String List Bool Lia DecimalString.
From stdpp Require Import base option list gmap sets strings.

Local Open Scope Z_scope.

(** ** Python strings *)

Module PyStr.

(** The line feed, [\n]. *)
Definition LF : string := String (ascii_of_nat 10) "".

(** [len(s)] *)
Definition len (s : string) : Z := Z.of_nat (String.length s).

(** [s.removeprefix(p)] when [s.startswith(p)], nothing otherwise. *)
Fixpoint strip_prefix (p s : string) : option string :=
  match p, s with
  | "", _ => Some s
  | String a p', String b s' =>
      if decide (a = b) then strip_prefix p' s' else None
  | String _ _, "" => None
  end.

(** [s.startswith(p)] *)
Definition startswith (s p : string) : bool :=
  match strip_prefix p s with Some _ => true | None => false end.

(** [s.endswith(c)] for a one-character [c]. *)
Fixpoint endswith_char (s : string) (c : ascii) : bool :=
  match s with
  | "" => false
  | String a "" => bool_decide (a = c)
  | String _ s' => endswith_char s' c
  end.

(** The scan of [str.replace] for a non-empty [old]: at each position,
    left to right, an occurrence of [old] is replaced by [new] and the scan
    resumes after it; any other character is copied.  Every step consumes a
    character, so [fuel = len(s)] steps reach the end of [s]. *)
Fixpoint replace_from (fuel : nat) (old new s : string) : string :=
  match fuel with
  | O => s
  | S fuel' =>
      match strip_prefix old s with
      | Some rest => new +:+ replace_from fuel' old new rest
      | None =>
          match s with
          | "" => ""
          | String c s' => String c (replace_from fuel' old new s')
          end
      end
  end.

(** [str.replace] with an empty [old]: [new] before every character and
    at the end. *)
Fixpoint interleave (new s : string) : string :=
  match s with
  | "" => new
  | String c s' => new +:+ String c (interleave new s')
  end.

(** [s.replace(old, new)] *)
Definition replace (s old new : string) : string :=
  match old with
  | "" => interleave new s
  | String _ _ => replace_from (String.length s) old new s
  end.

(** [s.split(sep)] for a one-character separator. *)
Fixpoint split (s : string) (sep : ascii) : list string :=
  match s with
  | "" => [""]
  | String c s' =>
      if decide (c = sep) then "" :: split s' sep
      else match split s' sep with
           | field :: fields => String c field :: fields
           | [] => [String c ""]
           end
  end.

(** [sep.join(parts)] *)
Definition join (sep : string) (parts : list string) : string :=
  String.concat sep parts.

(** [c in s] for a character [c]. *)
Fixpoint contains (s : string) (c : ascii) : bool :=
  match s with
  | "" => false
  | String a s' => bool_decide (a = c) || contains s' c
  end.

(** [s.lower()] on the ASCII letters. *)
Definition lower_char (c : ascii) : ascii :=
  let n := N_of_ascii c in
  if ((65 <=? n) && (n <=? 90))%N then ascii_of_N (n + 32) else c.

Fixpoint lower (s : string) : string :=
  match s with
  | "" => ""
  | String c s' => String (lower_char c) (lower s')
  end.

(** [s.rfind(c)]: the index of the last [c] in [s], [-1] when there is
    none.  [rfind_from i] counts positions from [i]. *)
Fixpoint rfind_from (i : Z) (s : string) (c : ascii) : Z :=
  match s with
  | "" => -1
  | String a s' =>
      let r := rfind_from (i + 1) s' c in
      if 0 <=? r then r else if decide (a = c) then i else -1
  end.

Definition rfind (s : string) (c : ascii) : Z := rfind_from 0 s c.

(** [s[:i]] and [s[i:]] for [0 <= i]. *)
Definition take (i : Z) (s : string) : string :=
  String.substring 0 (Z.to_nat i) s.

Definition drop (i : Z) (s : string) : string :=
  String.substring (Z.to_nat i) (String.length s - Z.to_nat i) s.

(** [s[i:j]] for [0 <= i <= j]. *)
Definition slice (i j : Z) (s : string) : string :=
  String.substring (Z.to_nat i) (Z.to_nat j - Z.to_nat i) s.

(** Every character of [s] is [c]. *)
Fixpoint all_char (s : string) (c : ascii) : bool :=
  match s with
  | "" => true
  | String a s' => bool_decide (a = c) && all_char s' c
  end.

(** [str(n)] for a natural number. *)
Definition of_N (n : N) : string := NilEmpty.string_of_uint (N.to_uint n).

(** [s.zfill(width)] for a string of digits. *)
Definition zfill (width : nat) (s : string) : string :=
  String.concat "" (replicate (width - String.length s) "0") +:+ s.

End PyStr.

(** ** [os.path] (POSIX flavour) and [pathlib.PurePath] *)

Module PosixPath.

(** [os.path.join(a, b)] *)
Definition join (a b : string) : string :=
  if PyStr.startswith b "/" then b
  else if bool_decide (a = "") || PyStr.endswith_char a "/" then a +:+ b
  else a +:+ "/" +:+ b.

(** [os.path.splitext(p)]: the extension starts at the last dot of the
    last component, unless that component has only dots before it. *)
Definition splitext (p : string) : string * string :=
  let sepIndex := PyStr.rfind p "/" in
  let dotIndex := PyStr.rfind p "." in
  if sepIndex <? dotIndex then
    if PyStr.all_char (PyStr.slice (sepIndex + 1) dotIndex p) "."
    then (p, "")
    else (PyStr.take dotIndex p, PyStr.drop dotIndex p)
  else (p, "").

End PosixPath.

Module PurePath.

(** The components of [Path(p)] below its root: empty components and [.]
    are dropped when the path is parsed. *)
Definition parts (p : string) : list string :=
  filter (λ x, x ≠ "" ∧ x ≠ ".") (PyStr.split p "/").

(** [Path(p).name] *)
Definition name (p : string) : string := List.last (parts p) "".

(** [Path(p).suffix] *)
Definition suffix (p : string) : string :=
  let name := name p in
  let i := PyStr.rfind name "." in
  if (0 <? i) && (i <? PyStr.len name - 1) then PyStr.drop i name else "".

(** [Path(p).stem] *)
Definition stem (p : string) : string :=
  let name := name p in
  let i := PyStr.rfind name "." in
  if (0 <? i) && (i <? PyStr.len name - 1) then PyStr.take i name else name.

End PurePath.

(** ** Exceptions, the world and the monad of effects *)

(** The exceptions the pipeline can meet, each with the text [str(e)]
    gives.  [LibraryError] is an exception raised inside third-party code
    (base64, PIL, img2pdf, the remote service's client), of the class named
    by [cls]. *)
Inductive Exn : Type :=
  | FileNotFoundError (msg : string)
  | FileExistsError (msg : string)
  | NotADirectoryError (msg : string)
  | IsADirectoryError (msg : string)
  | SameFileError (msg : string)
  | IndexError (msg : string)
  | Exception (msg : string)
  | LibraryError (cls msg : string).

(** [str(e)] *)
Definition exn_str (e : Exn) : string :=
  match e with
  | FileNotFoundError msg | FileExistsError msg | NotADirectoryError msg
  | IsADirectoryError msg | SameFileError msg | IndexError msg
  | Exception msg | LibraryError _ msg => msg
  end.

(** The text of an [OSError] about [path] (a path without quotes). *)
Definition os_error_msg (errno strerror path : string) : string :=
  "[Errno " +:+ errno +:+ "] " +:+ strerror +:+ ": '" +:+ path +:+ "'".

Definition ENOENT (path : string) : Exn :=
  FileNotFoundError (os_error_msg "2" "No such file or directory" path).
Definition EEXIST (path : string) : Exn :=
  FileExistsError (os_error_msg "17" "File exists" path).
Definition ENOTDIR (path : string) : Exn :=
  NotADirectoryError (os_error_msg "20" "Not a directory" path).
Definition EISDIR (path : string) : Exn :=
  IsADirectoryError (os_error_msg "21" "Is a directory" path).

(** A reading of the clock, as [datetime.now()] returns it. *)
Record datetime : Type := {
  year : N; month : N; day : N;
  hour : N; minute : N; second : N; microsecond : N
}.

(** What a run does to its surroundings, in the order it does it.  A file
    system event is logged when the operation succeeds, a remote call when
    it is sent. *)
Inductive Event : Type :=
  | EvMakedirs (path : string)
  | EvOpen (path : string)
  | EvWrite (path data : string)
  | EvUpload (api_key file_name content purpose : string)
  | EvSignedUrl (api_key file_id : string) (expiry : Z)
  | EvOcr (api_key document_url model : string) (include_image_base64 : bool).

(** The world: regular files with their contents and directories, each
    named by its path as spelled (there are no links, and [.], [..] and
    doubled separators are not resolved: the world knows a file or a
    directory under one spelling, the plain one); the clock; the log of
    events. *)
Record World : Type := {
  files : gmap string string;
  dirs : gset string;
  clock : datetime;
  events : list Event
}.

Inductive Result (A : Type) : Type :=
  | Ok (a : A)
  | Raise (e : Exn).
Arguments Ok {A} a.
Arguments Raise {A} e.

(** A computation returns a value or raises, and leaves a world. *)
Definition M (A : Type) : Type := World → Result A * World.

#[global] Instance M_ret : MRet M := λ A a w, (Ok a, w).

#[global] Instance M_bind : MBind M := λ A B f m w,
  match m w with
  | (Ok a, w') => f a w'
  | (Raise e, w') => (Raise e, w')
  end.

Definition raise {A : Type} (e : Exn) : M A := λ w, (Raise e, w).

(** A library call's outcome, as a computation. *)
Definition lift {A : Type} (r : Result A) : M A := λ w, (r, w).

(** [try: body except Exception as e: handler(e)] *)
Definition try_except {A : Type} (body : M A) (handler : Exn → M A) : M A :=
  λ w, match body w with
       | (Ok a, w') => (Ok a, w')
       | (Raise e, w') => handler e w'
       end.

(** [for x in xs: s = body(s, x)] *)
Fixpoint for_each {A S : Type} (xs : list A) (body : S → A → M S) (s : S) : M S :=
  match xs with
  | [] => mret s
  | x :: xs' => s' ← body s x; for_each xs' body s'
  end.

(** [xs[i]] *)
Definition list_item {A : Type} (xs : list A) (i : nat) : M A :=
  match xs !! i with
  | Some x => mret x
  | None => raise (IndexError "list index out of range")
  end.

Definition log_event (e : Event) : M unit := λ w,
  (Ok tt, {| files := files w; dirs := dirs w; clock := clock w;
             events := events w ++ [e] |}).

(** A call to the remote service: the request is logged, then answered
    from the events so far. *)
Definition remote_call {A : Type} (request : Event) (answer : list Event → Result A)
  : M A :=
  log_event request;;
  ((λ w, (answer (events w), w)) : M A).

(** ** The file system *)

Module FS.

Definition isfile (w : World) (path : string) : bool :=
  bool_decide (is_Some (files w !! path)).

(** The working directory (the empty path) and the root always exist. *)
Definition isdir (w : World) (path : string) : bool :=
  bool_decide (path = "" ∨ path = "/" ∨ path ∈ dirs w).

Definition exists_ (w : World) (path : string) : bool :=
  isfile w path || isdir w path.

(** The directory a path's last component lives in. *)
Definition parent (path : string) : string :=
  let i := PyStr.rfind path "/" in
  if i <? 0 then "" else if i =? 0 then "/" else PyStr.take i path.

(** [os.path.basename] *)
Definition basename (path : string) : string :=
  PyStr.drop (PyStr.rfind path "/" + 1) path.

(** The directories above [path], outermost first: its proper prefixes
    that end before a separator. *)
Fixpoint ancestors_from (seen rest : string) : list string :=
  match rest with
  | "" => []
  | String c rest' =>
      (if bool_decide (c = "/"%char ∧ seen ≠ "") then [seen] else [])
      ++ ancestors_from (seen +:+ String c "") rest'
  end.

Definition ancestors (path : string) : list string := ancestors_from "" path.

(** [os.makedirs(name, exist_ok=True)]: creates [name] and the missing
    directories above it; fails when [name] or a directory above it is a
    regular file, and then creates nothing. *)
Definition makedirs (name : string) : M unit := λ w,
  if bool_decide (name = "") then (Raise (ENOENT name), w)
  else if existsb (isfile w) (ancestors name) then (Raise (ENOTDIR name), w)
  else if isfile w name then (Raise (EEXIST name), w)
  else (Ok tt, {| files := files w;
                  dirs := dirs w ∪ list_to_set (ancestors name) ∪ {[ name ]};
                  clock := clock w;
                  events := events w ++ [EvMakedirs name] |}).

(** [open(path, "wb")] and [open(path, "w", encoding="utf-8")]: the file
    is created or emptied; its directory must exist, and no part of the path
    above it may be a regular file. *)
Definition open_w (path : string) : M unit := λ w,
  if bool_decide (path = "") then (Raise (ENOENT path), w)
  else if isdir w path then (Raise (EISDIR path), w)
  else if isfile w (parent path) || existsb (isfile w) (ancestors path)
  then (Raise (ENOTDIR path), w)
  else if negb (isdir w (parent path)) then (Raise (ENOENT path), w)
  else (Ok tt, {| files := <[path := ""]> (files w);
                  dirs := dirs w; clock := clock w;
                  events := events w ++ [EvOpen path] |}).

(** [f.write(data)] on the file opened at [path]. *)
Definition write (path data : string) : M unit := λ w,
  (Ok tt, {| files := <[path := default "" (files w !! path) +:+ data]> (files w);
             dirs := dirs w; clock := clock w;
             events := events w ++ [EvWrite path data] |}).

(** [open(path, "rb").read()]: a path below a regular file is refused
    with [NotADirectoryError]. *)
Definition read_bytes (path : string) : M string := λ w,
  match files w !! path with
  | Some content => (Ok content, w)
  | None => if isdir w path then (Raise (EISDIR path), w)
            else if existsb (isfile w) (ancestors path) then (Raise (ENOTDIR path), w)
            else (Raise (ENOENT path), w)
  end.

(** [Path(path).is_file()] *)
Definition is_file (path : string) : M bool := λ w, (Ok (isfile w path), w).

(** [os.path.isdir(path)], [os.path.exists(path)] *)
Definition path_isdir (path : string) : M bool := λ w, (Ok (isdir w path), w).
Definition path_exists (path : string) : M bool := λ w, (Ok (exists_ w path), w).

(** [shutil.copy2(src, dst)], contents only (the world keeps no file
    metadata): into [dst] when it is a directory; refused when source and
    destination are one existing file. *)
Definition copy2 (src dst : string) : M unit :=
  dst_is_dir ← path_isdir dst;
  let dst := if dst_is_dir : bool then PosixPath.join dst (basename src) else dst in
  src_exists ← path_exists src;
  if bool_decide (src = dst) && src_exists
  then raise (SameFileError ("'" +:+ src +:+ "' and '" +:+ dst +:+ "' are the same file"))
  else
    content ← read_bytes src;
    open_w dst;;
    write dst content.

(** [datetime.now()] *)
Definition now : M datetime := λ w, (Ok (clock w), w).

End FS.

(** ** The OCR response (the fields the pipeline reads) *)

Module OCR.
Record ImageObject : Type := { id : string; image_base64 : string }.
Record PageObject : Type := { markdown : string; images : list ImageObject }.
Record Response : Type := { pages : list PageObject }.
End OCR.

(** ** Third-party code *)

(** What the libraries compute.  A remote call's answer may depend on the
    events so far. *)
Class Externals : Type := {
  (** [base64.b64decode(s)] *)
  b64decode : string → Result string;
  (** [Image.open] on a file's content: [img.format], or an exception. *)
  pil_open : string → Result (option string);
  (** [img2pdf.convert] on a file's content. *)
  img2pdf_convert : string → Result string;
  (** [client.files.upload(file={file_name, content}, purpose)]: the
      uploaded file's [id]. *)
  files_upload : list Event → string → string → string → string → Result string;
  (** [client.files.get_signed_url(file_id, expiry)]: the signed [url]. *)
  files_get_signed_url : list Event → string → string → Z → Result string;
  (** [client.ocr.process(document, model, include_image_base64)] *)
  ocr_process : list Event → string → string → string → bool → Result OCR.Response
}.

(** ** The pipeline of [main.py] *)

Definition SUPPORTED_IMAGE_EXTENSIONS : list string :=
  [".jpg"; ".jpeg"; ".png"; ".gif"; ".bmp"; ".tiff"; ".tif"; ".webp"].

(** A Python [dict] with string keys, in insertion order: assigning to a
    key that is present keeps its place. *)
Definition dict : Type := list (string * string).

Fixpoint dict_set (d : dict) (key value : string) : dict :=
  match d with
  | [] => [(key, value)]
  | (k, v) :: d' =>
      if decide (k = key) then (k, value) :: d' else (k, v) :: dict_set d' key value
  end.

(** The reference in the OCR text to the image [img_name], as the remote
    service writes it, and as rewritten to point at [img_path]. *)
Definition image_ref (img_name img_path : string) : string :=
  "![" +:+ img_name +:+ "](" +:+ img_path +:+ ")".

Definition replace_images_in_markdown (markdown_str : string) (images_dict : dict) : string :=
  fold_left
    (λ markdown_str '(img_name, img_path),
       PyStr.replace markdown_str (image_ref img_name img_name) (image_ref img_name img_path))
    images_dict markdown_str.

(** [t.strftime("%Y%m%d_%H%M%S")], for the four-digit years a clock
    reads. *)
Definition strftime (t : datetime) : string :=
  PyStr.zfill 4 (PyStr.of_N (year t)) +:+ PyStr.zfill 2 (PyStr.of_N (month t))
  +:+ PyStr.zfill 2 (PyStr.of_N (day t)) +:+ "_"
  +:+ PyStr.zfill 2 (PyStr.of_N (hour t)) +:+ PyStr.zfill 2 (PyStr.of_N (minute t))
  +:+ PyStr.zfill 2 (PyStr.of_N (second t)).

Definition create_output_directory (original_file_path : string) : M string :=
  let outputs_base := "outputs" in
  FS.makedirs outputs_base;;
  now ← FS.now;
  let timestamp := strftime now in
  let output_dir :=
    PosixPath.join outputs_base (timestamp +:+ "_" +:+ PurePath.stem original_file_path) in
  FS.makedirs output_dir;;
  mret output_dir.

(** [Mistral(api_key=api_key)]: building the client sends nothing. *)
Record Mistral : Type := { api_key : string }.

Section Pipeline.
Context `{Externals}.

Definition save_ocr_results (ocr_response : OCR.Response) (output_dir : string)
  : M (string * string) :=
  let images_dir := PosixPath.join output_dir "images" in
  FS.makedirs images_dir;;
  all_markdowns ← for_each (OCR.pages ocr_response)
    (λ all_markdowns page,
       page_images ← for_each (OCR.images page)
         (λ page_images img,
            field ← list_item (PyStr.split (OCR.image_base64 img) ",") 1;
            img_data ← lift (b64decode field);
            let img_path := PosixPath.join images_dir (OCR.id img +:+ ".png") in
            FS.open_w img_path;;
            FS.write img_path img_data;;
            mret (dict_set page_images (OCR.id img) ("images/" +:+ OCR.id img +:+ ".png")))
         [];
       let page_markdown := replace_images_in_markdown (OCR.markdown page) page_images in
       mret (all_markdowns ++ [page_markdown]))
    [];
  let markdown_content := PyStr.join (PyStr.LF +:+ PyStr.LF) all_markdowns in
  let complete := PosixPath.join output_dir "complete.md" in
  FS.open_w complete;;
  FS.write complete markdown_content;;
  mret (markdown_content, output_dir).

(** [Image.open(file_path)], reduced to the [format] of the image. *)
Definition Image_open (file_path : string) : M (option string) :=
  content ← FS.read_bytes file_path;
  lift (pil_open content).

Definition is_image_file (file_path : string) : M bool :=
  let ext := (PosixPath.splitext (PyStr.lower file_path)).2 in
  if negb (bool_decide (ext ∈ SUPPORTED_IMAGE_EXTENSIONS)) then mret false
  else
    try_except
      (img_format ← Image_open file_path;
       mret (bool_decide (img_format ≠ None)))
      (λ _, mret false).

Definition convert_image_to_pdf (image_path output_dir : string) : M string :=
  let pdf_path := PosixPath.join output_dir "converted.pdf" in
  try_except
    (FS.open_w pdf_path;;
     content ← FS.read_bytes image_path;
     pdf ← lift (img2pdf_convert content);
     FS.write pdf_path pdf;;
     mret pdf_path)
    (λ e, raise (Exception ("图片转换为PDF失败: " +:+ exn_str e))).

Definition client_files_upload (client : Mistral) (file_name content purpose : string)
  : M string :=
  remote_call (EvUpload (api_key client) file_name content purpose)
    (λ history, files_upload history (api_key client) file_name content purpose).

Definition client_files_get_signed_url (client : Mistral) (file_id : string) (expiry : Z)
  : M string :=
  remote_call (EvSignedUrl (api_key client) file_id expiry)
    (λ history, files_get_signed_url history (api_key client) file_id expiry).

Definition client_ocr_process (client : Mistral) (document_url model : string)
    (include_image_base64 : bool) : M OCR.Response :=
  remote_call (EvOcr (api_key client) document_url model include_image_base64)
    (λ history,
       ocr_process history (api_key client) document_url model include_image_base64).

Definition process_pdf (pdf_path api_key : string) (output_dir : option string)
  : M (string * string) :=
  output_dir ←
    match output_dir with
    | None =>
        output_dir ← create_output_directory pdf_path;
        let origin_file :=
          PosixPath.join output_dir ("origin" +:+ PurePath.suffix pdf_path) in
        FS.copy2 pdf_path origin_file;;
        mret output_dir
    | Some output_dir => mret output_dir
    end;
  let client := {| api_key := api_key |} in
  is_file ← FS.is_file pdf_path;
  if negb is_file then raise (FileNotFoundError ("文件不存在: " +:+ pdf_path))
  else
    content ← FS.read_bytes pdf_path;
    uploaded_file ← client_files_upload client (PurePath.stem pdf_path) content "ocr";
    signed_url ← client_files_get_signed_url client uploaded_file 1;
    pdf_response ← client_ocr_process client signed_url "mistral-ocr-latest" true;
    '(markdown_content, output_dir) ← save_ocr_results pdf_response output_dir;
    mret (markdown_content, output_dir).

Definition process_file (file_path api_key : string) : M (string * string) :=
  output_dir ← create_output_directory file_path;
  let origin_file := PosixPath.join output_dir ("origin" +:+ PurePath.suffix file_path) in
  FS.copy2 file_path origin_file;;
  is_image ← is_image_file file_path;
  file_to_process ←
    (if is_image : bool then convert_image_to_pdf file_path output_dir
     else mret origin_file);
  process_pdf file_to_process api_key (Some output_dir).

End Pipeline.

(** ** The rest of [main.py]: inspection, preview and the command line *)

Section Inspection.
Context `{Externals}.

(** [img.format or "未知"]: a format that is [None] or empty counts as
    unknown. *)
Definition get_image_format (file_path : string) : M string :=
  try_except
    (img_format ← Image_open file_path;
     mret (match img_format with
           | Some fmt => if bool_decide (fmt = "") then "未知" else fmt
           | None => "未知"
           end))
    (λ _, mret "未知").

End Inspection.

(** *** The HTML preview *)

(** What the [markdown] library computes, and which of its errors make
    [create_html_content] fall back. *)
Class Renderer : Type := {
  (** [markdown.markdown(text, extensions=extensions)] *)
  markdown_markdown : string → list string → Result string;
  (** [isinstance(e, (ImportError, ValueError))] *)
  import_or_value_error : Exn → bool
}.

(** The double quote. *)
Definition DQ : string := String (ascii_of_nat 34) "".

(** [os.sep] *)
Definition os_sep : string := "/".

Definition html_template : string :=
  PyStr.join PyStr.LF
    [ "<!DOCTYPE html>";
      "<html>";
      "<head>";
      "    <title>Markdown Preview</title>";
      "    <meta charset=" +:+ DQ +:+ "utf-8" +:+ DQ +:+ ">";
      "    <link rel=" +:+ DQ +:+ "stylesheet" +:+ DQ +:+ " href=" +:+ DQ
        +:+ "https://cdn.jsdelivr.net/npm/github-markdown-css/github-markdown.min.css"
        +:+ DQ +:+ ">";
      "</head>";
      "<body>";
      "    <div id=" +:+ DQ +:+ "content" +:+ DQ +:+ " class=" +:+ DQ +:+ "markdown-body"
        +:+ DQ +:+ ">";
      "        HTML_CONTENT_PLACEHOLDER";
      "    </div>";
      "</body>";
      "</html>" ].

(** [print(text)] writes the text and a line feed. *)
Definition printed (text : string) : string := text +:+ PyStr.LF.

(** [create_html_content(markdown_content, output_dir)]: the page, or the
    exception raised, and what was written to the standard output. *)
Definition create_html_content `{Renderer} (markdown_content : string)
    (output_dir : option string) : Result string * list string :=
  let truthy := match output_dir with Some (String _ _) => true | _ => false end in
  let output_dir_safe :=
    match output_dir with
    | Some (String _ _ as dir) => PyStr.replace dir os_sep "/"
    | _ => ""
    end in
  let processed_markdown :=
    if truthy
    then PyStr.replace markdown_content "](images/"
           ("](file://" +:+ output_dir_safe +:+ "/images/")
    else markdown_content in
  let page (html_body : string) :=
    PyStr.replace html_template "HTML_CONTENT_PLACEHOLDER" html_body in
  match markdown_markdown processed_markdown ["md4mathjax"; "extra"] with
  | Ok html_body => (Ok (page html_body), [])
  | Raise e =>
      if import_or_value_error e then
        match markdown_markdown processed_markdown ["extra"] with
        | Ok html_body =>
            (Ok (page html_body),
             [printed "注意: md4mathjax扩展不可用，数学公式可能无法正确渲染"])
        | Raise e =>
            let html_body :=
              PyStr.replace (PyStr.replace processed_markdown "<" "&lt;") ">" "&gt;" in
            (Ok (page html_body),
             [printed ("警告: markdown转换出错，使用基本HTML转义。错误信息: " +:+ exn_str e)])
        end
      else (Raise e, [])
  end.

(** *** The command line *)

Module CLI.

(** The arguments as [argparse] parsed them. *)
Record Namespace : Type := {
  files : list string;
  api_key : option string;
  auto : bool;
  gui : bool
}.

End CLI.

(** Beyond the exceptions of the pipeline, the command line meets
    [ValueError] and the [EOFError] of [input]. *)
Inductive PyExn : Type :=
  | Pipeline (e : Exn)
  | ValueError (msg : string)
  | EOFError (msg : string).

(** [str(e)] *)
Definition py_str (e : PyExn) : string :=
  match e with
  | Pipeline e => exn_str e
  | ValueError msg | EOFError msg => msg
  end.

(** A session at the terminal: the world, the lines the user will type,
    and what has been written to the standard output, piece by piece. *)
Record Session : Type := {
  world : World;
  stdin : list string;
  stdout : list string
}.

Inductive Outcome (A : Type) : Type :=
  | Returns (a : A)
  | Raises (e : PyExn).
Arguments Returns {A} a.
Arguments Raises {A} e.

Definition Cmd (A : Type) : Type := Session → Outcome A * Session.

#[global] Instance Cmd_ret : MRet Cmd := λ A a s, (Returns a, s).

#[global] Instance Cmd_bind : MBind Cmd := λ A B f m s,
  match m s with
  | (Returns a, s') => f a s'
  | (Raises e, s') => (Raises e, s')
  end.

(** [try: body except Exception as e: handler(e)] *)
Definition cmd_try {A : Type} (body : Cmd A) (handler : PyExn → Cmd A) : Cmd A :=
  λ s, match body s with
       | (Returns a, s') => (Returns a, s')
       | (Raises e, s') => handler e s'
       end.

(** [print(text)] *)
Definition print (text : string) : Cmd unit := λ s,
  (Returns tt, {| world := world s; stdin := stdin s;
                  stdout := stdout s ++ [printed text] |}).

(** [input(prompt)]: the prompt is written, and a line is read without
    its line feed; at the end of the input [EOFError] is raised. *)
Definition input (prompt : string) : Cmd string := λ s,
  let s' := {| world := world s; stdin := tail (stdin s);
               stdout := stdout s ++ [prompt] |} in
  match stdin s with
  | line :: _ => (Returns line, s')
  | [] => (Raises (EOFError "EOF when reading a line"), s')
  end.

(** What the command line runs on, beside the pipeline's libraries. *)
Class Host : Type := {
  (** The reading of the clock when a file is taken up: time passes
      between the files. *)
  elapse : World → datetime;
  (** [MarkdownPreviewApp().mainloop()], the graphical interface. *)
  gui_mainloop : Cmd unit
}.

(** A computation of the pipeline, run when the clock reads [elapse]. *)
Definition pipeline `{Host} {A : Type} (m : M A) : Cmd A := λ s,
  let w := {| files := files (world s); dirs := dirs (world s);
              clock := elapse (world s); events := events (world s) |} in
  match m w with
  | (Ok a, w') => (Returns a, {| world := w'; stdin := stdin s; stdout := stdout s |})
  | (Raise e, w') =>
      (Raises (Pipeline e), {| world := w'; stdin := stdin s; stdout := stdout s |})
  end.

(** Whether the loop of [main_cli] goes on to the next file or breaks. *)
Inductive Flow : Type := Next | Break.

Section CommandLine.
Context `{Externals} `{Host}.

(** The body of the loop of [main_cli] for the file of index [i] among
    [n]. *)
Definition main_cli_file (api_key : string) (auto : bool) (n : nat) (i : nat)
    (file_path : string) : Cmd Flow :=
  cmd_try
    (print ("开始处理文件 " +:+ PyStr.of_N (N.of_nat (i + 1)) +:+ "/"
            +:+ PyStr.of_N (N.of_nat n) +:+ ": " +:+ file_path);;
     '(markdown_content, output_dir) ← pipeline (process_file file_path api_key);
     print ("OCR处理完成。结果保存在: " +:+ output_dir);;
     if (Z.of_nat i <? Z.of_nat n - 1) && negb auto then
       response ← input (PyStr.LF +:+ "已完成 " +:+ file_path
                         +:+ " 的处理。按回车键处理下一个文件，或输入'q'退出: ");
       if bool_decide (PyStr.lower response = "q") then
         print "用户选择退出程序。";; mret Break
       else mret Next
     else mret Next)
    (λ e,
       print ("处理文件 " +:+ file_path +:+ " 时出错: " +:+ py_str e);;
       if negb auto && (Z.of_nat i <? Z.of_nat n - 1) then
         response ← input (PyStr.LF +:+ "处理 " +:+ file_path
                           +:+ " 时出错。按回车键处理下一个文件，或输入'q'退出: ");
         if bool_decide (PyStr.lower response = "q") then
           print "用户选择退出程序。";; mret Break
         else mret Next
       else mret Next).

(** [for i, file_path in enumerate(args.files): ...], from the index
    [i]. *)
Fixpoint main_cli_loop (api_key : string) (auto : bool) (n : nat) (i : nat)
    (files : list string) : Cmd unit :=
  match files with
  | [] => mret tt
  | file_path :: files' =>
      flow ← main_cli_file api_key auto n i file_path;
      match flow with
      | Next => main_cli_loop api_key auto n (S i) files'
      | Break => mret tt
      end
  end.

(** [main_cli()], after [parser.parse_args()]. *)
Definition main_cli (args : CLI.Namespace) : Cmd unit :=
  if CLI.gui args then gui_mainloop
  else
    match CLI.api_key args with
    | Some (String _ _ as api_key) =>
        main_cli_loop api_key (CLI.auto args) (length (CLI.files args)) 0 (CLI.files args)
    | _ =>
        λ s, (Raises (ValueError
                "未提供API密钥，请设置MISTRAL_API_KEY环境变量或使用--api-key参数"), s)
    end.

End CommandLine.

(** ** A sample environment

    A concrete [Externals] to run the pipeline on: the base64 decoder follows
    [binascii.a2b_base64] in its default (non-strict) mode, images are told
    by their signature, and the remote service answers what it is told to. *)

Module Sample.

(** The value of a character of the base64 alphabet. *)
Definition b64_value (c : ascii) : option N :=
  let n := N_of_ascii c in
  if ((65 <=? n) && (n <=? 90))%N then Some (n - 65)%N
  else if ((97 <=? n) && (n <=? 122))%N then Some (n - 71)%N
  else if ((48 <=? n) && (n <=? 57))%N then Some (n + 4)%N
  else if (n =? 43)%N then Some 62%N
  else if (n =? 47)%N then Some 63%N
  else None.

(** The decoder's state: position in the quad, bits left over from the
    previous character, pad characters seen in a row. *)
Record b64_state : Type := { quad_pos : nat; leftchar : N; pads : nat }.

Fixpoint b64_loop (st : b64_state) (s : string) : Result string :=
  match s with
  | "" =>
      match quad_pos st with
      | O => Ok ""
      | 1%nat =>
          Raise (LibraryError "binascii.Error"
            "Invalid base64-encoded string: number of data characters cannot be 1 more than a multiple of 4")
      | _ => Raise (LibraryError "binascii.Error" "Incorrect padding")
      end
  | String c s' =>
      if bool_decide (c = "="%char) then
        if (2 <=? quad_pos st)%nat then
          if (4 <=? quad_pos st + S (pads st))%nat then Ok ""
          else b64_loop {| quad_pos := quad_pos st; leftchar := leftchar st;
                           pads := S (pads st) |} s'
        else b64_loop st s'
      else
        match b64_value c with
        | None => b64_loop st s'
        | Some v =>
            let emit (byte : N) (st' : b64_state) :=
              match b64_loop st' s' with
              | Ok out => Ok (String (ascii_of_N byte) out)
              | Raise e => Raise e
              end in
            match quad_pos st with
            | O => b64_loop {| quad_pos := 1; leftchar := v; pads := 0 |} s'
            | 1%nat =>
                emit (N.lor (N.shiftl (leftchar st) 2) (N.shiftr v 4))
                     {| quad_pos := 2; leftchar := N.land v 15; pads := 0 |}
            | 2%nat =>
                emit (N.lor (N.shiftl (leftchar st) 4) (N.shiftr v 2))
                     {| quad_pos := 3; leftchar := N.land v 3; pads := 0 |}
            | _ =>
                emit (N.lor (N.shiftl (leftchar st) 6) v)
                     {| quad_pos := 0; leftchar := 0; pads := 0 |}
            end
        end
  end.

Definition is_ascii (s : string) : bool :=
  forallb (λ c, (N_of_ascii c <? 128)%N) (list_ascii_of_string s).

Definition a2b_base64 (s : string) : Result string :=
  if is_ascii s then b64_loop {| quad_pos := 0; leftchar := 0; pads := 0 |} s
  else Raise (LibraryError "ValueError"
                "string argument should contain only ASCII characters").

(** The image format a content's first bytes announce: a stand-in for
    PIL, which reads on after the signature. *)
Definition sniff (content : string) : Result (option string) :=
  if PyStr.startswith content (String (ascii_of_nat 137) "PNG") then Ok (Some "PNG")
  else if PyStr.startswith content "GIF8" then Ok (Some "GIF")
  else if PyStr.startswith content "BM" then Ok (Some "BMP")
  else Raise (LibraryError "PIL.UnidentifiedImageError" "cannot identify image file").

Definition wrap_pdf (content : string) : Result string :=
  match sniff content with
  | Ok _ => Ok ("%PDF-1.3 " +:+ content)
  | Raise e => Raise e
  end.

(** A remote service that answers [uploaded], [signed] and [ocr],
    whatever it is sent. *)
Definition externals (uploaded signed : Result string) (ocr : Result OCR.Response)
  : Externals :=
  {| b64decode := a2b_base64;
     pil_open := sniff;
     img2pdf_convert := wrap_pdf;
     files_upload := λ _ _ _ _ _, uploaded;
     files_get_signed_url := λ _ _ _ _, signed;
     ocr_process := λ _ _ _ _ _, ocr |}.

Definition noon : datetime :=
  {| year := 2025; month := 3; day := 7;
     hour := 12; minute := 0; second := 9; microsecond := 250000 |}.

(** A world with the given files in the working directory and nothing
    else. *)
Definition world (fs : gmap string string) : World :=
  {| files := fs; dirs := ∅; clock := noon; events := [] |}.

(** A response of two pages of text. *)
Definition two_plain_pages : OCR.Response :=
  {| OCR.pages := [ {| OCR.markdown := "# Title"; OCR.images := [] |};
                    {| OCR.markdown := "Body"; OCR.images := [] |} ] |}.

End Sample.

(** ** The vocabulary of the properties *)

(** *** Texts *)

(** [old] occurs in [s]. *)
Definition occurs (old s : string) : Prop := ∃ l r, s = l +:+ old +:+ r.

(** No occurrence of [old] starts inside [seg] when [old] follows [seg]:
    the only occurrence of [old] in [seg +:+ old] is the final one. *)
Definition clean_before (old seg : string) : Prop :=
  ∀ l r, seg +:+ old = l +:+ old +:+ r → l = seg.

(** How often the character [c] occurs in [s]. *)
Fixpoint count_char (s : string) (c : ascii) : nat :=
  match s with
  | "" => 0
  | String a s' => (if bool_decide (a = c) then 1 else 0) + count_char s' c
  end.

(** What [os.path.join(a, b)] puts before a relative [b]. *)
Definition join_prefix (a : string) : string :=
  if bool_decide (a = "") || PyStr.endswith_char a "/" then a else a +:+ "/".

(** [path] lies below the directory [dir]. *)
Definition below (dir path : string) : Prop :=
  PyStr.startswith path (dir +:+ "/") = true.

(** *** The Result Assembler *)

(** The paths [save_ocr_results] writes to. *)
Definition images_dir (output_dir : string) : string :=
  PosixPath.join output_dir "images".

Definition image_path (output_dir : string) (img : OCR.ImageObject) : string :=
  PosixPath.join (images_dir output_dir) (OCR.id img +:+ ".png").

Definition complete_md (output_dir : string) : string :=
  PosixPath.join output_dir "complete.md".

(** The dictionary [save_ocr_results] builds for a page: its own images,
    each mapped to its relative path. *)
Definition page_images (page : OCR.PageObject) : dict :=
  fold_left
    (λ d img, dict_set d (OCR.id img) ("images/" +:+ OCR.id img +:+ ".png"))
    (OCR.images page) [].

(** A page's text after its own image references are rewritten. *)
Definition rewritten (page : OCR.PageObject) : string :=
  replace_images_in_markdown (OCR.markdown page) (page_images page).

(** The text made of the segments of [pieces], each followed by the
    reference to an image as [ref] writes it, and of the segment [last]. *)
Definition weave (ref : string → string) (pieces : list (string * string))
    (last : string) : string :=
  fold_right (λ piece rest, piece.1 +:+ ref piece.2 +:+ rest) last pieces.

(** The reference to the image [i] once the identifiers [seen] have
    been dealt with: rewritten for these, as the service wrote it for the
    others. *)
Definition ref_after (seen : list string) (i : string) : string :=
  image_ref i (if bool_decide (i ∈ seen) then "images/" +:+ i +:+ ".png" else i).

(** The images of a response, page by page. *)
Definition all_images (resp : OCR.Response) : list OCR.ImageObject :=
  flat_map OCR.images (OCR.pages resp).

(** The part of an inline payload that is decoded:
    [image_base64.split(",")[1]]. *)
Definition payload_field (payload : string) : option string :=
  PyStr.split payload "," !! 1%nat.

(** The decoded payload of an image: the base64 decoding of its payload
    field. *)
Definition decodes_to `{Externals} (img : OCR.ImageObject) (data : string) : Prop :=
  ∃ field, payload_field (OCR.image_base64 img) = Some field
           ∧ b64decode field = Ok data.

(** What makes the saving of an image fail in the world [w]: a payload
    without second field, a field that does not decode, a file that cannot
    be opened. *)
Definition image_failure `{Externals} (output_dir : string) (img : OCR.ImageObject)
    (w : World) (e : Exn) : Prop :=
  (payload_field (OCR.image_base64 img) = None
   ∧ e = IndexError "list index out of range")
  ∨ (∃ field, payload_field (OCR.image_base64 img) = Some field
              ∧ b64decode field = Raise e)
  ∨ (∃ data, decodes_to img data
             ∧ FS.open_w (image_path output_dir img) w = (Raise e, w)).

(** The events of saving the images [imgs], whose decoded payloads are
    [datas]. *)
Definition image_events (output_dir : string) (imgs : list OCR.ImageObject)
    (datas : list string) : list Event :=
  concat (zip_with
    (λ img data, [EvOpen (image_path output_dir img);
                  EvWrite (image_path output_dir img) data])
    imgs datas).

(** The files after the images [imgs] are saved with contents [datas]. *)
Definition image_files (output_dir : string) (imgs : list OCR.ImageObject)
    (datas : list string) (fs : gmap string string) : gmap string string :=
  fold_left (λ fs '(img, data), <[image_path output_dir img := data]> fs)
    (zip imgs datas) fs.

(** The regular files below the directory [dir]. *)
Definition files_under (w : World) (dir : string) : gset string :=
  filter (λ path, PyStr.startswith path (dir +:+ "/") = true) (dom (files w)).

(** The response of the round-trip example: page 1 is the text [A] and
    carries the image [img1]; page 2 refers to [img1] and carries no image. *)
Definition round_trip_example (payload : string) : OCR.Response :=
  {| OCR.pages :=
       [ {| OCR.markdown := "A";
            OCR.images := [ {| OCR.id := "img1"; OCR.image_base64 := payload |} ] |};
         {| OCR.markdown := "B ![img1](img1)"; OCR.images := [] |} ] |}.

(** The same, with [img1] carried by page 2 as well. *)
Definition round_trip_both (payload : string) : OCR.Response :=
  {| OCR.pages :=
       [ {| OCR.markdown := "A";
            OCR.images := [ {| OCR.id := "img1"; OCR.image_base64 := payload |} ] |};
         {| OCR.markdown := "B ![img1](img1)";
            OCR.images := [ {| OCR.id := "img1"; OCR.image_base64 := payload |} ] |} ] |}.

(** *** The Format Classifier *)

(** The first check of the classifier: the extension of the lower-cased
    path is a supported one. *)
Definition supported_extension (file_path : string) : bool :=
  bool_decide ((PosixPath.splitext (PyStr.lower file_path)).2 ∈ SUPPORTED_IMAGE_EXTENSIONS).

(** The second check: the file can be read and PIL tells an image format
    from its content. *)
Definition decodes_as_image `{Externals} (w : World) (file_path : string) : bool :=
  match files w !! file_path with
  | Some content =>
      match pil_open content with
      | Ok (Some _) => true
      | _ => false
      end
  | None => false
  end.

(** *** The Output Store *)

(** Two readings of the clock within one second. *)
Definition same_second (t1 t2 : datetime) : Prop :=
  year t1 = year t2 ∧ month t1 = month t2 ∧ day t1 = day t2
  ∧ hour t1 = hour t2 ∧ minute t1 = minute t2 ∧ second t1 = second t2.

(** The directory of the run started at [now] for the source [path]. *)
Definition run_directory (now : datetime) (path : string) : string :=
  PosixPath.join "outputs" (strftime now +:+ "_" +:+ PurePath.stem path).

(** *** The Remote OCR Client *)

(** The calls to the remote service among some events. *)
Definition is_remote (e : Event) : bool :=
  match e with
  | EvUpload _ _ _ _ | EvSignedUrl _ _ _ | EvOcr _ _ _ _ => true
  | _ => false
  end.

Definition remote_calls (evs : list Event) : list Event := filter is_remote evs.

(** The three calls of the remote protocol, as [process_pdf] sends them. *)
Definition upload_call (api_key pdf_path content : string) : Event :=
  EvUpload api_key (PurePath.stem pdf_path) content "ocr".

Definition signed_url_call (api_key file_id : string) : Event :=
  EvSignedUrl api_key file_id 1.

Definition ocr_call (api_key document_url : string) : Event :=
  EvOcr api_key document_url "mistral-ocr-latest" true.

(** The calls of one run of the protocol after the events [history]: each
    call is sent when the one before it was answered. *)
Definition protocol_calls `{Externals} (history : list Event)
    (api_key pdf_path content : string) : list Event :=
  let upload := upload_call api_key pdf_path content in
  match files_upload (history ++ [upload]) api_key (PurePath.stem pdf_path) content "ocr" with
  | Raise _ => [upload]
  | Ok file_id =>
      let sign := signed_url_call api_key file_id in
      match files_get_signed_url (history ++ [upload; sign]) api_key file_id 1 with
      | Raise _ => [upload; sign]
      | Ok url => [upload; sign; ocr_call api_key url]
      end
  end.

(** The world [w] after the events [evs], the file system untouched. *)
Definition logged (w : World) (evs : list Event) : World :=
  {| files := files w; dirs := dirs w; clock := clock w; events := events w ++ evs |}.

(** A path in plain spelling, the spelling under which the world knows a
    file or a directory: its components are separated by single separators,
    none of them is empty, [.] or [..], and nothing follows the last one; an
    absolute path begins with one separator. *)
Definition plain_path (path : string) : bool :=
  match PyStr.split path "/" with
  | first :: rest =>
      negb (bool_decide (first = "." ∨ first = ".."))
      && forallb (λ c, negb (bool_decide (c = "" ∨ c = "." ∨ c = ".."))) rest
      && negb (bool_decide (first = "" ∧ rest = []))
  | [] => false
  end.

(** What [process_pdf] does first when it is given no output directory. *)
Definition prepare_run (pdf_path : string) : M string :=
  output_dir ← create_output_directory pdf_path;
  let origin_file := PosixPath.join output_dir ("origin" +:+ PurePath.suffix pdf_path) in
  FS.copy2 pdf_path origin_file;;
  mret output_dir.

(** *** Runs *)

(** What [process_file] does before it calls [process_pdf]: the run
    directory, the copy of the original, the conversion of an image.  It
    returns the document to process and the run directory. *)
Definition normalize `{Externals} (file_path : string) : M (string * string) :=
  output_dir ← create_output_directory file_path;
  let origin_file := PosixPath.join output_dir ("origin" +:+ PurePath.suffix file_path) in
  FS.copy2 file_path origin_file;;
  is_image ← is_image_file file_path;
  file_to_process ←
    (if is_image : bool then convert_image_to_pdf file_path output_dir
     else mret origin_file);
  mret (file_to_process, output_dir).

(** The path an event of the file system is about. *)
Definition event_path (e : Event) : option string :=
  match e with
  | EvMakedirs path | EvOpen path | EvWrite path _ => Some path
  | _ => None
  end.

(** The paths the assembler writes to under [output_dir]: [complete.md],
    [images] and what lies below [images]. *)
Definition assembly_path (output_dir path : string) : Prop :=
  path = complete_md output_dir ∨ path = images_dir output_dir
  ∨ below (images_dir output_dir) path.

(** An event that is about none of them. *)
Definition spares_assembly (output_dir : string) (ev : Event) : Prop :=
  ∀ path, event_path ev = Some path → ¬ assembly_path output_dir path.

(** A computation adds only events that satisfy [P] to the log, however it
    ends. *)
Definition adds_only {A : Type} (P : Event → Prop) (m : M A) : Prop :=
  ∀ w r w', m w = (r, w') → ∃ evs, events w' = events w ++ evs ∧ Forall P evs.

(** *** The preview and the command line *)


(** The page of the preview before and after its body. *)
Definition html_head : string :=
  PyStr.join PyStr.LF
    [ "<!DOCTYPE html>";
      "<html>";
      "<head>";
      "    <title>Markdown Preview</title>";
      "    <meta charset=" +:+ DQ +:+ "utf-8" +:+ DQ +:+ ">";
      "    <link rel=" +:+ DQ +:+ "stylesheet" +:+ DQ +:+ " href=" +:+ DQ
        +:+ "https://cdn.jsdelivr.net/npm/github-markdown-css/github-markdown.min.css"
        +:+ DQ +:+ ">";
      "</head>";
      "<body>";
      "    <div id=" +:+ DQ +:+ "content" +:+ DQ +:+ " class=" +:+ DQ +:+ "markdown-body"
        +:+ DQ +:+ ">";
      "        " ].

Definition html_tail : string :=
  PyStr.join PyStr.LF [ ""; "    </div>"; "</body>"; "</html>" ].

(** The text with [<] and [>] escaped, as the last resort of the preview
    writes it. *)
Definition escaped (text : string) : string :=
  PyStr.replace (PyStr.replace text "<" "&lt;") ">" "&gt;".

(** The lines [main_cli] writes. *)
Definition start_line (i n : nat) (file_path : string) : string :=
  printed ("开始处理文件 " +:+ PyStr.of_N (N.of_nat (i + 1)) +:+ "/"
           +:+ PyStr.of_N (N.of_nat n) +:+ ": " +:+ file_path).

Definition done_line (output_dir : string) : string :=
  printed ("OCR处理完成。结果保存在: " +:+ output_dir).

Definition error_line (file_path msg : string) : string :=
  printed ("处理文件 " +:+ file_path +:+ " 时出错: " +:+ msg).

Definition quit_line : string := printed "用户选择退出程序。".

Definition done_prompt (file_path : string) : string :=
  PyStr.LF +:+ "已完成 " +:+ file_path +:+ " 的处理。按回车键处理下一个文件，或输入'q'退出: ".

Definition error_prompt (file_path : string) : string :=
  PyStr.LF +:+ "处理 " +:+ file_path +:+ " 时出错。按回车键处理下一个文件，或输入'q'退出: ".

(** The report on a file, where its results are or what went wrong, and
    the question that follows it. *)
Definition report (file_path : string) (r : Result (string * string)) : string :=
  match r with
  | Ok (_, output_dir) => done_line output_dir
  | Raise e => error_line file_path (exn_str e)
  end.

Definition prompt (file_path : string) (r : Result (string * string)) : string :=
  match r with
  | Ok _ => done_prompt file_path
  | Raise _ => error_prompt file_path
  end.

(** The world when a file is taken up. *)
Definition taken_up `{Host} (w : World) : World :=
  {| files := files w; dirs := dirs w; clock := elapse w; events := events w |}.

(** * Properties *)

(** ** Strings *)

Lemma str_app_nil_r (s : string) : s +:+ "" = s.
Proof. induction s as [|c s IH]; [done|]. unfold String.app in *. simpl. by rewrite IH. Qed.

Lemma str_app_assoc (a b c : string) : (a +:+ b) +:+ c = a +:+ b +:+ c.
Proof.
  induction a as [|x a IH]; [done|].
  unfold String.app in *. simpl. by rewrite IH.
Qed.

Lemma str_app_cons (c : ascii) (a b : string) : String c a +:+ b = String c (a +:+ b).
Proof. done. Qed.

Lemma str_app_nil_l (s : string) : "" +:+ s = s.
Proof. done. Qed.

Lemma str_length_app (a b : string) :
  String.length (a +:+ b) = (String.length a + String.length b)%nat.
Proof.
  induction a as [|x a IH]; [done|].
  rewrite str_app_cons. simpl. by rewrite IH.
Qed.

Lemma str_app_inv_head (a b c : string) : a +:+ b = a +:+ c → b = c.
Proof. apply (inj (String.app a)). Qed.

Lemma str_app_inv_tail (a b c : string) : a +:+ c = b +:+ c → a = b.
Proof.
  revert b. induction a as [|x a IH]; intros [|y b] Heq; [done|..].
  - apply (f_equal String.length) in Heq. rewrite str_app_cons, str_app_nil_l in Heq.
    simpl in Heq. rewrite str_length_app in Heq. lia.
  - apply (f_equal String.length) in Heq. rewrite str_app_cons, str_app_nil_l in Heq.
    simpl in Heq. rewrite str_length_app in Heq. lia.
  - rewrite !str_app_cons in Heq. injection Heq as -> Heq. f_equal. by apply IH.
Qed.

Lemma strip_prefix_app (p s : string) : PyStr.strip_prefix p (p +:+ s) = Some s.
Proof.
  induction p as [|c p IH]; [by destruct s|].
  rewrite str_app_cons. simpl. by rewrite decide_True.
Qed.

Lemma strip_prefix_Some (p s rest : string) :
  PyStr.strip_prefix p s = Some rest ↔ s = p +:+ rest.
Proof.
  split; [|intros ->; apply strip_prefix_app].
  revert s. induction p as [|c p IH]; intros s Hs.
  - destruct s; simpl in Hs; by simplify_eq.
  - destruct s as [|b s]; [done|]. simpl in Hs.
    destruct (decide (c = b)) as [->|]; [|done].
    rewrite str_app_cons. f_equal. by apply IH.
Qed.

Lemma strip_prefix_None (p s : string) :
  PyStr.strip_prefix p s = None ↔ ∀ rest, s ≠ p +:+ rest.
Proof.
  split.
  - intros Hn rest ->. by rewrite strip_prefix_app in Hn.
  - intros Hne. destruct (PyStr.strip_prefix p s) as [rest|] eqn:E; [|done].
    apply strip_prefix_Some in E. by destruct (Hne rest).
Qed.

Lemma startswith_app (p s : string) : PyStr.startswith (p +:+ s) p = true.
Proof. unfold PyStr.startswith. by rewrite strip_prefix_app. Qed.

Lemma startswith_true (s p : string) :
  PyStr.startswith s p = true ↔ ∃ rest, s = p +:+ rest.
Proof.
  unfold PyStr.startswith. split.
  - destruct (PyStr.strip_prefix p s) as [rest|] eqn:E; [|done].
    intros _. exists rest. by apply strip_prefix_Some.
  - intros [rest ->]. by rewrite strip_prefix_app.
Qed.

Lemma str_app_split (a b c d : string) :
  a +:+ b = c +:+ d → (String.length c ≤ String.length a)%nat → ∃ r, a = c +:+ r.
Proof.
  revert a. induction c as [|x c IH]; intros a Heq Hlen; [by exists a|].
  destruct a as [|y a]; [simpl in Hlen; lia|].
  rewrite !str_app_cons in Heq. injection Heq as -> Heq.
  destruct (IH a Heq) as [r ->]; [simpl in Hlen; lia|]. by exists r.
Qed.

(** *** [str.replace] *)

Section Replace.
Variables old new : string.
Hypothesis old_nonempty : old ≠ "".

Lemma strip_prefix_old_nil : PyStr.strip_prefix old "" = None.
Proof using old_nonempty. by destruct old. Qed.

Lemma strip_prefix_shorter (s rest : string) :
  PyStr.strip_prefix old s = Some rest → (String.length rest < String.length s)%nat.
Proof using old_nonempty.
  intros ->%strip_prefix_Some. rewrite str_length_app.
  destruct old; [done|]. simpl. lia.
Qed.

(** More fuel than the length of the text changes nothing. *)
Lemma replace_from_fuel (n m : nat) (s : string) :
  (String.length s ≤ n)%nat → (String.length s ≤ m)%nat →
  PyStr.replace_from n old new s = PyStr.replace_from m old new s.
Proof using old_nonempty.
  revert m s. induction n as [|n IH]; intros m s Hn Hm.
  - destruct s; [|simpl in Hn; lia].
    destruct m; simpl; [done|]. by rewrite strip_prefix_old_nil.
  - destruct m as [|m].
    { destruct s; [|simpl in Hm; lia]. simpl. by rewrite strip_prefix_old_nil. }
    simpl. destruct (PyStr.strip_prefix old s) as [rest|] eqn:E.
    + apply strip_prefix_shorter in E. f_equal. apply IH; lia.
    + destruct s as [|c s]; [done|]. simpl in Hn, Hm. f_equal. apply IH; lia.
Qed.

Lemma replace_unfold (s : string) :
  PyStr.replace s old new = PyStr.replace_from (String.length s) old new s.
Proof using old_nonempty. unfold PyStr.replace. by destruct old. Qed.

Lemma replace_nil : PyStr.replace "" old new = "".
Proof using old_nonempty. by rewrite replace_unfold. Qed.

(** At an occurrence of [old], [new] is written and the scan goes on
    after the occurrence. *)
Lemma replace_match (rest : string) :
  PyStr.replace (old +:+ rest) old new = new +:+ PyStr.replace rest old new.
Proof using old_nonempty.
  rewrite !replace_unfold.
  assert (0 < String.length old)%nat as Hold by (destruct old; [done|simpl; lia]).
  destruct (String.length (old +:+ rest)) as [|n] eqn:Hlen;
    rewrite str_length_app in Hlen; [lia|].
  simpl. rewrite strip_prefix_app. f_equal.
  apply replace_from_fuel; lia.
Qed.

(** Elsewhere the character is copied. *)
Lemma replace_skip (c : ascii) (s : string) :
  PyStr.strip_prefix old (String c s) = None →
  PyStr.replace (String c s) old new = String c (PyStr.replace s old new).
Proof using old_nonempty.
  intros Hnone. rewrite !replace_unfold.
  cbn [String.length PyStr.replace_from]. by rewrite Hnone.
Qed.

(** A text without occurrence of [old] is left as it is. *)
Lemma replace_absent (s : string) :
  ¬ occurs old s → PyStr.replace s old new = s.
Proof using old_nonempty.
  induction s as [|c s IH]; intros Hno; [apply replace_nil|].
  rewrite replace_skip.
  - f_equal. apply IH. intros (l & r & ->). apply Hno.
    exists (String c l), r. by rewrite str_app_cons.
  - apply strip_prefix_None. intros rest Heq. apply Hno. by exists "", rest.
Qed.

Lemma clean_before_tail (c : ascii) (seg : string) :
  clean_before old (String c seg) → clean_before old seg.
Proof.
  intros Hclean l r Heq.
  assert (String c l = String c seg) as [= ->]; [|done].
  apply (Hclean (String c l) r). by rewrite !str_app_cons, Heq.
Qed.

(** The scan copies a segment in which no occurrence starts, and replaces
    the occurrence that follows it. *)
Lemma replace_segment (seg rest : string) :
  clean_before old seg →
  PyStr.replace (seg +:+ old +:+ rest) old new
  = seg +:+ new +:+ PyStr.replace rest old new.
Proof using old_nonempty.
  induction seg as [|c seg IH]; intros Hclean.
  - rewrite !str_app_nil_l. apply replace_match.
  - rewrite !str_app_cons. rewrite replace_skip.
    + f_equal. apply IH. by eapply clean_before_tail.
    + apply strip_prefix_None. intros x Heq.
      rewrite <- str_app_cons, <- str_app_assoc in Heq.
      apply str_app_split in Heq as [r Hr].
      * specialize (Hclean "" r Hr). done.
      * rewrite str_length_app. lia.
Qed.

(** [s.replace(old, new)] is [new.join(s.split(old))]: when [old] occurs
    in [old.join(segs)] at the joints only, replacing it yields
    [new.join(segs)]. *)
Lemma replace_join (segs : list string) :
  Forall (clean_before old) (removelast segs) →
  ¬ occurs old (List.last segs "") →
  PyStr.replace (PyStr.join old segs) old new = PyStr.join new segs.
Proof using old_nonempty.
  induction segs as [|seg segs IH]; intros Hclean Hlast.
  - apply replace_nil.
  - destruct segs as [|seg' segs].
    + simpl. by apply replace_absent.
    + change (PyStr.join old (seg :: seg' :: segs))
        with (seg +:+ old +:+ PyStr.join old (seg' :: segs)).
      change (PyStr.join new (seg :: seg' :: segs))
        with (seg +:+ new +:+ PyStr.join new (seg' :: segs)).
      cbn [removelast] in Hclean. apply Forall_cons in Hclean as [Hseg Hclean].
      rewrite replace_segment by done. do 2 f_equal. by apply IH.
Qed.

End Replace.

(** *** [str.split], [os.path.join] *)

Lemma split_without_sep (s : string) (sep : ascii) :
  PyStr.contains s sep = false → PyStr.split s sep = [s].
Proof.
  induction s as [|c s IH]; [done|]. simpl.
  intros [Hc Hs]%orb_false_elim. apply bool_decide_eq_false in Hc.
  rewrite decide_False by done. by rewrite IH.
Qed.

Lemma split_at_sep (a b : string) (sep : ascii) :
  PyStr.contains a sep = false →
  PyStr.split (a +:+ String sep b) sep = a :: PyStr.split b sep.
Proof.
  induction a as [|c a IH].
  - intros _. rewrite str_app_nil_l. simpl. by rewrite decide_True.
  - cbn [PyStr.contains]. intros [Hc Ha]%orb_false_elim.
    apply bool_decide_eq_false in Hc.
    rewrite str_app_cons. cbn [PyStr.split].
    rewrite decide_False by done. by rewrite IH.
Qed.

(** The decoded field is the text between the first comma and the next
    one, or the end of the payload; a payload without comma has none. *)
Lemma payload_field_after_comma (header data : string) :
  PyStr.contains header "," = false → PyStr.contains data "," = false →
  payload_field (header +:+ "," +:+ data) = Some data.
Proof.
  intros Hh Hd. unfold payload_field.
  change ("," +:+ data) with (String "," data).
  by rewrite split_at_sep, split_without_sep.
Qed.

Lemma payload_field_until_comma (header data rest : string) :
  PyStr.contains header "," = false → PyStr.contains data "," = false →
  payload_field (header +:+ "," +:+ data +:+ "," +:+ rest) = Some data.
Proof.
  intros Hh Hd. unfold payload_field.
  change ("," +:+ data +:+ "," +:+ rest) with (String "," (data +:+ String "," rest)).
  by rewrite !split_at_sep.
Qed.

Lemma payload_field_without_comma (payload : string) :
  PyStr.contains payload "," = false → payload_field payload = None.
Proof. intros Hp. unfold payload_field. by rewrite split_without_sep. Qed.

Lemma payload_field_with_comma (payload : string) :
  PyStr.contains payload "," = true → is_Some (payload_field payload).
Proof.
  unfold payload_field. induction payload as [|c payload IH]; [done|].
  cbn [PyStr.contains PyStr.split]. destruct (decide (c = ","%char)) as [->|Hne].
  - intros _. by destruct payload; simpl; repeat case_match.
  - rewrite bool_decide_eq_false_2 by done. intros Hc%IH.
    destruct (PyStr.split payload ",") as [|f [|g fs]]; by inversion Hc.
Qed.

Lemma endswith_char_app (a b : string) (c : ascii) :
  b ≠ "" → PyStr.endswith_char (a +:+ b) c = PyStr.endswith_char b c.
Proof.
  intros Hb. induction a as [|x a IH]; [done|].
  rewrite str_app_cons. simpl.
  destruct (a +:+ b) eqn:E; [|done].
  destruct a; [|done]. by rewrite str_app_nil_l in E.
Qed.

Lemma startswith_slash (s : string) :
  PyStr.contains s "/" = false → PyStr.startswith s "/" = false.
Proof.
  destruct s as [|c s]; [done|]. simpl.
  intros [Hc _]%orb_false_elim. apply bool_decide_eq_false in Hc.
  unfold PyStr.startswith. simpl. rewrite decide_False; [done|congruence].
Qed.

Lemma contains_app (a b : string) (c : ascii) :
  PyStr.contains (a +:+ b) c = PyStr.contains a c || PyStr.contains b c.
Proof.
  induction a as [|x a IH]; [done|].
  rewrite str_app_cons. simpl. by rewrite IH, orb_assoc.
Qed.

Lemma join_relative (a b : string) :
  PyStr.startswith b "/" = false → PosixPath.join a b = join_prefix a +:+ b.
Proof.
  intros Hb. unfold PosixPath.join, join_prefix. rewrite Hb.
  destruct (_ || _); [done|]. by rewrite str_app_assoc.
Qed.

Lemma images_dir_eq (output_dir : string) :
  images_dir output_dir = join_prefix output_dir +:+ "images".
Proof. by apply join_relative. Qed.

Lemma complete_md_eq (output_dir : string) :
  complete_md output_dir = join_prefix output_dir +:+ "complete.md".
Proof. by apply join_relative. Qed.

(** An image whose identifier is a plain file name is saved as
    [<output_dir>/images/<id>.png]. *)
Lemma image_path_eq (output_dir : string) (img : OCR.ImageObject) :
  PyStr.contains (OCR.id img) "/" = false →
  image_path output_dir img = images_dir output_dir +:+ "/" +:+ OCR.id img +:+ ".png".
Proof.
  intros Hid. unfold image_path. rewrite join_relative.
  - rewrite <- (str_app_assoc _ "/"). f_equal.
    unfold join_prefix. rewrite images_dir_eq.
    rewrite endswith_char_app by done. simpl.
    rewrite bool_decide_eq_false_2; [done|].
    destruct (join_prefix output_dir); by rewrite ?str_app_cons.
  - apply startswith_slash. rewrite contains_app, Hid. done.
Qed.

Lemma strip_prefix_common (a b c : string) :
  PyStr.strip_prefix (a +:+ b) (a +:+ c) = PyStr.strip_prefix b c.
Proof.
  induction a as [|x a IH]; [done|].
  rewrite !str_app_cons. simpl. by rewrite decide_True.
Qed.

Lemma complete_md_not_under_images (output_dir : string) :
  PyStr.startswith (complete_md output_dir) (images_dir output_dir +:+ "/") = false.
Proof.
  rewrite complete_md_eq, images_dir_eq, str_app_assoc.
  unfold PyStr.startswith. by rewrite strip_prefix_common.
Qed.

Lemma join_endswith (a b : string) (c : ascii) :
  b ≠ "" → PyStr.endswith_char (PosixPath.join a b) c = PyStr.endswith_char b c.
Proof.
  intros Hb. unfold PosixPath.join. repeat case_match; [done|..].
  - by apply endswith_char_app.
  - rewrite endswith_char_app by done. by apply (endswith_char_app "/").
Qed.

(** No image is saved over [complete.md]: its path ends in [.png]. *)
Lemma image_path_not_complete_md (output_dir : string) (img : OCR.ImageObject) :
  image_path output_dir img ≠ complete_md output_dir.
Proof.
  intros Heq. apply (f_equal (λ s, PyStr.endswith_char s "g")) in Heq.
  unfold image_path, complete_md in Heq.
  rewrite !join_endswith in Heq by (by destruct (OCR.id img)).
  rewrite endswith_char_app in Heq by done. done.
Qed.

(** An injective renaming keeps the number of distinct names. *)
Lemma size_list_to_set_fmap (f : string → string) `{!Inj (=) (=) f} (l : list string) :
  size (list_to_set (f <$> l) : gset string) = size (list_to_set l : gset string).
Proof.
  induction l as [|x l IH]; [done|].
  rewrite fmap_cons, !list_to_set_cons.
  destruct (decide (x ∈ l)) as [Hin|Hnotin].
  - rewrite !subseteq_union_1_L; [done|..].
    + apply singleton_subseteq_l, elem_of_list_to_set. done.
    + apply singleton_subseteq_l, elem_of_list_to_set, list_elem_of_fmap. eauto.
  - rewrite !size_union, !size_singleton, IH; [done|..].
    + apply disjoint_singleton_l. by rewrite elem_of_list_to_set.
    + apply disjoint_singleton_l. rewrite elem_of_list_to_set, list_elem_of_fmap.
      intros (y & Hxy & Hy). apply (inj f) in Hxy. by subst.
Qed.

#[local] Instance image_file_name_inj (dir : string) :
  Inj (=) (=) (λ i, dir +:+ "/" +:+ i +:+ ".png").
Proof.
  intros i j Heq. apply str_app_inv_head in Heq.
  change ("/" +:+ i +:+ ".png") with (String "/" (i +:+ ".png")) in Heq.
  change ("/" +:+ j +:+ ".png") with (String "/" (j +:+ ".png")) in Heq.
  injection Heq as Heq. by apply str_app_inv_tail in Heq.
Qed.

(** ** [str.rfind], slices and [os.path.splitext] *)

Lemma rfind_from_spec (s : string) (c : ascii) (i : Z) :
  0 ≤ i →
  (PyStr.contains s c = false ∧ PyStr.rfind_from i s c = -1)
  ∨ (∃ a b, s = a +:+ String c b ∧ PyStr.contains b c = false
            ∧ PyStr.rfind_from i s c = i + PyStr.len a).
Proof.
  revert i. induction s as [|x s IH]; intros i Hi; [by left|].
  cbn [PyStr.rfind_from PyStr.contains].
  destruct (IH (i + 1)) as [[Hs ->]|(a & b & -> & Hb & ->)]; [lia|..].
  - simpl. destruct (decide (x = c)) as [->|Hne].
    + right. exists "", s. unfold PyStr.len. simpl. split; [done|]. split; [done|lia].
    + left. by rewrite bool_decide_eq_false_2, Hs.
  - right. exists (String x a), b. unfold PyStr.len in *. simpl String.length.
    split; [done|]. split; [done|].
    destruct (0 <=? i + 1 + Z.of_nat (String.length a)) eqn:E; [lia|].
    apply Z.leb_gt in E. lia.
Qed.

(** The last [c] of a text splits it in one way only. *)
Lemma last_sep_unique (a a' x y : string) (c : ascii) :
  PyStr.contains x c = false → PyStr.contains y c = false →
  a +:+ String c x = a' +:+ String c y → a = a' ∧ x = y.
Proof.
  intros Hx Hy. revert a'. induction a as [|u a IH]; intros [|v a'] Heq.
  - rewrite !str_app_nil_l in Heq. by injection Heq as ->.
  - rewrite str_app_nil_l, str_app_cons in Heq. injection Heq as <- ->.
    rewrite contains_app in Hx. simpl in Hx.
    by rewrite bool_decide_eq_true_2, orb_true_r in Hx.
  - rewrite str_app_nil_l, str_app_cons in Heq. injection Heq as -> <-.
    rewrite contains_app in Hy. simpl in Hy.
    by rewrite bool_decide_eq_true_2, orb_true_r in Hy.
  - rewrite !str_app_cons in Heq. injection Heq as -> Heq.
    destruct (IH a' Heq) as [-> ->]. done.
Qed.

Lemma rfind_last (a x : string) (c : ascii) :
  PyStr.contains x c = false → PyStr.rfind (a +:+ String c x) c = PyStr.len a.
Proof.
  intros Hx. unfold PyStr.rfind.
  destruct (rfind_from_spec (a +:+ String c x) c 0) as [[Hs _]|(a' & y & Heq & Hy & ->)];
    [lia|..].
  - rewrite contains_app in Hs. simpl in Hs.
    by rewrite bool_decide_eq_true_2, orb_true_r in Hs.
  - by apply last_sep_unique in Heq as [-> _].
Qed.

Lemma rfind_absent (s : string) (c : ascii) :
  PyStr.contains s c = false → PyStr.rfind s c = -1.
Proof.
  intros Hs. unfold PyStr.rfind.
  destruct (rfind_from_spec s c 0) as [[_ ->]|(a & b & -> & _ & _)]; [lia|done|].
  rewrite contains_app in Hs. simpl in Hs.
  by rewrite bool_decide_eq_true_2, orb_true_r in Hs.
Qed.

(** Text without [c] after a text does not move its last [c]. *)
Lemma rfind_app_absent (s y : string) (c : ascii) :
  PyStr.contains y c = false → PyStr.rfind (s +:+ y) c = PyStr.rfind s c.
Proof.
  intros Hy. unfold PyStr.rfind at 2.
  destruct (rfind_from_spec s c 0) as [[Hs ->]|(a & b & -> & Hb & ->)]; [lia|..].
  - apply rfind_absent. by rewrite contains_app, Hs, Hy.
  - rewrite str_app_assoc, str_app_cons, rfind_last; [lia|].
    by rewrite contains_app, Hb, Hy.
Qed.

Lemma rfind_bounds (s : string) (c : ascii) : -1 ≤ PyStr.rfind s c < PyStr.len s.
Proof.
  unfold PyStr.rfind, PyStr.len.
  destruct (rfind_from_spec s c 0) as [[_ ->]|(a & b & -> & _ & ->)]; [lia|lia|].
  unfold PyStr.len. rewrite str_length_app. simpl. lia.
Qed.

Lemma substring_all (s : string) : String.substring 0 (String.length s) s = s.
Proof. induction s as [|c s IH]; [done|]. simpl. by rewrite IH. Qed.

Lemma substring_skip (a s : string) (m : nat) :
  String.substring (String.length a) m (a +:+ s) = String.substring 0 m s.
Proof. induction a as [|c a IH]; [done|]. rewrite str_app_cons. simpl. apply IH. Qed.

Lemma substring_prefix (a y : string) (m : nat) :
  (m ≤ String.length a)%nat → String.substring 0 m (a +:+ y) = String.substring 0 m a.
Proof.
  revert m. induction a as [|c a IH]; intros m Hm.
  - simpl in Hm. assert (m = 0%nat) as -> by lia. by destruct y.
  - rewrite str_app_cons. destruct m as [|m]; [done|]. simpl.
    rewrite IH; [done|simpl in Hm; lia].
Qed.

Lemma substring_within (a y : string) (n m : nat) :
  (n + m ≤ String.length a)%nat →
  String.substring n m (a +:+ y) = String.substring n m a.
Proof.
  revert n. induction a as [|c a IH]; intros n Hnm.
  - simpl in Hnm. assert (n = 0%nat) as -> by lia. assert (m = 0%nat) as -> by lia.
    by destruct y.
  - rewrite str_app_cons. destruct n as [|n].
    + destruct m as [|m]; [done|]. simpl.
      rewrite substring_prefix; [done|simpl in Hnm; lia].
    + simpl. apply IH. simpl in Hnm. lia.
Qed.

Lemma take_app (a s : string) : PyStr.take (PyStr.len a) (a +:+ s) = a.
Proof.
  unfold PyStr.take, PyStr.len. rewrite Nat2Z.id, substring_prefix by done.
  apply substring_all.
Qed.

Lemma drop_app (a s : string) : PyStr.drop (PyStr.len a) (a +:+ s) = s.
Proof.
  unfold PyStr.drop, PyStr.len. rewrite Nat2Z.id, substring_skip, str_length_app.
  replace (String.length a + String.length s - String.length a)%nat
    with (String.length s) by lia.
  apply substring_all.
Qed.

(** The base name of a path holds no separator. *)
Lemma basename_without_slash (p : string) : PyStr.contains (FS.basename p) "/" = false.
Proof.
  unfold FS.basename, PyStr.rfind.
  destruct (rfind_from_spec p "/" 0) as [[Hp ->]|(a & b & -> & Hb & ->)]; [lia|..].
  - pose proof (drop_app "" p) as Hdrop. rewrite str_app_nil_l in Hdrop.
    change (-1 + 1) with (PyStr.len ""). by rewrite Hdrop.
  - replace (0 + PyStr.len a + 1) with (PyStr.len (a +:+ "/")).
    + change (String "/" b) with ("/" +:+ b).
      by rewrite <- (str_app_assoc a "/" b), drop_app.
    + unfold PyStr.len. rewrite str_length_app. simpl. lia.
Qed.

(** An extension without dot or separator after a name that is not made
    of dots is what [splitext] splits off. *)
Lemma splitext_extension (base x : string) :
  PyStr.contains x "." = false → PyStr.contains x "/" = false →
  PyStr.all_char (FS.basename base) "." = false →
  PosixPath.splitext (base +:+ String "." x) = (base, String "." x).
Proof.
  intros Hdot Hslash Hname. unfold PosixPath.splitext.
  rewrite rfind_last by done. rewrite rfind_app_absent by done.
  pose proof (rfind_bounds base "/") as [Hlo Hhi].
  destruct (PyStr.rfind base "/" <? PyStr.len base) eqn:E; [|apply Z.ltb_ge in E; lia].
  assert (PyStr.slice (PyStr.rfind base "/" + 1) (PyStr.len base) (base +:+ String "." x)
          = FS.basename base) as ->.
  { unfold PyStr.slice, FS.basename, PyStr.drop, PyStr.len in *.
    rewrite Nat2Z.id. apply substring_within. lia. }
  by rewrite Hname, take_app, drop_app.
Qed.

(** *** Lowering the case keeps dots and separators *)

Lemma lower_app (a b : string) : PyStr.lower (a +:+ b) = PyStr.lower a +:+ PyStr.lower b.
Proof. induction a as [|c a IH]; [done|]. rewrite str_app_cons. simpl. by rewrite IH. Qed.

Lemma lower_char_dot (x : ascii) : PyStr.lower_char x = "."%char ↔ x = "."%char.
Proof. by destruct x as [[] [] [] [] [] [] [] []]. Qed.

Lemma lower_char_slash (x : ascii) : PyStr.lower_char x = "/"%char ↔ x = "/"%char.
Proof. by destruct x as [[] [] [] [] [] [] [] []]. Qed.

Section LowerKeeps.
Variable c : ascii.
Hypothesis lower_char_c : ∀ x, PyStr.lower_char x = c ↔ x = c.

Lemma decide_lower_char (x : ascii) {A : Type} (u v : A) :
  (if decide (PyStr.lower_char x = c) then u else v) = (if decide (x = c) then u else v).
Proof using lower_char_c.
  destruct (decide (PyStr.lower_char x = c)) as [Hl|Hl], (decide (x = c)) as [Hx|Hx];
    try done.
  - destruct Hx. by apply lower_char_c.
  - destruct Hl. by apply lower_char_c.
Qed.

Lemma rfind_from_lower (s : string) (i : Z) :
  PyStr.rfind_from i (PyStr.lower s) c = PyStr.rfind_from i s c.
Proof using lower_char_c.
  revert i. induction s as [|x s IH]; intros i; [done|].
  simpl. by rewrite IH, decide_lower_char.
Qed.

Lemma all_char_lower (s : string) : PyStr.all_char (PyStr.lower s) c = PyStr.all_char s c.
Proof using lower_char_c.
  induction s as [|x s IH]; [done|]. simpl. rewrite IH. f_equal.
  unfold bool_decide. apply decide_lower_char.
Qed.

End LowerKeeps.

Lemma length_lower (s : string) : String.length (PyStr.lower s) = String.length s.
Proof. induction s as [|c s IH]; [done|]. simpl. by rewrite IH. Qed.

Lemma substring_lower (s : string) (n m : nat) :
  String.substring n m (PyStr.lower s) = PyStr.lower (String.substring n m s).
Proof.
  revert n m. induction s as [|c s IH]; intros [|n] [|m]; try done; simpl;
    by rewrite ?IH.
Qed.

Lemma basename_lower (p : string) : FS.basename (PyStr.lower p) = PyStr.lower (FS.basename p).
Proof.
  unfold FS.basename, PyStr.drop, PyStr.rfind.
  by rewrite (rfind_from_lower "/" lower_char_slash), length_lower, substring_lower.
Qed.

(** A path that ends, in whatever letter case, in a supported extension
    after a file name that is not made of dots passes the extension check. *)
Lemma supported_extension_any_case (base ext : string) :
  PyStr.lower ext ∈ SUPPORTED_IMAGE_EXTENSIONS →
  PyStr.all_char (FS.basename base) "." = false →
  supported_extension (base +:+ ext) = true.
Proof.
  intros Hext Hname. unfold supported_extension. rewrite lower_app.
  assert (PyStr.all_char (FS.basename (PyStr.lower base)) "." = false) as Hlower.
  { by rewrite basename_lower, (all_char_lower "." lower_char_dot). }
  unfold SUPPORTED_IMAGE_EXTENSIONS in Hext.
  repeat (apply elem_of_cons in Hext as [Hext|Hext]);
    [rewrite Hext, splitext_extension; [by vm_compute..|done]..|].
  by apply elem_of_nil in Hext.
Qed.

(** ** The paths of a run *)

Lemma split_fields_without_sep (s : string) (sep : ascii) :
  Forall (λ field, PyStr.contains field sep = false) (PyStr.split s sep).
Proof.
  induction s as [|c s IH]; [by repeat constructor|].
  simpl. destruct (decide (c = sep)) as [->|Hne]; [by constructor|].
  destruct (PyStr.split s sep) as [|field fields].
  - repeat constructor. simpl. by rewrite bool_decide_eq_false_2.
  - apply Forall_cons in IH as [Hfield Hfields]. constructor; [|done].
    simpl. by rewrite bool_decide_eq_false_2.
Qed.

Lemma contains_substring_prefix (s : string) (c : ascii) (n : nat) :
  PyStr.contains s c = false → PyStr.contains (String.substring 0 n s) c = false.
Proof.
  revert n. induction s as [|a s IH]; intros [|n] Hs; try done.
  simpl in *. apply orb_false_elim in Hs as [-> Hs]. by rewrite IH.
Qed.

Lemma name_without_slash (p : string) : PyStr.contains (PurePath.name p) "/" = false.
Proof.
  unfold PurePath.name, PurePath.parts.
  assert (Forall (λ field, PyStr.contains field "/" = false)
            (filter (λ x, x ≠ "" ∧ x ≠ ".") (PyStr.split p "/"))) as Hparts.
  { apply Forall_forall. intros field [_ Hin]%list_elem_of_filter.
    by eapply (proj1 (Forall_forall _ _) (split_fields_without_sep p "/")). }
  induction Hparts as [|field fields Hfield _ IH]; [done|].
  destruct fields; [done|]. apply IH.
Qed.

(** The stem of a path is one component of it: it holds no separator. *)
Lemma stem_without_slash (p : string) : PyStr.contains (PurePath.stem p) "/" = false.
Proof.
  unfold PurePath.stem. case_match; [|apply name_without_slash].
  apply contains_substring_prefix, name_without_slash.
Qed.

Lemma of_N_without_slash (n : N) : PyStr.contains (PyStr.of_N n) "/" = false.
Proof.
  unfold PyStr.of_N. induction (N.to_uint n) as [|d IH|d IH|d IH|d IH|d IH|d IH|d IH|d IH|d IH|d IH];
    [done|by simpl; rewrite IH..].
Qed.

Lemma zfill_without_slash (width : nat) (s : string) :
  PyStr.contains s "/" = false → PyStr.contains (PyStr.zfill width s) "/" = false.
Proof.
  intros Hs. unfold PyStr.zfill. rewrite contains_app, Hs, orb_false_r.
  induction (width - String.length s)%nat as [|k IH]; [done|].
  destruct k; [done|]. simpl in *.
  change (PyStr.contains ("0" +:+ ?x) "/") with (PyStr.contains x "/"). done.
Qed.

Lemma strftime_without_slash (t : datetime) : PyStr.contains (strftime t) "/" = false.
Proof.
  unfold strftime.
  by rewrite !contains_app, !zfill_without_slash by apply of_N_without_slash.
Qed.

Lemma run_name_without_slash (t : datetime) (path : string) :
  PyStr.contains (strftime t +:+ "_" +:+ PurePath.stem path) "/" = false.
Proof.
  rewrite contains_app, strftime_without_slash.
  change ("_" +:+ ?x) with (String "_" x). simpl. apply stem_without_slash.
Qed.

(** The run directory is [outputs/<timestamp>_<stem>]. *)
Lemma run_directory_eq (t : datetime) (path : string) :
  run_directory t path = "outputs/" +:+ strftime t +:+ "_" +:+ PurePath.stem path.
Proof.
  unfold run_directory, PosixPath.join. rewrite startswith_slash; [done|].
  apply run_name_without_slash.
Qed.

Lemma same_second_strftime (t1 t2 : datetime) :
  same_second t1 t2 → strftime t1 = strftime t2.
Proof. intros (Hy & Hm & Hd & Hh & Hmi & Hs). unfold strftime. congruence. Qed.

Lemma ancestors_from_without_slash (seen rest : string) :
  PyStr.contains rest "/" = false → FS.ancestors_from seen rest = [].
Proof.
  revert seen. induction rest as [|c rest IH]; intros seen Hrest; [done|].
  simpl in *. apply orb_false_elim in Hrest as [Hc Hrest].
  apply bool_decide_eq_false in Hc.
  rewrite bool_decide_eq_false_2 by (by intros [? _]). by rewrite IH.
Qed.

(** The only directory above a run directory is [outputs]. *)
Lemma ancestors_run_directory (t : datetime) (path : string) :
  FS.ancestors (run_directory t path) = ["outputs"].
Proof.
  rewrite run_directory_eq. unfold FS.ancestors.
  change ("outputs/" +:+ ?x) with
    (String "o" (String "u" (String "t" (String "p" (String "u" (String "t"
      (String "s" (String "/" x)))))))).
  cbn [FS.ancestors_from]. unfold String.app. simpl.
  rewrite ancestors_from_without_slash; [done|].
  apply run_name_without_slash.
Qed.

Lemma slash_free_prefix_inj (a b x y : string) (c : ascii) :
  PyStr.contains a c = false → PyStr.contains b c = false →
  a +:+ String c x = b +:+ String c y → a = b.
Proof.
  revert b. induction a as [|u a IH]; intros [|v b] Ha Hb Heq; [done|..].
  - rewrite str_app_nil_l, str_app_cons in Heq. injection Heq as <- _.
    simpl in Hb. by rewrite bool_decide_eq_true_2 in Hb.
  - rewrite str_app_nil_l, str_app_cons in Heq. injection Heq as -> _.
    simpl in Ha. by rewrite bool_decide_eq_true_2 in Ha.
  - rewrite !str_app_cons in Heq. injection Heq as -> Heq.
    simpl in Ha, Hb. apply orb_false_elim in Ha as [_ Ha].
    apply orb_false_elim in Hb as [_ Hb]. f_equal. by eapply IH.
Qed.

(** ** Effects *)

Lemma bind_run {A B : Type} (m : M A) (f : A → M B) (w : World) :
  (m ≫= f) w
  = match m w with
    | (Ok a, w') => f a w'
    | (Raise e, w') => (Raise e, w')
    end.
Proof. done. Qed.

Lemma bind_Ok {A B : Type} (m : M A) (f : A → M B) (w w2 : World) (b : B) :
  (m ≫= f) w = (Ok b, w2) ↔ ∃ a w1, m w = (Ok a, w1) ∧ f a w1 = (Ok b, w2).
Proof.
  rewrite bind_run. destruct (m w) as [[a|e] w1]; split.
  - intros Hf. by exists a, w1.
  - by intros (? & ? & [= <- <-] & Hf).
  - done.
  - by intros (? & ? & [=] & _).
Qed.

Lemma bind_Raise {A B : Type} (m : M A) (f : A → M B) (w w' : World) (e : Exn) :
  (m ≫= f) w = (Raise e, w')
  ↔ m w = (Raise e, w') ∨ ∃ a w1, m w = (Ok a, w1) ∧ f a w1 = (Raise e, w').
Proof.
  rewrite bind_run. destruct (m w) as [[a|e0] w1]; split.
  - intros Hf. right. by exists a, w1.
  - by intros [[=]|(? & ? & [= <- <-] & Hf)].
  - intros [= -> ->]. by left.
  - by intros [[= -> ->]|(? & ? & [=] & _)].
Qed.

Lemma makedirs_Ok (name : string) (w w' : World) (u : ()) :
  FS.makedirs name w = (Ok u, w') →
  files w' = files w
  ∧ dirs w' = dirs w ∪ list_to_set (FS.ancestors name) ∪ {[ name ]}
  ∧ clock w' = clock w
  ∧ events w' = events w ++ [EvMakedirs name].
Proof. unfold FS.makedirs. repeat case_match; by intros [= <- <-]. Qed.

Lemma makedirs_Raise (name : string) (w w' : World) (e : Exn) :
  FS.makedirs name w = (Raise e, w') → w' = w.
Proof. unfold FS.makedirs. repeat case_match; by intros [= <- <-]. Qed.

Lemma open_w_Ok (path : string) (w w' : World) (u : ()) :
  FS.open_w path w = (Ok u, w') →
  files w' = <[path := ""]> (files w)
  ∧ dirs w' = dirs w
  ∧ clock w' = clock w
  ∧ events w' = events w ++ [EvOpen path].
Proof. unfold FS.open_w. repeat case_match; by intros [= <- <-]. Qed.

Lemma open_w_Raise (path : string) (w w' : World) (e : Exn) :
  FS.open_w path w = (Raise e, w') → w' = w.
Proof. unfold FS.open_w. repeat case_match; by intros [= <- <-]. Qed.

(** Opening a file and writing [data] to it leaves [data] in it. *)
Lemma open_write_Ok {A : Type} (path data : string) (k : M A) (w w' : World) (a : A) :
  (FS.open_w path;; FS.write path data;; k) w = (Ok a, w') →
  ∃ w1, files w1 = <[path := data]> (files w)
    ∧ dirs w1 = dirs w
    ∧ clock w1 = clock w
    ∧ events w1 = events w ++ [EvOpen path; EvWrite path data]
    ∧ k w1 = (Ok a, w').
Proof.
  intros (? & w1 & (Hf & Hd & Hc & He)%open_w_Ok & Hw)%bind_Ok.
  apply bind_Ok in Hw as (? & w2 & Hw & Hk).
  unfold FS.write in Hw. injection Hw as _ <-.
  refine (ex_intro _ _ (conj _ (conj _ (conj _ (conj _ Hk))))); simpl.
  - by rewrite Hf, lookup_insert_eq, insert_insert_eq.
  - done.
  - done.
  - by rewrite He, <- app_assoc.
Qed.

(** ** The events a computation adds *)

Section AddsOnly.
Context {P : Event → Prop}.

Lemma adds_only_pure {A : Type} (f : World → Result A) : adds_only P (λ w, (f w, w)).
Proof. intros w r w' [= <- <-]. exists []. by rewrite app_nil_r. Qed.

Lemma adds_only_ret {A : Type} (a : A) : adds_only P (mret a).
Proof. apply (adds_only_pure (λ _, Ok a)). Qed.

Lemma adds_only_raise {A : Type} (e : Exn) : adds_only P (raise e : M A).
Proof. apply (adds_only_pure (λ _, Raise e)). Qed.

Lemma adds_only_lift {A : Type} (r : Result A) : adds_only P (lift r).
Proof. apply (adds_only_pure (λ _, r)). Qed.

Lemma adds_only_bind {A B : Type} (m : M A) (f : A → M B) :
  adds_only P m → (∀ a, adds_only P (f a)) → adds_only P (m ≫= f).
Proof.
  intros Hm Hf w r w' Hrun. rewrite bind_run in Hrun.
  destruct (m w) as [[a|e] w1] eqn:E; apply Hm in E as (evs1 & He1 & HP1).
  - apply Hf in Hrun as (evs2 & He2 & HP2). exists (evs1 ++ evs2).
    split; [by rewrite He2, He1, <- app_assoc|by apply Forall_app].
  - injection Hrun as <- <-. by exists evs1.
Qed.

Lemma adds_only_try_except {A : Type} (body : M A) (handler : Exn → M A) :
  adds_only P body → (∀ e, adds_only P (handler e)) → adds_only P (try_except body handler).
Proof.
  intros Hm Hf w r w' Hrun. unfold try_except in Hrun.
  destruct (body w) as [[a|e] w1] eqn:E; apply Hm in E as (evs1 & He1 & HP1).
  - injection Hrun as <- <-. by exists evs1.
  - apply Hf in Hrun as (evs2 & He2 & HP2). exists (evs1 ++ evs2).
    split; [by rewrite He2, He1, <- app_assoc|by apply Forall_app].
Qed.

Lemma adds_only_for_each {A S : Type} (xs : list A) (body : S → A → M S) (s : S) :
  (∀ s x, adds_only P (body s x)) → adds_only P (for_each xs body s).
Proof.
  intros Hbody. revert s. induction xs as [|x xs IH]; intros s.
  - apply adds_only_ret.
  - apply adds_only_bind; [apply Hbody|apply IH].
Qed.

Lemma adds_only_list_item {A : Type} (xs : list A) (i : nat) : adds_only P (list_item xs i).
Proof. unfold list_item. destruct (xs !! i); [apply adds_only_ret|apply adds_only_raise]. Qed.

Lemma adds_only_log (e : Event) : P e → adds_only P (log_event e).
Proof.
  intros He w r w' [= <- <-]. exists [e]. split; [done|by constructor].
Qed.

Lemma adds_only_makedirs (name : string) :
  P (EvMakedirs name) → adds_only P (FS.makedirs name).
Proof.
  intros He w [[]|e] w' Hrun.
  - apply makedirs_Ok in Hrun as (_ & _ & _ & Hev). exists [EvMakedirs name].
    split; [done|by constructor].
  - apply makedirs_Raise in Hrun as ->. exists []. by rewrite app_nil_r.
Qed.

Lemma adds_only_open_w (path : string) :
  P (EvOpen path) → adds_only P (FS.open_w path).
Proof.
  intros He w [[]|e] w' Hrun.
  - apply open_w_Ok in Hrun as (_ & _ & _ & Hev). exists [EvOpen path].
    split; [done|by constructor].
  - apply open_w_Raise in Hrun as ->. exists []. by rewrite app_nil_r.
Qed.

Lemma adds_only_write (path data : string) :
  P (EvWrite path data) → adds_only P (FS.write path data).
Proof.
  intros He w r w' [= <- <-]. exists [EvWrite path data].
  split; [done|by constructor].
Qed.

Lemma adds_only_read_bytes (path : string) : adds_only P (FS.read_bytes path).
Proof.
  intros w r w' Hrun. unfold FS.read_bytes in Hrun.
  exists []. rewrite app_nil_r. by repeat case_match; injection Hrun as <- <-.
Qed.

End AddsOnly.

Ltac adds_only_step :=
  first
    [ apply adds_only_ret | apply adds_only_raise | apply adds_only_lift
    | apply adds_only_list_item | apply adds_only_read_bytes
    | apply adds_only_makedirs | apply adds_only_open_w | apply adds_only_write
    | apply adds_only_log
    | apply adds_only_for_each; intros
    | apply adds_only_bind; [|intros]
    | apply adds_only_try_except; [|intros]
    | apply adds_only_pure ].

(** ** What the steps of the pipeline do *)

Lemma remote_calls_app (evs1 evs2 : list Event) :
  remote_calls (evs1 ++ evs2) = remote_calls evs1 ++ remote_calls evs2.
Proof. apply filter_app. Qed.

Lemma remote_calls_local (evs : list Event) :
  Forall (λ e, is_remote e = false) evs → remote_calls evs = [].
Proof.
  induction 1 as [|e evs He _ IH]; [done|].
  unfold remote_calls in *. rewrite filter_cons, IH. by rewrite He.
Qed.

(** A computation that adds no remote call leaves the remote calls of the
    log as they are. *)
Lemma adds_only_local_calls {A : Type} (m : M A) (w w' : World) (r : Result A) :
  adds_only (λ e, is_remote e = false) m → m w = (r, w') →
  remote_calls (events w') = remote_calls (events w).
Proof.
  intros Hm (evs & -> & Hevs)%Hm.
  by rewrite remote_calls_app, (remote_calls_local evs), app_nil_r.
Qed.

Lemma remote_call_run {A : Type} (request : Event) (answer : list Event → Result A)
    (w : World) :
  remote_call request answer w = (answer (events w ++ [request]), logged w [request]).
Proof. done. Qed.

Lemma logged_logged (w : World) (evs1 evs2 : list Event) :
  logged (logged w evs1) evs2 = logged w (evs1 ++ evs2).
Proof. unfold logged. simpl. by rewrite <- app_assoc. Qed.

Lemma create_output_directory_local (path : string) :
  adds_only (λ e, is_remote e = false) (create_output_directory path).
Proof. unfold create_output_directory, FS.now. by repeat adds_only_step. Qed.

Lemma copy2_local (src dst : string) :
  adds_only (λ e, is_remote e = false) (FS.copy2 src dst).
Proof.
  unfold FS.copy2, FS.path_isdir, FS.path_exists.
  repeat adds_only_step. case_match; by repeat adds_only_step.
Qed.

Lemma prepare_run_local (path : string) :
  adds_only (λ e, is_remote e = false) (prepare_run path).
Proof.
  unfold prepare_run. adds_only_step; [apply create_output_directory_local|].
  adds_only_step; [apply copy2_local|]. adds_only_step.
Qed.

(** What a call of [create_output_directory] that returns has done. *)
Lemma create_output_directory_Ok (path dir : string) (w w' : World) :
  create_output_directory path w = (Ok dir, w') →
  dir = run_directory (clock w) path
  ∧ files w' = files w
  ∧ dirs w' = dirs w ∪ list_to_set (FS.ancestors "outputs") ∪ {[ "outputs" ]}
              ∪ list_to_set (FS.ancestors dir) ∪ {[ dir ]}
  ∧ clock w' = clock w
  ∧ events w' = events w ++ [EvMakedirs "outputs"; EvMakedirs dir].
Proof.
  unfold create_output_directory.
  intros (? & w1 & (Hf1 & Hd1 & Hc1 & He1)%makedirs_Ok & Hrun)%bind_Ok.
  apply bind_Ok in Hrun as (now & w2 & [= <- <-] & Hrun).
  apply bind_Ok in Hrun as (? & w3 & (Hf3 & Hd3 & Hc3 & He3)%makedirs_Ok & [= <- <-]).
  unfold run_directory. rewrite Hc1 in *.
  repeat split; [congruence| |congruence|].
  - by rewrite Hd3, Hd1.
  - by rewrite He3, He1, <- app_assoc.
Qed.

(** Copying a path that names nothing fails on reading it: with
    [FileNotFoundError], unless a part of the path is a regular file. *)
Lemma copy2_missing (src dst : string) (w : World) :
  FS.exists_ w src = false →
  FS.copy2 src dst w
  = (Raise (if existsb (FS.isfile w) (FS.ancestors src) then ENOTDIR src else ENOENT src), w).
Proof.
  intros Hsrc. unfold FS.copy2, FS.path_isdir, FS.path_exists.
  rewrite bind_run. simpl. rewrite bind_run. simpl. rewrite Hsrc, andb_false_r.
  rewrite bind_run. unfold FS.read_bytes.
  apply orb_false_elim in Hsrc as [Hfile Hdir]. unfold FS.isfile in Hfile.
  apply bool_decide_eq_false in Hfile.
  destruct (files w !! src) as [content|]; [by destruct Hfile|]. rewrite Hdir.
  by destruct (existsb _ _).
Qed.

(** What a copy that returns has done: the source is a regular file, left
    as it was, and the destination holds its content. *)
Lemma copy2_Ok (src dst : string) (w w' : World) (u : ()) :
  FS.copy2 src dst w = (Ok u, w') →
  ∃ target content,
    files w !! src = Some content
    ∧ target ≠ src
    ∧ (target = dst ∨ target = PosixPath.join dst (FS.basename src))
    ∧ files w' = <[target := content]> (files w)
    ∧ dirs w' = dirs w
    ∧ clock w' = clock w
    ∧ events w' = events w ++ [EvOpen target; EvWrite target content].
Proof.
  unfold FS.copy2, FS.path_isdir, FS.path_exists.
  rewrite bind_run. simpl. rewrite bind_run. simpl.
  set (target := if FS.isdir w dst then PosixPath.join dst (FS.basename src) else dst).
  destruct (bool_decide (src = target) && FS.exists_ w src) eqn:Hsame; [done|].
  intros (content & w1 & Hread & Hrun)%bind_Ok.
  unfold FS.read_bytes in Hread.
  destruct (files w !! src) as [c|] eqn:Hsrc; [|by repeat case_match].
  injection Hread as -> <-.
  assert (Hrun' : (FS.open_w target;; FS.write target content;; mret ()) w = (Ok u, w')).
  { rewrite bind_run in *. destruct (FS.open_w target w) as [[[]|e] w2]; [|done].
    rewrite bind_run. by destruct u. }
  apply open_write_Ok in Hrun' as (w2 & Hf & Hd & Hc & He & Hw).
  assert (w2 = w') as -> by (by injection Hw).
  exists target, content. repeat split; try done.
  - intros ->. apply andb_false_iff in Hsame as [Hne|Hex].
    + by apply bool_decide_eq_false in Hne.
    + unfold FS.exists_, FS.isfile in Hex. apply orb_false_elim in Hex as [Hex _].
      apply bool_decide_eq_false in Hex. apply Hex. by rewrite Hsrc.
  - unfold target. case_match; eauto.
Qed.

Section Assembly.
Context `{Externals}.
Variable output_dir : string.

(** The bodies of the two loops of [save_ocr_results]. *)
Local Abbreviation save_image := (λ (page_images : dict) (img : OCR.ImageObject),
  field ← list_item (PyStr.split (OCR.image_base64 img) ",") 1;
  img_data ← lift (b64decode field);
  let img_path := PosixPath.join (PosixPath.join output_dir "images") (OCR.id img +:+ ".png") in
  FS.open_w img_path;;
  FS.write img_path img_data;;
  mret (dict_set page_images (OCR.id img) ("images/" +:+ OCR.id img +:+ ".png"))).

Local Abbreviation save_page := (λ (all_markdowns : list string) (page : OCR.PageObject),
  page_images ← for_each (OCR.images page) save_image [];
  let page_markdown := replace_images_in_markdown (OCR.markdown page) page_images in
  mret (all_markdowns ++ [page_markdown])).

Lemma save_image_Ok (d d' : dict) (img : OCR.ImageObject) (w w' : World) :
  save_image d img w = (Ok d', w') →
  ∃ data, decodes_to img data
    ∧ d' = dict_set d (OCR.id img) ("images/" +:+ OCR.id img +:+ ".png")
    ∧ files w' = <[image_path output_dir img := data]> (files w)
    ∧ dirs w' = dirs w
    ∧ clock w' = clock w
    ∧ events w' = events w ++ image_events output_dir [img] [data].
Proof.
  intros (field & w1 & Hfield & Hrest)%bind_Ok.
  apply bind_Ok in Hrest as (data & w2 & Hdata & Hrest).
  unfold list_item in Hfield.
  destruct (PyStr.split (OCR.image_base64 img) "," !! 1%nat) as [f|] eqn:Hf;
    [|done]. injection Hfield as -> ->.
  unfold lift in Hdata. injection Hdata as Hdata ->.
  apply open_write_Ok in Hrest as (w3 & Hf3 & Hd3 & Hc3 & He3 & [= <- <-]).
  exists data. repeat split; try done. by exists field.
Qed.

(** The inner loop: every image of the page is decoded and saved, in
    order, and entered in the page's dictionary. *)
Lemma save_images_Ok (imgs : list OCR.ImageObject) (d d' : dict) (w w' : World) :
  for_each imgs save_image d w = (Ok d', w') →
  ∃ datas, Forall2 decodes_to imgs datas
    ∧ d' = fold_left
             (λ d img, dict_set d (OCR.id img) ("images/" +:+ OCR.id img +:+ ".png"))
             imgs d
    ∧ files w' = image_files output_dir imgs datas (files w)
    ∧ dirs w' = dirs w
    ∧ clock w' = clock w
    ∧ events w' = events w ++ image_events output_dir imgs datas.
Proof.
  revert d w. induction imgs as [|img imgs IH]; intros d w Hrun.
  - injection Hrun as <- <-. exists []. by rewrite app_nil_r.
  - cbn [for_each] in Hrun. apply bind_Ok in Hrun as (d1 & w1 & Himg & Hrun).
    apply save_image_Ok in Himg as (data & Hdata & -> & Hf1 & Hd1 & Hc1 & He1).
    apply IH in Hrun as (datas & Hdatas & -> & Hf & Hd & Hc & He).
    exists (data :: datas). repeat split.
    + by constructor.
    + unfold image_files in *. simpl. by rewrite Hf, Hf1.
    + congruence.
    + congruence.
    + rewrite He, He1, <- app_assoc. done.
Qed.

Lemma image_events_app (imgs1 imgs2 : list OCR.ImageObject) (datas1 datas2 : list string) :
  length imgs1 = length datas1 →
  image_events output_dir (imgs1 ++ imgs2) (datas1 ++ datas2)
  = image_events output_dir imgs1 datas1 ++ image_events output_dir imgs2 datas2.
Proof.
  intros Hlen. unfold image_events. by rewrite zip_with_app, concat_app.
Qed.

Lemma image_files_app (imgs1 imgs2 : list OCR.ImageObject) (datas1 datas2 : list string)
    (fs : gmap string string) :
  length imgs1 = length datas1 →
  image_files output_dir (imgs1 ++ imgs2) (datas1 ++ datas2) fs
  = image_files output_dir imgs2 datas2 (image_files output_dir imgs1 datas1 fs).
Proof.
  intros Hlen. unfold image_files. by rewrite zip_with_app, fold_left_app.
Qed.

(** The outer loop: the pages are taken in order, and each one's text is
    rewritten with the dictionary of its own images. *)
Lemma save_pages_Ok (pages : list OCR.PageObject) (acc acc' : list string) (w w' : World) :
  for_each pages save_page acc w = (Ok acc', w') →
  ∃ datas, Forall2 decodes_to (flat_map OCR.images pages) datas
    ∧ acc' = acc ++ map rewritten pages
    ∧ files w' = image_files output_dir (flat_map OCR.images pages) datas (files w)
    ∧ dirs w' = dirs w
    ∧ clock w' = clock w
    ∧ events w' = events w ++ image_events output_dir (flat_map OCR.images pages) datas.
Proof.
  revert acc w. induction pages as [|page pages IH]; intros acc w Hrun.
  - injection Hrun as <- <-. exists []. by rewrite !app_nil_r.
  - cbn [for_each] in Hrun. apply bind_Ok in Hrun as (acc1 & w1 & Hpage & Hrun).
    apply bind_Ok in Hpage as (d & w0 & Himgs & [= <- <-]).
    apply save_images_Ok in Himgs as (datas1 & Hdatas1 & -> & Hf1 & Hd1 & Hc1 & He1).
    apply IH in Hrun as (datas & Hdatas & -> & Hf & Hd & Hc & He).
    pose proof (Forall2_length _ _ _ Hdatas1) as Hlen.
    exists (datas1 ++ datas). cbn [flat_map map]. repeat split.
    + by apply Forall2_app.
    + by rewrite <- app_assoc.
    + by rewrite image_files_app, Hf, Hf1.
    + congruence.
    + congruence.
    + by rewrite image_events_app, He, He1, <- app_assoc.
Qed.

(** An image that cannot be saved leaves the world as it is. *)
Lemma save_image_Raise (d : dict) (img : OCR.ImageObject) (w w' : World) (e : Exn) :
  save_image d img w = (Raise e, w') →
  w' = w ∧ image_failure output_dir img w e.
Proof.
  unfold image_failure, decodes_to, payload_field. intros Hrun.
  apply bind_Raise in Hrun as [Hfield|(field & w1 & Hfield & Hrun)].
  { unfold list_item in Hfield. destruct (_ !! 1%nat); [done|].
    injection Hfield as <- <-. split; [done|]. by left. }
  unfold list_item in Hfield.
  destruct (PyStr.split (OCR.image_base64 img) "," !! 1%nat) as [f|] eqn:Hf; [|done].
  injection Hfield as -> ->.
  apply bind_Raise in Hrun as [Hdata|(data & w2 & Hdata & Hrun)].
  { unfold lift in Hdata. injection Hdata as Hdata <-.
    split; [done|]. right; left. eauto. }
  unfold lift in Hdata. injection Hdata as Hdata ->.
  apply bind_Raise in Hrun as [Hopen|(? & w3 & _ & Hrun)].
  - pose proof (open_w_Raise _ _ _ _ Hopen) as ->.
    split; [done|]. right; right. exists data. split; [by exists field|done].
  - by apply bind_Raise in Hrun as [Hw|(? & ? & _ & [=])].
Qed.

(** When the inner loop fails, the images before the one that failed are
    saved, and nothing is done for that one. *)
Lemma save_images_Raise (imgs : list OCR.ImageObject) (d : dict) (w w' : World) (e : Exn) :
  for_each imgs save_image d w = (Raise e, w') →
  ∃ saved img rest datas,
    imgs = saved ++ img :: rest
    ∧ Forall2 decodes_to saved datas
    ∧ image_failure output_dir img w' e
    ∧ files w' = image_files output_dir saved datas (files w)
    ∧ dirs w' = dirs w
    ∧ clock w' = clock w
    ∧ events w' = events w ++ image_events output_dir saved datas.
Proof.
  revert d w. induction imgs as [|img imgs IH]; intros d w Hrun; [done|].
  cbn [for_each] in Hrun. apply bind_Raise in Hrun as [Hfail|(d1 & w1 & Himg & Hrun)].
  - apply save_image_Raise in Hfail as [-> Hfail].
    exists [], img, imgs, []. rewrite app_nil_r. by repeat split.
  - apply save_image_Ok in Himg as (data & Hdata & -> & Hf1 & Hd1 & Hc1 & He1).
    apply IH in Hrun as (saved & img' & rest & datas & -> & Hdatas & Hfail & Hf & Hd & Hc & He).
    exists (img :: saved), img', rest, (data :: datas). repeat split.
    + by constructor.
    + done.
    + unfold image_files in *. simpl. by rewrite Hf, Hf1.
    + congruence.
    + congruence.
    + rewrite He, He1, <- app_assoc. done.
Qed.

Lemma save_pages_Raise (pages : list OCR.PageObject) (acc : list string) (w w' : World)
    (e : Exn) :
  for_each pages save_page acc w = (Raise e, w') →
  ∃ saved img rest datas,
    flat_map OCR.images pages = saved ++ img :: rest
    ∧ Forall2 decodes_to saved datas
    ∧ image_failure output_dir img w' e
    ∧ files w' = image_files output_dir saved datas (files w)
    ∧ dirs w' = dirs w
    ∧ clock w' = clock w
    ∧ events w' = events w ++ image_events output_dir saved datas.
Proof.
  revert acc w. induction pages as [|page pages IH]; intros acc w Hrun; [done|].
  cbn [for_each] in Hrun. apply bind_Raise in Hrun as [Hfail|(acc1 & w1 & Hpage & Hrun)].
  - apply bind_Raise in Hfail as [Hfail|(? & ? & _ & [=])].
    apply save_images_Raise in Hfail
      as (saved & img & rest & datas & Himgs & Hdatas & Hfail & Hf & Hd & Hc & He).
    exists saved, img, (rest ++ flat_map OCR.images pages), datas.
    cbn [flat_map]. rewrite Himgs, <- app_assoc. by repeat split.
  - apply bind_Ok in Hpage as (d & w0 & Himgs & [= <- <-]).
    apply save_images_Ok in Himgs as (datas1 & Hdatas1 & _ & Hf1 & Hd1 & Hc1 & He1).
    apply IH in Hrun as (saved & img & rest & datas & Himgs & Hdatas & Hfail & Hf & Hd & Hc & He).
    pose proof (Forall2_length _ _ _ Hdatas1) as Hlen.
    exists (OCR.images page ++ saved), img, rest, (datas1 ++ datas).
    cbn [flat_map]. rewrite Himgs, <- app_assoc. repeat split.
    + by apply Forall2_app.
    + done.
    + by rewrite image_files_app, Hf, Hf1.
    + congruence.
    + congruence.
    + by rewrite image_events_app, He, He1, <- app_assoc.
Qed.

(** What a run of [save_ocr_results] that returns has done. *)
Lemma save_ocr_results_Ok (resp : OCR.Response) (w w' : World) (r : string * string) :
  save_ocr_results resp output_dir w = (Ok r, w') →
  let text := PyStr.join (PyStr.LF +:+ PyStr.LF) (map rewritten (OCR.pages resp)) in
  ∃ datas, Forall2 decodes_to (all_images resp) datas
    ∧ r = (text, output_dir)
    ∧ files w' = <[complete_md output_dir := text]>
                   (image_files output_dir (all_images resp) datas (files w))
    ∧ dirs w' = dirs w ∪ list_to_set (FS.ancestors (images_dir output_dir))
                       ∪ {[ images_dir output_dir ]}
    ∧ clock w' = clock w
    ∧ events w' = events w ++ [EvMakedirs (images_dir output_dir)]
                    ++ image_events output_dir (all_images resp) datas
                    ++ [EvOpen (complete_md output_dir);
                        EvWrite (complete_md output_dir) text].
Proof.
  intros Hrun text. unfold save_ocr_results in Hrun.
  apply bind_Ok in Hrun as (? & w1 & (Hf1 & Hd1 & Hc1 & He1)%makedirs_Ok & Hrun).
  apply bind_Ok in Hrun as (mds & w2 & Hpages & Hrun).
  apply save_pages_Ok in Hpages as (datas & Hdatas & -> & Hf2 & Hd2 & Hc2 & He2).
  apply open_write_Ok in Hrun as (w3 & Hf3 & Hd3 & Hc3 & He3 & [= <- <-]).
  exists datas. rewrite app_nil_l in *. repeat split; try done.
  - by rewrite Hf3, Hf2, Hf1.
  - by rewrite Hd3, Hd2, Hd1.
  - congruence.
  - rewrite He3, He2, He1, <- !app_assoc. done.
Qed.

(** What a run of [save_ocr_results] that raises has done: saved the
    images before the failure, and no other. *)
Lemma save_ocr_results_Raise (resp : OCR.Response) (w w' : World) (e : Exn) :
  save_ocr_results resp output_dir w = (Raise e, w') →
  ∃ saved datas,
    saved `prefix_of` all_images resp
    ∧ Forall2 decodes_to saved datas
    ∧ files w' = image_files output_dir saved datas (files w)
    ∧ ((saved = [] ∧ w' = w ∧ FS.makedirs (images_dir output_dir) w = (Raise e, w))
       ∨ (events w' = events w ++ [EvMakedirs (images_dir output_dir)]
                        ++ image_events output_dir saved datas
          ∧ ((∃ img rest, all_images resp = saved ++ img :: rest
                          ∧ image_failure output_dir img w' e)
             ∨ (saved = all_images resp
                ∧ FS.open_w (complete_md output_dir) w' = (Raise e, w'))))).
Proof.
  intros Hrun. unfold save_ocr_results in Hrun.
  fold (images_dir output_dir) (complete_md output_dir) in Hrun.
  apply bind_Raise in Hrun as [Hmk|(? & w1 & Hmk & Hrun)].
  { pose proof (makedirs_Raise _ _ _ _ Hmk) as ->.
    exists [], []. split; [apply prefix_nil|]. split; [constructor|].
    split; [done|]. left. done. }
  apply makedirs_Ok in Hmk as (Hf1 & Hd1 & Hc1 & He1).
  apply bind_Raise in Hrun as [Hpages|(mds & w2 & Hpages & Hrun)].
  - apply save_pages_Raise in Hpages
      as (saved & img & rest & datas & Himgs & Hdatas & Hfail & Hf & _ & _ & He).
    exists saved, datas. split; [by eexists; exact Himgs|]. split; [done|].
    rewrite Hf, Hf1. split; [done|]. right.
    split; [by rewrite He, He1, <- app_assoc|]. left. eauto.
  - apply save_pages_Ok in Hpages as (datas & Hdatas & _ & Hf2 & _ & _ & He2).
    exists (all_images resp), datas. split; [done|]. split; [done|].
    apply bind_Raise in Hrun as [Hopen|(? & w3 & _ & Hrun)].
    + pose proof (open_w_Raise _ _ _ _ Hopen) as ->.
      rewrite Hf2, Hf1. split; [done|]. right.
      split; [by rewrite He2, He1, <- app_assoc|]. by right.
    + by apply bind_Raise in Hrun as [Hw|(? & ? & _ & [=])].
Qed.

Lemma image_files_lookup_other (imgs : list OCR.ImageObject) (datas : list string)
    (fs : gmap string string) (path : string) :
  path ∉ map (image_path output_dir) imgs →
  image_files output_dir imgs datas fs !! path = fs !! path.
Proof.
  revert datas fs. induction imgs as [|img imgs IH]; intros datas fs Hnotin; [done|].
  destruct datas as [|data datas]; [done|].
  apply not_elem_of_cons in Hnotin as [Hne Hnotin].
  unfold image_files in *. simpl. rewrite IH by done.
  by rewrite lookup_insert_ne.
Qed.

(** When no two images share a path, each file holds its image's data. *)
Lemma image_files_lookup (imgs : list OCR.ImageObject) (datas : list string)
    (fs : gmap string string) (k : nat) (img : OCR.ImageObject) (data : string) :
  NoDup (map (image_path output_dir) imgs) →
  imgs !! k = Some img → datas !! k = Some data →
  image_files output_dir imgs datas fs !! image_path output_dir img = Some data.
Proof.
  revert datas fs k. induction imgs as [|img0 imgs IH]; intros datas fs k Hnd Hi Hd;
    [done|].
  destruct datas as [|data0 datas]; [done|].
  apply NoDup_cons in Hnd as [Hnotin Hnd].
  destruct k as [|k].
  - injection Hi as ->. injection Hd as ->.
    unfold image_files. simpl.
    fold (image_files output_dir imgs datas (<[image_path output_dir img := data]> fs)).
    by rewrite image_files_lookup_other, lookup_insert_eq.
  - unfold image_files. simpl. by eapply IH.
Qed.

Lemma image_files_dom (imgs : list OCR.ImageObject) (datas : list string)
    (fs : gmap string string) :
  length imgs = length datas →
  dom (image_files output_dir imgs datas fs)
  = dom fs ∪ list_to_set (map (image_path output_dir) imgs).
Proof.
  revert datas fs. induction imgs as [|img imgs IH]; intros [|data datas] fs Hlen;
    try done.
  - simpl. by rewrite (right_id_L ∅ (∪)).
  - unfold image_files in *. simpl. rewrite IH by (simpl in Hlen; lia).
    rewrite dom_insert_L, (comm_L (∪) {[ _ ]} (dom fs)), <- (assoc_L (∪)). done.
Qed.

Lemma rewritten_no_images (page : OCR.PageObject) :
  OCR.images page = [] → rewritten page = OCR.markdown page.
Proof. unfold rewritten, page_images. by intros ->. Qed.

Lemma map_rewritten_no_images (pages : list OCR.PageObject) :
  Forall (λ page, OCR.images page = []) pages →
  map rewritten pages = map OCR.markdown pages.
Proof.
  induction 1 as [|page pages Hpage _ IH]; [done|].
  simpl. by rewrite rewritten_no_images, IH.
Qed.

(** Over pages without images the outer loop only collects the texts. *)
Lemma save_pages_no_images (pages : list OCR.PageObject) (acc : list string) (w : World) :
  Forall (λ page, OCR.images page = []) pages →
  for_each pages save_page acc w = (Ok (acc ++ map OCR.markdown pages), w).
Proof.
  intros Hpages. revert acc.
  induction Hpages as [|page pages Hpage _ IH]; intros acc.
  - simpl. by rewrite app_nil_r.
  - cbn [for_each]. rewrite bind_run, Hpage. simpl.
    rewrite IH, <- app_assoc. done.
Qed.

End Assembly.

(** ** The Result Assembler *)

Lemma image_ref_nonempty (img_name img_path : string) : image_ref img_name img_path ≠ "".
Proof. done. Qed.

(** A page whose images all carry the identifier [i] has the one-entry
    dictionary of [i]. *)
Lemma page_images_single (page : OCR.PageObject) (i : string) :
  (∀ img, img ∈ OCR.images page → OCR.id img = i) →
  OCR.images page ≠ [] →
  page_images page = [(i, "images/" +:+ i +:+ ".png")].
Proof.
  unfold page_images. intros Hall Hne.
  assert (∀ imgs, (∀ img, img ∈ imgs → OCR.id img = i) →
    fold_left (λ d img, dict_set d (OCR.id img) ("images/" +:+ OCR.id img +:+ ".png"))
      imgs [(i, "images/" +:+ i +:+ ".png")] = [(i, "images/" +:+ i +:+ ".png")]) as Hfix.
  { induction imgs as [|img imgs IH]; intros Hi; [done|].
    simpl. rewrite (Hi img) by left. rewrite decide_True by done.
    apply IH. intros img' ?. apply Hi. by right. }
  destruct (OCR.images page) as [|img imgs]; [done|].
  simpl. rewrite (Hall img) by left. apply Hfix.
  intros img' ?. apply Hall. by right.
Qed.

(** Assigning to a key of a dictionary. *)
Lemma dict_set_keys_NoDup (d : dict) (key value : string) :
  NoDup d.*1 → NoDup (dict_set d key value).*1.
Proof.
  assert (∀ d k, k ∈ (dict_set d key value).*1 → k = key ∨ k ∈ d.*1) as Hkeys.
  { clear d. induction d as [|[k0 v0] d IH]; intros k; simpl.
    - rewrite list_elem_of_singleton. by left.
    - destruct (decide (k0 = key)); simpl; rewrite !elem_of_cons.
      + tauto.
      + intros [->|Hk]; [tauto|]. destruct (IH _ Hk); tauto. }
  induction d as [|[k0 v0] d IH]; simpl.
  - intros _. apply NoDup_singleton.
  - rewrite NoDup_cons. intros [Hk0 Hd].
    destruct (decide (k0 = key)); simpl; rewrite NoDup_cons; [done|].
    split; [|by apply IH].
    intros Hin. destruct (Hkeys _ _ Hin); [congruence|done].
Qed.

Lemma dict_set_elem_of (d : dict) (key value k v : string) :
  NoDup d.*1 →
  (k, v) ∈ dict_set d key value
  ↔ (k = key ∧ v = value) ∨ (k ≠ key ∧ (k, v) ∈ d).
Proof.
  induction d as [|[k0 v0] d IH]; simpl.
  - intros _. rewrite list_elem_of_singleton, elem_of_nil.
    split; [intros [= -> ->]; by left|]. by intros [[-> ->]|[_ []]].
  - rewrite NoDup_cons. intros [Hk0 Hd].
    destruct (decide (k0 = key)) as [->|Hne]; rewrite !elem_of_cons.
    + split.
      * intros [[= -> ->]|Hin]; [by left|]. right. split; [|by right].
        intros ->. apply Hk0. apply list_elem_of_fmap. by exists (key, v).
      * intros [[-> ->]|[Hk [[= ]|Hin]]]; [by left|done|by right].
    + rewrite IH by done. split.
      * intros [[= -> ->]|[[-> ->]|[Hk Hin]]].
        -- right. split; [done|by left].
        -- by left.
        -- right. split; [done|by right].
      * intros [[-> ->]|[Hk [[= -> ->]|Hin]]].
        -- right. by left.
        -- by left.
        -- right. right. by split.
Qed.

(** The dictionary of a page holds its own image identifiers, each once,
    and maps each to its relative path. *)
Lemma page_images_spec (page : OCR.PageObject) :
  NoDup (page_images page).*1
  ∧ ∀ k v, (k, v) ∈ page_images page
           ↔ (∃ img, img ∈ OCR.images page ∧ OCR.id img = k)
             ∧ v = "images/" +:+ k +:+ ".png".
Proof.
  unfold page_images.
  assert (∀ imgs (d : dict),
    NoDup d.*1 →
    let d' := fold_left
      (λ d img, dict_set d (OCR.id img) ("images/" +:+ OCR.id img +:+ ".png")) imgs d in
    NoDup d'.*1
    ∧ ∀ k v, (k, v) ∈ d'
        ↔ ((∃ img, img ∈ imgs ∧ OCR.id img = k) ∧ v = "images/" +:+ k +:+ ".png")
          ∨ ((∀ img, img ∈ imgs → OCR.id img ≠ k) ∧ (k, v) ∈ d)) as Hfold.
  { induction imgs as [|img imgs IH]; intros d Hd; cbn [fold_left].
    - split; [done|]. intros k v. split.
      + intros Hin. right. split; [|done]. intros img Himg.
        by apply elem_of_nil in Himg.
      + intros [[(img & Himg & _) _]|[_ Hin]]; [by apply elem_of_nil in Himg|done].
    - destruct (IH (dict_set d (OCR.id img) ("images/" +:+ OCR.id img +:+ ".png")))
        as [Hnd Hin]; [by apply dict_set_keys_NoDup|].
      split; [done|]. intros k v. rewrite Hin, dict_set_elem_of by done. split.
      + intros [[(img' & Himg' & Hk) ->]|[Hnone [[-> ->]|[Hk Hd']]]].
        * left. split; [|done]. exists img'. split; [by right|done].
        * left. split; [|done]. exists img. split; [by left|done].
        * right. split; [|done]. intros img' [->|Himg']%elem_of_cons; [done|].
          by apply Hnone.
      + intros [[(img' & [->|Himg']%elem_of_cons & Hk) ->]|[Hnone Hd']].
        * destruct (decide (k ∈ OCR.id <$> imgs)) as [Hlater|Hnone].
          -- left. split; [|done].
             apply list_elem_of_fmap in Hlater as (img'' & -> & Himg''). eauto.
          -- right. split.
             ++ intros img'' Himg'' Hk'. apply Hnone.
                apply list_elem_of_fmap. eauto.
             ++ left. by rewrite Hk.
        * left. split; [|done]. by exists img'.
        * right. split.
          -- intros img' Himg'. apply Hnone. by right.
          -- right. split; [|done]. intros ->. apply (Hnone img); [by left|done]. }
  destruct (Hfold (OCR.images page) []) as [Hnd Hin]; [apply NoDup_nil_2|].
  split; [done|]. intros k v. rewrite Hin. split.
  - intros [?|[_ Hnil]]; [done|by apply elem_of_nil in Hnil].
  - by left.
Qed.

(** *** Rewriting several references *)

Section ReplaceBlock.
Variables old new : string.
Hypothesis old_nonempty : old ≠ "".

(** The scan copies a block in which no occurrence of [old] starts. *)
Lemma replace_block (block rest : string) :
  (∀ l r, block +:+ rest = l +:+ old +:+ r → (String.length block ≤ String.length l)%nat) →
  PyStr.replace (block +:+ rest) old new = block +:+ PyStr.replace rest old new.
Proof using old_nonempty.
  induction block as [|c block IH]; intros Hclear; [done|].
  rewrite !str_app_cons, replace_skip; [|done|].
  - f_equal. apply IH. intros l r Heq.
    specialize (Hclear (String c l) r). rewrite !str_app_cons, Heq in Hclear.
    specialize (Hclear eq_refl). simpl in Hclear. lia.
  - apply strip_prefix_None. intros x Heq.
    specialize (Hclear "" x). rewrite str_app_nil_l, str_app_cons in Hclear.
    specialize (Hclear Heq). simpl in Hclear. lia.
Qed.

End ReplaceBlock.

(** A text without [c] that begins a text is at an end before the first
    [c] of that text. *)
Lemma prefix_without_char (a y p r : string) (c : ascii) :
  PyStr.contains p c = false → a +:+ String c y = p +:+ r → ∃ a', a = p +:+ a'.
Proof.
  revert a. induction p as [|x p IH]; intros a Hp Heq; [by exists a|].
  cbn [PyStr.contains] in Hp. apply orb_false_elim in Hp as [Hx Hp].
  apply bool_decide_eq_false in Hx.
  destruct a as [|u a].
  - rewrite str_app_nil_l, str_app_cons in Heq. by injection Heq as -> _.
  - rewrite !str_app_cons in Heq. injection Heq as -> Heq.
    destruct (IH a Hp Heq) as [a' ->]. by exists a'.
Qed.

(** A character of a text lies at or after the end of a beginning
    without it. *)
Lemma char_after_block (block rest l z : string) (c : ascii) :
  PyStr.contains block c = false → block +:+ rest = l +:+ String c z →
  (String.length block ≤ String.length l)%nat.
Proof.
  revert l. induction block as [|x block IH]; intros l Hb Heq; [simpl; lia|].
  cbn [PyStr.contains] in Hb. apply orb_false_elim in Hb as [Hx Hb].
  apply bool_decide_eq_false in Hx.
  destruct l as [|u l].
  - rewrite str_app_nil_l, str_app_cons in Heq. by injection Heq as -> _.
  - rewrite !str_app_cons in Heq. injection Heq as -> Heq.
    specialize (IH l Hb Heq). simpl. lia.
Qed.

(** An occurrence of a text that holds [c] at its beginning only, started
    before a [c] of the text, ends before it. *)
Lemma occurrence_before_char (seg y l r tail : string) (c : ascii) :
  PyStr.contains tail c = false →
  seg +:+ String c y = l +:+ String c tail +:+ r →
  (String.length l < String.length seg)%nat →
  occurs (String c tail) seg.
Proof.
  intros Htail. revert l. induction seg as [|x seg IH]; intros l Heq Hlen;
    [simpl in Hlen; lia|].
  destruct l as [|u l].
  - rewrite str_app_nil_l, !str_app_cons in Heq. injection Heq as -> Heq.
    destruct (prefix_without_char _ _ _ _ _ Htail Heq) as [a' ->].
    exists "", a'. by rewrite str_app_nil_l, str_app_cons.
  - rewrite !str_app_cons in Heq. injection Heq as -> Heq.
    destruct (IH l Heq) as (l' & r' & ->); [simpl in Hlen; lia|].
    exists (String u l'), r'. by rewrite str_app_cons.
Qed.

Lemma image_ref_cons (i x : string) :
  image_ref i x = String "!" (String "[" (i +:+ "](" +:+ x +:+ ")")).
Proof. done. Qed.

Lemma image_ref_tail (i x : string) :
  PyStr.contains i "!" = false → PyStr.contains x "!" = false →
  PyStr.contains (String "[" (i +:+ "](" +:+ x +:+ ")")) "!" = false.
Proof.
  intros Hi Hx. cbn [PyStr.contains]. rewrite !contains_app, Hi, Hx. done.
Qed.

Lemma ref_after_tail (seen : list string) (i : string) :
  PyStr.contains i "!" = false →
  ∃ tail, ref_after seen i = String "!" tail ∧ PyStr.contains tail "!" = false.
Proof.
  intros Hi. unfold ref_after. eexists. split; [apply image_ref_cons|].
  apply image_ref_tail; [done|]. case_match; [|done].
  by rewrite !contains_app, Hi.
Qed.

Lemma weave_nil (ref : string → string) (last : string) : weave ref [] last = last.
Proof. done. Qed.

Lemma weave_cons (ref : string → string) (seg i : string)
    (pieces : list (string * string)) (last : string) :
  weave ref ((seg, i) :: pieces) last = seg +:+ ref i +:+ weave ref pieces last.
Proof. done. Qed.

Lemma weave_ext (f g : string → string) (pieces : list (string * string)) (last : string) :
  Forall (λ piece, f piece.2 = g piece.2) pieces →
  weave f pieces last = weave g pieces last.
Proof.
  induction 1 as [|[seg i] pieces Hi _ IH]; [done|].
  rewrite !weave_cons, IH. simpl in Hi. by rewrite Hi.
Qed.

(** The references to one identifier are rewritten, and nothing else is
    touched, in a text whose segments hold no such reference and whose
    identifiers hold neither [!] nor []]. *)
Lemma rewrite_key (k : string) (seen : list string)
    (pieces : list (string * string)) (last : string) :
  PyStr.contains k "!" = false → PyStr.contains k "]" = false →
  k ∉ seen →
  Forall (λ piece, PyStr.contains piece.2 "!" = false
                   ∧ PyStr.contains piece.2 "]" = false
                   ∧ ¬ occurs (image_ref k k) piece.1) pieces →
  ¬ occurs (image_ref k k) last →
  PyStr.replace (weave (ref_after seen) pieces last)
    (image_ref k k) (image_ref k ("images/" +:+ k +:+ ".png"))
  = weave (ref_after (k :: seen)) pieces last.
Proof.
  intros Hbang Hbracket Hk Hpieces Hlast.
  induction Hpieces as [|[seg i] pieces (Hib & Hik & Hseg) _ IH].
  { rewrite !weave_nil. by apply replace_absent. }
  simpl in Hib, Hik, Hseg. rewrite !weave_cons.
  destruct (ref_after_tail seen i Hib) as (tail & Href & Htail).
  rewrite replace_block; [|done|].
  2:{ intros l r Heq. destruct (decide (String.length seg ≤ String.length l)%nat); [done|].
      exfalso. apply Hseg. rewrite Href, str_app_cons, image_ref_cons in Heq.
      eapply (occurrence_before_char seg _ l r); [|exact Heq|lia].
      by apply image_ref_tail. }
  f_equal. destruct (decide (i = k)) as [->|Hne].
  - unfold ref_after at 1. rewrite bool_decide_eq_false_2 by done.
    rewrite replace_match by done. rewrite IH.
    unfold ref_after at 2. rewrite bool_decide_eq_true_2 by left. done.
  - rewrite replace_block; [|done|].
    + rewrite IH. f_equal. unfold ref_after.
      rewrite (bool_decide_ext (i ∈ k :: seen) (i ∈ seen)); [done|].
      rewrite elem_of_cons. tauto.
    + intros l r Heq. rewrite Href in Heq |- *. destruct l as [|u l].
      * exfalso. rewrite <- Href in Heq. unfold ref_after in Heq.
        rewrite !image_ref_cons, str_app_nil_l, !str_app_cons in Heq.
        injection Heq as Heq. rewrite !str_app_assoc in Heq.
        change ("](" +:+ ?x) with (String "]" ("(" +:+ x)) in Heq.
        rewrite !str_app_cons in Heq.
        apply Hne. exact (slash_free_prefix_inj _ _ _ _ _ Hik Hbracket Heq).
      * rewrite image_ref_cons, !str_app_cons in Heq. injection Heq as <- Heq.
        pose proof (char_after_block _ _ _ _ _ Htail Heq). simpl. lia.
Qed.

(** The dictionary of a page is gone through: every reference to an
    identifier of the dictionary is rewritten. *)
Lemma rewrite_keys (images_dict : dict) (seen : list string)
    (pieces : list (string * string)) (last : string) :
  NoDup (images_dict.*1) →
  (∀ k v, (k, v) ∈ images_dict →
     v = "images/" +:+ k +:+ ".png" ∧ (k ∉ seen)
     ∧ PyStr.contains k "!" = false ∧ PyStr.contains k "]" = false
     ∧ Forall (λ piece, ¬ occurs (image_ref k k) piece.1) pieces
     ∧ ¬ occurs (image_ref k k) last) →
  Forall (λ piece, PyStr.contains piece.2 "!" = false
                   ∧ PyStr.contains piece.2 "]" = false) pieces →
  replace_images_in_markdown (weave (ref_after seen) pieces last) images_dict
  = weave (ref_after (reverse (images_dict.*1) ++ seen)) pieces last.
Proof.
  intros Hnd Hdict Hpieces. revert seen Hdict.
  induction images_dict as [|[k v] images_dict IH]; intros seen Hdict; [done|].
  apply NoDup_cons in Hnd as [Hk Hnd].
  destruct (Hdict k v) as (-> & Hseen & Hbang & Hbracket & Hsegs & Hlast); [by left|].
  unfold replace_images_in_markdown in *. cbn [fold_left].
  rewrite rewrite_key; [|done..| |done].
  - rewrite IH; [|done|].
    + rewrite fmap_cons, reverse_cons, <- app_assoc. done.
    + intros k' v' Hin. destruct (Hdict k' v') as (? & ? & ? & ? & ? & ?); [by right|].
      repeat split; try done. intros [Heq|?]%elem_of_cons; [|done].
      apply Hk. apply list_elem_of_fmap. exists (k', v'). split; [by rewrite Heq|done].
  - apply Forall_forall. intros piece Hpiece.
    pose proof (proj1 (Forall_forall _ _) Hpieces piece Hpiece) as [? ?].
    pose proof (proj1 (Forall_forall _ _) Hsegs piece Hpiece). done.
Qed.

(** A page whose text is segments and references to its own images: every
    reference is rewritten, and the segments are as they were. *)
Lemma rewritten_weave (page : OCR.PageObject) (pieces : list (string * string))
    (last : string) :
  Forall (λ img, PyStr.contains (OCR.id img) "!" = false
                 ∧ PyStr.contains (OCR.id img) "]" = false) (OCR.images page) →
  OCR.markdown page = weave (λ i, image_ref i i) pieces last →
  Forall (λ piece,
            (∃ img, img ∈ OCR.images page ∧ OCR.id img = piece.2)
            ∧ ∀ img, img ∈ OCR.images page →
                ¬ occurs (image_ref (OCR.id img) (OCR.id img)) piece.1) pieces →
  (∀ img, img ∈ OCR.images page →
     ¬ occurs (image_ref (OCR.id img) (OCR.id img)) last) →
  rewritten page = weave (λ i, image_ref i ("images/" +:+ i +:+ ".png")) pieces last.
Proof.
  intros Htame Hmd Hpieces Hlast. unfold rewritten. rewrite Hmd.
  destruct (page_images_spec page) as [Hnd Hdict].
  assert (∀ i, (∃ img, img ∈ OCR.images page ∧ OCR.id img = i) →
            PyStr.contains i "!" = false ∧ PyStr.contains i "]" = false) as Hown.
  { intros i (img & Himg & <-). by apply (proj1 (Forall_forall _ _) Htame). }
  rewrite (weave_ext _ (ref_after [])).
  2:{ apply Forall_forall. intros piece _. unfold ref_after.
      by rewrite bool_decide_eq_false_2 by apply not_elem_of_nil. }
  rewrite rewrite_keys; [|done| |].
  - apply weave_ext. apply Forall_forall. intros piece Hpiece.
    destruct (proj1 (Forall_forall _ _) Hpieces piece Hpiece) as [Hid _].
    unfold ref_after. rewrite bool_decide_eq_true_2; [done|].
    rewrite app_nil_r, elem_of_reverse. apply list_elem_of_fmap.
    exists (piece.2, "images/" +:+ piece.2 +:+ ".png"). split; [done|].
    by apply Hdict.
  - intros k v [Hk ->]%Hdict. destruct (Hown k Hk) as [? ?].
    destruct Hk as (img & Himg & <-).
    split; [done|]. split; [apply not_elem_of_nil|]. split; [done|]. split; [done|].
    split; [|by apply Hlast].
    apply Forall_forall. intros piece Hpiece.
    destruct (proj1 (Forall_forall _ _) Hpieces piece Hpiece) as [_ Hseg]. by apply Hseg.
  - apply Forall_forall. intros piece Hpiece.
    destruct (proj1 (Forall_forall _ _) Hpieces piece Hpiece) as [Hid _]. by apply Hown.
Qed.

Section AssemblerProperties.
Context `{Externals}.

(** C2.  On a response none of whose pages has an embedded image, the
  assembler does nothing but create [images/] and write the page texts,
  joined by a blank line in the order of the pages, to [complete.md]: the
  text it returns and the text it writes are that concatenation, every
  page once. *)
Theorem assemble_without_images (resp : OCR.Response) (output_dir : string) (w : World) :
Forall (λ page, OCR.images page = []) (OCR.pages resp) →
let text := PyStr.join (PyStr.LF +:+ PyStr.LF) (map OCR.markdown (OCR.pages resp)) in
save_ocr_results resp output_dir w
= (FS.makedirs (images_dir output_dir);;
   FS.open_w (complete_md output_dir);;
   FS.write (complete_md output_dir) text;;
   mret (text, output_dir)) w
∧ ∀ r w', save_ocr_results resp output_dir w = (Ok r, w') →
    r = (text, output_dir) ∧ files w' !! complete_md output_dir = Some text.
Proof.
intros Hpages text. split.
- unfold save_ocr_results. rewrite !bind_run.
  destruct (FS.makedirs _ w) as [[[]|e] w1]; [|done].
  rewrite bind_run, save_pages_no_images by done. done.
- intros r w' Hrun.
  apply save_ocr_results_Ok in Hrun as (datas & _ & -> & Hf & _).
  rewrite Hf, lookup_insert_eq. unfold text.
  by rewrite map_rewritten_no_images.
Qed.

(** C1, as amended.  The text the assembler returns is the page texts,
    each rewritten with the dictionary of that page's own images and joined
    by a blank line; that dictionary holds the identifiers of the page's own
    images and no other, each once, with its relative path.  In a page whose
    identifiers hold neither [!] nor []], every reference [![i](i)] to an
    image [i] of the page becomes [![i](images/i.png)], and the text between
    the references is left as it is, by plain substitution; a page without
    images is left as it is.  In the round-trip example page 2 carries no
    image, so its reference to [img1] stays as the service wrote it; it is
    rewritten when page 2 carries [img1] itself. *)
Theorem assemble_rewrites_own_references (resp : OCR.Response) (output_dir : string)
    (w w' : World) (text dir : string) :
  save_ocr_results resp output_dir w = (Ok (text, dir), w') →
  text = PyStr.join (PyStr.LF +:+ PyStr.LF) (map rewritten (OCR.pages resp))
  ∧ (∀ page, page ∈ OCR.pages resp →
       NoDup (page_images page).*1
       ∧ ∀ k v, (k, v) ∈ page_images page
                ↔ (∃ img, img ∈ OCR.images page ∧ OCR.id img = k)
                  ∧ v = "images/" +:+ k +:+ ".png")
  ∧ (∀ page pieces last,
       page ∈ OCR.pages resp →
       Forall (λ img, PyStr.contains (OCR.id img) "!" = false
                      ∧ PyStr.contains (OCR.id img) "]" = false) (OCR.images page) →
       OCR.markdown page = weave (λ i, image_ref i i) pieces last →
       Forall (λ piece,
                 (∃ img, img ∈ OCR.images page ∧ OCR.id img = piece.2)
                 ∧ ∀ img, img ∈ OCR.images page →
                     ¬ occurs (image_ref (OCR.id img) (OCR.id img)) piece.1) pieces →
       (∀ img, img ∈ OCR.images page →
          ¬ occurs (image_ref (OCR.id img) (OCR.id img)) last) →
       rewritten page
       = weave (λ i, image_ref i ("images/" +:+ i +:+ ".png")) pieces last)
  ∧ (∀ page i segs,
       page ∈ OCR.pages resp →
       (∀ img, img ∈ OCR.images page → OCR.id img = i) →
       OCR.images page ≠ [] →
       OCR.markdown page = PyStr.join (image_ref i i) segs →
       Forall (clean_before (image_ref i i)) (removelast segs) →
       ¬ occurs (image_ref i i) (List.last segs "") →
       rewritten page = PyStr.join (image_ref i ("images/" +:+ i +:+ ".png")) segs)
  ∧ (∀ page, page ∈ OCR.pages resp → OCR.images page = [] →
       rewritten page = OCR.markdown page)
  ∧ (∀ payload, resp = round_trip_example payload →
       text = "A" +:+ PyStr.LF +:+ PyStr.LF +:+ "B ![img1](img1)")
  ∧ (∀ payload, resp = round_trip_both payload →
       text = "A" +:+ PyStr.LF +:+ PyStr.LF +:+ "B ![img1](images/img1.png)").
Proof.
  intros Hrun.
  apply save_ocr_results_Ok in Hrun as (datas & _ & [= -> ->] & _).
  split; [done|]. split; [|split; [|split; [|split; [|split]]]].
  - intros page _. apply page_images_spec.
  - intros page pieces last _. apply rewritten_weave.
  - intros page i segs _ Hall Hne Hmd Hclean Hlast.
    unfold rewritten, replace_images_in_markdown.
    rewrite (page_images_single page i) by done. cbn [fold_left]. rewrite Hmd.
    apply replace_join; [apply image_ref_nonempty|done..].
  - intros page _. apply rewritten_no_images.
  - by intros payload ->.
  - by intros payload ->.
Qed.

(** C3, as amended.  The identifiers of the images are plain file names.
    When the assembler returns, every embedded image has been saved, in
    order: its payload has a second comma-separated field (the text after
    the first comma, up to the next comma or the end of the payload), that
    field base64-decodes, and the decoded bytes were written to
    [<output_dir>/images/<id>.png]; when no two images share a path, each
    file holds its image's bytes at return.  The assembler does not return
    when a payload has no comma: it raises.  When it raises, it has saved the
    images before the one that failed and has opened or written no other
    file, [complete.md] among them; the image that failed has a payload
    without comma, and then the error is [IndexError], or a field that does
    not decode, or a file that cannot be opened. *)
Theorem assemble_saves_images (resp : OCR.Response) (output_dir : string)
    (w w' : World) (r : Result (string * string)) :
  Forall (λ img, PyStr.contains (OCR.id img) "/" = false) (all_images resp) →
  save_ocr_results resp output_dir w = (r, w') →
  (∀ text dir, r = Ok (text, dir) →
     ∃ datas,
       Forall2 decodes_to (all_images resp) datas
       ∧ events w' = events w ++ [EvMakedirs (images_dir output_dir)]
                       ++ image_events output_dir (all_images resp) datas
                       ++ [EvOpen (complete_md output_dir);
                           EvWrite (complete_md output_dir) text]
       ∧ (NoDup (map (image_path output_dir) (all_images resp)) →
          ∀ k img data, all_images resp !! k = Some img → datas !! k = Some data →
            files w' !! image_path output_dir img = Some data))
  ∧ (∀ e, r = Raise e →
       ∃ saved datas,
         saved `prefix_of` all_images resp
         ∧ Forall2 decodes_to saved datas
         ∧ files w' = image_files output_dir saved datas (files w)
         ∧ files w' !! complete_md output_dir = files w !! complete_md output_dir
         ∧ ((saved = [] ∧ w' = w
             ∧ FS.makedirs (images_dir output_dir) w = (Raise e, w))
            ∨ (events w' = events w ++ [EvMakedirs (images_dir output_dir)]
                             ++ image_events output_dir saved datas
               ∧ ((∃ img rest, all_images resp = saved ++ img :: rest
                               ∧ image_failure output_dir img w' e
                               ∧ (payload_field (OCR.image_base64 img) = None →
                                  e = IndexError "list index out of range"))
                  ∨ (saved = all_images resp
                     ∧ FS.open_w (complete_md output_dir) w' = (Raise e, w'))))))
  ∧ (∀ img, img ∈ all_images resp → payload_field (OCR.image_base64 img) = None →
       ∃ e, r = Raise e)
  ∧ (∀ img, img ∈ all_images resp →
       image_path output_dir img
       = images_dir output_dir +:+ "/" +:+ OCR.id img +:+ ".png")
  ∧ (∀ header data rest,
       PyStr.contains header "," = false → PyStr.contains data "," = false →
       payload_field (header +:+ "," +:+ data) = Some data
       ∧ payload_field (header +:+ "," +:+ data +:+ "," +:+ rest) = Some data)
  ∧ (∀ payload, payload_field payload = None ↔ PyStr.contains payload "," = false).
Proof.
  intros Hplain Hrun. split; [|split; [|split; [|split; [|split]]]].
  - intros text dir ->.
    apply save_ocr_results_Ok in Hrun as (datas & Hdatas & [= -> ->] & Hf & _ & _ & He).
    exists datas. split; [done|]. split; [done|].
    intros Hnd k img data Hk Hd.
    rewrite Hf, lookup_insert_ne by (symmetry; apply image_path_not_complete_md).
    by eapply image_files_lookup.
  - intros e ->.
    apply save_ocr_results_Raise in Hrun as (saved & datas & Hpre & Hdatas & Hf & Hcases).
    exists saved, datas. split; [done|]. split; [done|]. split; [done|]. split.
    { rewrite Hf. apply image_files_lookup_other.
      intros (img & Heq & _)%list_elem_of_fmap.
      by apply (image_path_not_complete_md output_dir img). }
    destruct Hcases as [Hnothing|[He Hcause]]; [by left|].
    right. split; [done|].
    destruct Hcause as [(img & rest & Himgs & Hfail)|Hopen]; [|by right].
    left. exists img, rest. split; [done|]. split; [done|].
    intros Hnone. destruct Hfail as [[_ ->]|[(f & Hf' & _)|(d & (f & Hf' & _) & _)]];
      [done|congruence..].
  - intros img Himg Hnone. destruct r as [[text dir]|e]; [|by exists e].
    apply save_ocr_results_Ok in Hrun as (datas & Hdatas & _).
    apply list_elem_of_lookup in Himg as [k Hk].
    destruct (Forall2_lookup_l _ _ _ _ _ Hdatas Hk) as (data & _ & (f & Hf & _)).
    congruence.
  - intros img Himg. apply image_path_eq.
    by eapply (proj1 (Forall_forall _ _) Hplain).
  - intros header data rest Hh Hd. split.
    + by apply payload_field_after_comma.
    + by apply payload_field_until_comma.
  - intros payload. split; [|apply payload_field_without_comma].
    intros Hnone. destruct (PyStr.contains payload ",") eqn:Hc; [|done].
    apply payload_field_with_comma in Hc as [f Hf]. congruence.
Qed.

(** C4, as amended.  When the image identifiers are plain file names and
    no file lies under [images/] before the assembly, the files under
    [images/] when the assembler returns are as many as the distinct image
    identifiers of the response, and every image of the response has its file
    [<output_dir>/images/<id>.png] there: each reference the assembler writes
    is backed by a file. *)
Theorem assemble_images_directory (resp : OCR.Response) (output_dir : string)
    (w w' : World) (r : string * string) :
  save_ocr_results resp output_dir w = (Ok r, w') →
  Forall (λ img, PyStr.contains (OCR.id img) "/" = false) (all_images resp) →
  files_under w (images_dir output_dir) = ∅ →
  size (files_under w' (images_dir output_dir))
  = size (list_to_set (map OCR.id (all_images resp)) : gset string)
  ∧ ∀ img, img ∈ all_images resp →
      image_path output_dir img
      = images_dir output_dir +:+ "/" +:+ OCR.id img +:+ ".png"
      ∧ image_path output_dir img ∈ files_under w' (images_dir output_dir).
Proof.
  intros Hrun Hplain Hfresh.
  apply save_ocr_results_Ok in Hrun as (datas & Hdatas & _ & Hf & _).
  pose proof (Forall2_length _ _ _ Hdatas) as Hlen.
  set (dir := images_dir output_dir) in *.
  assert (map (image_path output_dir) (all_images resp)
          = (λ i, dir +:+ "/" +:+ i +:+ ".png") <$> (OCR.id <$> all_images resp))
    as Hpaths.
  { rewrite <- list_fmap_compose. apply Forall_fmap_ext_1.
    eapply Forall_impl; [exact Hplain|]. intros img. apply image_path_eq. }
  assert (files_under w' dir
          = list_to_set ((λ i, dir +:+ "/" +:+ i +:+ ".png") <$> (OCR.id <$> all_images resp)))
    as Hunder.
  { apply set_eq. intros path. unfold files_under.
    rewrite elem_of_filter, Hf, dom_insert_L, image_files_dom, Hpaths by done.
    rewrite !elem_of_union, elem_of_singleton, elem_of_list_to_set. split.
    - intros (Hstart & [-> | [Hold | Hnew]]); [|exfalso|done].
      + by rewrite complete_md_not_under_images in Hstart.
      + eapply (not_elem_of_empty (C:=gset string)). rewrite <- Hfresh.
        apply elem_of_filter. split; [exact Hstart|exact Hold].
    - intros Hnew. split; [|by right; right].
      apply list_elem_of_fmap in Hnew as (i & -> & _).
      rewrite <- str_app_assoc. apply startswith_app. }
  split.
  - rewrite Hunder. apply (size_list_to_set_fmap _).
  - intros img Himg.
    assert (PyStr.contains (OCR.id img) "/" = false) as Hid.
    { by eapply (proj1 (Forall_forall _ _) Hplain). }
    split; [by apply image_path_eq|].
    rewrite Hunder, elem_of_list_to_set, <- Hpaths.
    change (map ?f ?l) with (f <$> l). apply list_elem_of_fmap. eauto.
Qed.

End AssemblerProperties.

Lemma assemble_without_images_witness :
  Forall (λ page, OCR.images page = []) (OCR.pages Sample.two_plain_pages)
  ∧ let ext := Sample.externals (Ok "id") (Ok "url") (Ok Sample.two_plain_pages) in
    let text := "# Title" +:+ PyStr.LF +:+ PyStr.LF +:+ "Body" in
    @save_ocr_results ext Sample.two_plain_pages "out" (Sample.world ∅)
    = (FS.makedirs "out/images";; FS.open_w "out/complete.md";;
       FS.write "out/complete.md" text;; mret (text, "out")) (Sample.world ∅)
    ∧ ∀ r w', @save_ocr_results ext Sample.two_plain_pages "out" (Sample.world ∅) = (Ok r, w') →
        r = (text, "out") ∧ files w' !! "out/complete.md" = Some text.
Proof.
  split; [by repeat constructor|].
  apply (@assemble_without_images
           (Sample.externals (Ok "id") (Ok "url") (Ok Sample.two_plain_pages))
           Sample.two_plain_pages "out" (Sample.world ∅)).
  by repeat constructor.
Defined.

Lemma assemble_rewrites_own_references_witness :
  let ext := Sample.externals (Ok "id") (Ok "url") (Ok Sample.two_plain_pages) in
  let payload := "data:image/png;base64,QUJD" in
  let page :=
    {| OCR.markdown := "![a](a) and ![b](b).";
       OCR.images := [ {| OCR.id := "a"; OCR.image_base64 := payload |};
                       {| OCR.id := "b"; OCR.image_base64 := payload |} ] |} in
  let resp := {| OCR.pages := [page] |} in
  let run := @save_ocr_results ext resp "out" (Sample.world ∅) in
  run = (Ok ("![a](images/a.png) and ![b](images/b.png).", "out"), run.2)
  ∧ rewritten page
    = weave (λ i, image_ref i ("images/" +:+ i +:+ ".png")) [("", "a"); (" and ", "b")] "."
  ∧ weave (λ i, image_ref i ("images/" +:+ i +:+ ".png")) [("", "a"); (" and ", "b")] "."
    = "![a](images/a.png) and ![b](images/b.png).".
Proof.
  intros.
  assert (run = (Ok ("![a](images/a.png) and ![b](images/b.png).", "out"), run.2))
    as Hrun by (by vm_compute).
  split; [exact Hrun|]. split; [|done].
  assert (∀ img seg, img ∈ OCR.images page → (String.length seg < 7)%nat →
            ¬ occurs (image_ref (OCR.id img) (OCR.id img)) seg) as Hshort.
  { intros img seg Himg Hlen (l & r & ->).
    rewrite !str_length_app in Hlen.
    apply elem_of_cons in Himg as [->|Himg]; [simpl in Hlen; lia|].
    apply elem_of_cons in Himg as [->|Himg]; [simpl in Hlen; lia|].
    by apply elem_of_nil in Himg. }
  refine (proj1 (proj2 (proj2 (@assemble_rewrites_own_references
    ext resp "out" (Sample.world ∅) run.2 _ _ Hrun))) page _ _ _ _ _ _ _).
  - by left.
  - by repeat constructor.
  - done.
  - repeat constructor; simpl.
    + eexists. split; [by left|done].
    + intros img Himg. apply Hshort; [done|simpl; lia].
    + eexists. split; [by right; left|done].
    + intros img Himg. apply Hshort; [done|simpl; lia].
  - intros img Himg. apply Hshort; [done|simpl; lia].
Defined.

(** C1, as stated, fails on the round-trip example: page 2 carries no image
    of its own, and the document keeps its reference as it was.  It fails as
    well for an identifier that holds []] or [!], whose reference another
    identifier of the page can overlap: the reference rewritten first takes
    the other apart. *)
Lemma round_trip_example_not_rewritten :
  let ext := Sample.externals (Ok "id") (Ok "url") (Ok Sample.two_plain_pages) in
  let payload := "data:image/png;base64,QUJD" in
  let run ids text :=
    (@save_ocr_results ext
       {| OCR.pages :=
            [ {| OCR.markdown := text;
                 OCR.images :=
                   map (λ i, {| OCR.id := i; OCR.image_base64 := payload |}) ids |} ] |}
       "out" (Sample.world ∅)).1 in
  (@save_ocr_results ext (round_trip_example payload) "out" (Sample.world ∅)).1
  = Ok ("A" +:+ PyStr.LF +:+ PyStr.LF +:+ "B ![img1](img1)", "out")
  ∧ "A" +:+ PyStr.LF +:+ PyStr.LF +:+ "B ![img1](img1)"
    ≠ "A" +:+ PyStr.LF +:+ PyStr.LF +:+ "B ![img1](images/img1.png)"
  ∧ run ["a"; "a](a)x"] (image_ref "a](a)x" "a](a)x")
    = Ok ("![a](images/a.png)x](a](a)x)", "out")
  ∧ "![a](images/a.png)x](a](a)x)" ≠ image_ref "a](a)x" "images/a](a)x.png"
  ∧ run [""; ")!["] (image_ref ")![" ")![")
    = Ok ("![)![](images/.png)![)", "out")
  ∧ "![)![](images/.png)![)" ≠ image_ref ")![" "images/)![.png".
Proof. repeat split; by vm_compute. Qed.

Lemma assemble_saves_images_witness :
  let ext := Sample.externals (Ok "id") (Ok "url") (Ok Sample.two_plain_pages) in
  let resp := round_trip_example "data:image/png;base64,QUJD" in
  let w := Sample.world ∅ in
  let w' := (@save_ocr_results ext resp "out" w).2 in
  let text := "A" +:+ PyStr.LF +:+ PyStr.LF +:+ "B ![img1](img1)" in
  Forall (λ img, PyStr.contains (OCR.id img) "/" = false) (all_images resp)
  ∧ @save_ocr_results ext resp "out" w = (Ok (text, "out"), w')
  ∧ ∃ datas,
      Forall2 (@decodes_to ext) (all_images resp) datas
      ∧ events w' = events w ++ [EvMakedirs (images_dir "out")]
                      ++ image_events "out" (all_images resp) datas
                      ++ [EvOpen (complete_md "out"); EvWrite (complete_md "out") text]
      ∧ (NoDup (map (image_path "out") (all_images resp)) →
         ∀ k img data, all_images resp !! k = Some img → datas !! k = Some data →
           files w' !! image_path "out" img = Some data).
Proof.
  intros.
  assert (Forall (λ img, PyStr.contains (OCR.id img) "/" = false) (all_images resp))
    as Hplain by (by repeat constructor).
  assert (@save_ocr_results ext resp "out" w = (Ok (text, "out"), w')) as Hrun
    by (by vm_compute).
  split; [exact Hplain|]. split; [exact Hrun|].
  exact (proj1 (@assemble_saves_images ext resp "out" w w' _ Hplain Hrun) text "out" eq_refl).
Defined.

(** C3, as stated, fails on a payload with two commas: the bytes written
    are those of the field between the commas, not those of all that
    follows the first comma.  On a payload without comma nothing is written
    and the assembly ends with [IndexError].  An identifier that begins with
    a separator has its file at that absolute path, outside [images/]. *)
Lemma payload_after_first_comma_counterexample :
  let ext := Sample.externals (Ok "id") (Ok "url") (Ok Sample.two_plain_pages) in
  let page id payload :=
    {| OCR.markdown := "![x](x)";
       OCR.images := [ {| OCR.id := id; OCR.image_base64 := payload |} ] |} in
  let run id payload :=
    @save_ocr_results ext {| OCR.pages := [page id payload] |} "out" (Sample.world ∅) in
  (run "x" "data:image/png;base64,QUJD,REVG").1 = Ok ("![x](images/x.png)", "out")
  ∧ files (run "x" "data:image/png;base64,QUJD,REVG").2 !! "out/images/x.png" = Some "ABC"
  ∧ @b64decode ext "QUJD,REVG" = Ok "ABCDEF"
  ∧ "ABC" ≠ "ABCDEF"
  ∧ (run "x" "QUJD").1 = Raise (IndexError "list index out of range")
  ∧ files (run "x" "QUJD").2 !! "out/images/x.png" = None
  ∧ files (run "/x" "data:image/png;base64,QUJD").2 !! "/x.png" = Some "ABC"
  ∧ files (run "/x" "data:image/png;base64,QUJD").2 !! "out/images//x.png" = None.
Proof. repeat split; by vm_compute. Qed.

Lemma assemble_images_directory_witness :
  let ext := Sample.externals (Ok "id") (Ok "url") (Ok Sample.two_plain_pages) in
  let resp := round_trip_both "data:image/png;base64,QUJD" in
  let w := Sample.world ∅ in
  let w' := (@save_ocr_results ext resp "out" w).2 in
  let r := ("A" +:+ PyStr.LF +:+ PyStr.LF +:+ "B ![img1](images/img1.png)", "out") in
  @save_ocr_results ext resp "out" w = (Ok r, w')
  ∧ Forall (λ img, PyStr.contains (OCR.id img) "/" = false) (all_images resp)
  ∧ files_under w (images_dir "out") = ∅
  ∧ size (files_under w' (images_dir "out"))
    = size (list_to_set (map OCR.id (all_images resp)) : gset string)
  ∧ ∀ img, img ∈ all_images resp →
      image_path "out" img = images_dir "out" +:+ "/" +:+ OCR.id img +:+ ".png"
      ∧ image_path "out" img ∈ files_under w' (images_dir "out").
Proof.
  intros.
  assert (@save_ocr_results ext resp "out" w = (Ok r, w')) as Hrun by (by vm_compute).
  assert (Forall (λ img, PyStr.contains (OCR.id img) "/" = false) (all_images resp))
    as Hplain by (by repeat constructor).
  assert (files_under w (images_dir "out") = ∅) as Hfresh by (by vm_compute).
  split; [exact Hrun|]. split; [exact Hplain|]. split; [exact Hfresh|].
  exact (@assemble_images_directory ext resp "out" w w' r Hrun Hplain Hfresh).
Defined.

(** C4, as stated, fails when the run directory was used before and when
    the OCR text itself holds a rewritten reference: a file of the earlier
    run stays under [images/] though the response has no image, and the
    reference in the text has no file.  It fails as well on an identifier
    that begins with a separator: its file is not under [images/]. *)
Lemma images_directory_counterexample :
  let ext := Sample.externals (Ok "id") (Ok "url") (Ok Sample.two_plain_pages) in
  let resp := {| OCR.pages := [ {| OCR.markdown := "![x](images/x.png)";
                                   OCR.images := [] |} ] |} in
  let w := {| files := {[ "out/images/old.png" := "PNG" ]};
              dirs := {[ "out"; "out/images" ]};
              clock := Sample.noon; events := [] |} in
  let run := @save_ocr_results ext resp "out" w in
  let absolute :=
    {| OCR.pages :=
         [ {| OCR.markdown := "![/x](/x)";
              OCR.images := [ {| OCR.id := "/x";
                                 OCR.image_base64 := "data:image/png;base64,QUJD" |} ] |} ] |} in
  let run_absolute := @save_ocr_results ext absolute "out" (Sample.world ∅) in
  run.1 = Ok ("![x](images/x.png)", "out")
  ∧ size (files_under run.2 (images_dir "out")) = 1%nat
  ∧ size (list_to_set (map OCR.id (all_images resp)) : gset string) = 0%nat
  ∧ files run.2 !! "out/images/x.png" = None
  ∧ run_absolute.1 = Ok ("![/x](images//x.png)", "out")
  ∧ size (files_under run_absolute.2 (images_dir "out")) = 0%nat
  ∧ size (list_to_set (map OCR.id (all_images absolute)) : gset string) = 1%nat.
Proof. repeat split; by vm_compute. Qed.

(** ** The Format Classifier *)

Lemma lower_char_idemp (c : ascii) : PyStr.lower_char (PyStr.lower_char c) = PyStr.lower_char c.
Proof. by destruct c as [[] [] [] [] [] [] [] []]. Qed.

Lemma lower_idemp (s : string) : PyStr.lower (PyStr.lower s) = PyStr.lower s.
Proof. induction s as [|c s IH]; [done|]. simpl. by rewrite lower_char_idemp, IH. Qed.

Section ClassifierProperties.
Context `{Externals}.

Lemma is_image_file_run (file_path : string) (w : World) :
  is_image_file file_path w
  = (Ok (supported_extension file_path && decodes_as_image w file_path), w).
Proof.
  unfold is_image_file, supported_extension, decodes_as_image.
  destruct (bool_decide _); [|done]. simpl.
  unfold try_except, Image_open. rewrite !bind_run. unfold FS.read_bytes, lift.
  destruct (files w !! file_path) as [content|];
    [|by destruct (FS.isdir w file_path),
                  (existsb (FS.isfile w) (FS.ancestors file_path))].
  by destruct (pil_open content) as [[fmt|]|e].
Qed.

(** C5.  The classifier never raises and leaves the world as it is: it
    answers Image ([True]) exactly when the extension of the path is one of
    the supported extensions and the content of the file decodes as an
    image, and Document ([False]) for every other path, among them a file
    that is not an image under an image's extension and a file that cannot
    be read. *)
Theorem classify_image_iff (file_path : string) (w : World) :
  ∃ answer, is_image_file file_path w = (Ok answer, w)
    ∧ (answer = true ↔
         supported_extension file_path = true ∧ decodes_as_image w file_path = true)
    ∧ (files w !! file_path = None → answer = false)
    ∧ (∀ content e, files w !! file_path = Some content → pil_open content = Raise e →
         answer = false).
Proof.
  eexists. split; [apply is_image_file_run|]. split; [apply andb_true_iff|].
  unfold decodes_as_image. split.
  - intros ->. apply andb_false_r.
  - intros content e -> ->. apply andb_false_r.
Qed.

(** C10.  The classifier reads the extension off the lower-cased path: two
    spellings of a path that differ in letter case only are classified alike
    when their files decode alike.  A path that ends, in whatever letter
    case, in a supported extension after a file name that is not made of dots
    passes the extension check, and is an Image when its file decodes as one:
    [.PNG] and [.Jpg] as [.png] and [.jpg]. *)
Theorem classify_case_insensitive (p q : string) (w : World) :
  PyStr.lower p = PyStr.lower q →
  decodes_as_image w p = decodes_as_image w q →
  is_image_file p w = is_image_file q w
  ∧ supported_extension p = supported_extension (PyStr.lower p)
  ∧ (∀ base ext,
       PyStr.lower ext ∈ SUPPORTED_IMAGE_EXTENSIONS →
       PyStr.all_char (FS.basename base) "." = false →
       supported_extension (base +:+ ext) = true
       ∧ (decodes_as_image w (base +:+ ext) = true →
          is_image_file (base +:+ ext) w = (Ok true, w)))
  ∧ supported_extension "scan.PNG" = true
  ∧ supported_extension "photo.Jpg" = true.
Proof.
  intros Hlower Hdecode.
  assert (∀ x, supported_extension x = supported_extension (PyStr.lower x)) as Hext.
  { intros x. unfold supported_extension. by rewrite lower_idemp. }
  split; [|split; [|split; [|done]]].
  - rewrite !is_image_file_run, Hdecode, (Hext p), (Hext q), Hlower. done.
  - apply Hext.
  - intros base ext Hsupported Hname.
    pose proof (supported_extension_any_case base ext Hsupported Hname) as Hcheck.
    split; [done|]. intros Hd. by rewrite is_image_file_run, Hcheck, Hd.
Qed.

End ClassifierProperties.

Lemma classify_case_insensitive_witness :
  let ext := Sample.externals (Ok "id") (Ok "url") (Ok Sample.two_plain_pages) in
  let png := String (ascii_of_nat 137) "PNG..." in
  let w := Sample.world {[ "scan.PNG" := png; "scan.png" := png ]} in
  PyStr.lower "scan.PNG" = PyStr.lower "scan.png"
  ∧ @decodes_as_image ext w "scan.PNG" = @decodes_as_image ext w "scan.png"
  ∧ @is_image_file ext "scan.PNG" w = @is_image_file ext "scan.png" w
  ∧ @is_image_file ext "scan.PNG" w = (Ok true, w).
Proof.
  intros.
  assert (PyStr.lower "scan.PNG" = PyStr.lower "scan.png") as Hlower by done.
  assert (@decodes_as_image ext w "scan.PNG" = @decodes_as_image ext w "scan.png")
    as Hdecode by (by vm_compute).
  destruct (@classify_case_insensitive ext "scan.PNG" "scan.png" w Hlower Hdecode)
    as (Hsame & _ & Himage & _).
  split; [exact Hlower|]. split; [exact Hdecode|]. split; [exact Hsame|].
  assert (PyStr.lower ".PNG" ∈ SUPPORTED_IMAGE_EXTENSIONS) as Hsupported.
  { by apply (bool_decide_eq_true_1 _); vm_compute. }
  assert (PyStr.all_char (FS.basename "scan") "." = false) as Hname by (by vm_compute).
  apply (proj2 (Himage "scan" ".PNG" Hsupported Hname)). by vm_compute.
Defined.

(** ** The Output Store *)

Lemma makedirs_run (name : string) (w : World) :
  name ≠ "" → existsb (FS.isfile w) (FS.ancestors name) = false →
  FS.isfile w name = false →
  FS.makedirs name w
  = (Ok (), {| files := files w;
               dirs := dirs w ∪ list_to_set (FS.ancestors name) ∪ {[ name ]};
               clock := clock w;
               events := events w ++ [EvMakedirs name] |}).
Proof.
  intros Hname Hanc Hfile. unfold FS.makedirs.
  by rewrite bool_decide_eq_false_2, Hanc, Hfile.
Qed.

Section OutputStoreProperties.
Context `{Externals}.

(** C8.  The directory of a run is [outputs/<timestamp>_<stem>], the
    timestamp read to the second and the stem that of the source path.  A
    call that returns has created [outputs] and that directory and nothing
    else, and created nothing when both were there; it returns unless a
    regular file stands in the way.  Two runs within one second have
    distinct directories with no path in common when their stems differ,
    and one and the same directory when their stems agree; there the
    assembler's [complete.md] replaces whatever an earlier run left. *)
Theorem create_run (path1 path2 : string) (w1 w2 : World) :
  same_second (clock w1) (clock w2) →
  let dir1 := run_directory (clock w1) path1 in
  let dir2 := run_directory (clock w2) path2 in
  dir1 = "outputs/" +:+ strftime (clock w1) +:+ "_" +:+ PurePath.stem path1
  ∧ strftime (clock w1) = strftime (clock w2)
  ∧ (∀ dir w', create_output_directory path1 w1 = (Ok dir, w') →
       dir = dir1
       ∧ files w' = files w1
       ∧ dirs w' = dirs w1 ∪ {[ "outputs" ]} ∪ {[ dir1 ]}
       ∧ events w' = events w1 ++ [EvMakedirs "outputs"; EvMakedirs dir1])
  ∧ (FS.isfile w1 "outputs" = false → FS.isfile w1 dir1 = false →
       ∃ w', create_output_directory path1 w1 = (Ok dir1, w'))
  ∧ (∀ dir w', create_output_directory path1 w1 = (Ok dir, w') →
       "outputs" ∈ dirs w1 → dir1 ∈ dirs w1 → dirs w' = dirs w1)
  ∧ (PurePath.stem path1 ≠ PurePath.stem path2 →
       dir1 ≠ dir2 ∧ ∀ p, ¬ (below dir1 p ∧ below dir2 p))
  ∧ (PurePath.stem path1 = PurePath.stem path2 →
       dir1 = dir2
       ∧ ∀ resp r w0 w', save_ocr_results resp dir2 w0 = (Ok r, w') →
           files w' !! complete_md dir1 = Some r.1).
Proof.
  intros Hsecond dir1 dir2. pose proof (same_second_strftime _ _ Hsecond) as Hts.
  assert (∀ dir w', create_output_directory path1 w1 = (Ok dir, w') →
            dir = dir1 ∧ files w' = files w1
            ∧ dirs w' = dirs w1 ∪ {[ "outputs" ]} ∪ {[ dir1 ]}
            ∧ events w' = events w1 ++ [EvMakedirs "outputs"; EvMakedirs dir1]) as Hok.
  { intros dir w' (-> & Hf & Hd & _ & He)%create_output_directory_Ok.
    fold dir1 in Hd, He. repeat split; try done.
    rewrite Hd. unfold dir1. rewrite ancestors_run_directory. simpl.
    rewrite !(right_id_L ∅ (∪)), <- (assoc_L (∪) (dirs w1)).
    by rewrite (idemp_L (∪)). }
  split; [apply run_directory_eq|]. split; [done|]. split; [done|].
  split; [|split; [|split]].
  - intros Hout Hdir. unfold create_output_directory.
    rewrite bind_run, makedirs_run; [|done|by vm_compute|done].
    rewrite bind_run. simpl.
    rewrite bind_run, makedirs_run.
    + fold (run_directory (clock w1) path1). fold dir1. simpl. eauto.
    + fold (run_directory (clock w1) path1). rewrite run_directory_eq.
      unfold String.app. simpl. discriminate.
    + fold (run_directory (clock w1) path1). rewrite ancestors_run_directory.
      simpl. by rewrite orb_false_r.
    + done.
  - intros dir w' (_ & _ & -> & _)%Hok Hout Hdir.
    apply set_eq. intros x. rewrite !elem_of_union, !elem_of_singleton.
    split; [|by left; left]. intros [[?| ->]| ->]; done.
  - intros Hstems.
    assert (∀ x y, dir1 +:+ String "/" x ≠ dir2 +:+ String "/" y) as Hne.
    { intros x y. unfold dir1, dir2. rewrite !run_directory_eq, Hts, !str_app_assoc.
      intros Heq. do 3 apply str_app_inv_head in Heq.
      apply slash_free_prefix_inj in Heq; [done|apply stem_without_slash..]. }
    split.
    + intros Heq. apply (Hne "" ""). by rewrite Heq.
    + intros p [(r1 & ->)%startswith_true (r2 & Heq)%startswith_true].
      rewrite !str_app_assoc in Heq. by apply Hne in Heq.
  - intros Hstems.
    assert (dir1 = dir2) as Hdirs.
    { unfold dir1, dir2. by rewrite !run_directory_eq, Hts, Hstems. }
    split; [done|]. intros resp r w0 w' Hrun. rewrite Hdirs.
    apply save_ocr_results_Ok in Hrun as (datas & _ & -> & -> & _).
    by rewrite lookup_insert_eq.
Qed.

End OutputStoreProperties.

Lemma create_run_witness :
  let ext := Sample.externals (Ok "file-1") (Ok "https://signed/1") (Ok Sample.two_plain_pages) in
  let w1 := Sample.world ∅ in
  let w2 := {| files := ∅; dirs := ∅; events := [];
               clock := {| year := 2025; month := 3; day := 7; hour := 12;
                           minute := 0; second := 9; microsecond := 999999 |} |} in
  same_second (clock w1) (clock w2)
  ∧ run_directory (clock w1) "scans/a.pdf" = "outputs/20250307_120009_a"
  ∧ run_directory (clock w2) "b.png" = "outputs/20250307_120009_b"
  ∧ run_directory (clock w1) "scans/a.pdf" ≠ run_directory (clock w2) "b.png"
  ∧ ∃ w', create_output_directory "scans/a.pdf" w1 = (Ok "outputs/20250307_120009_a", w').
Proof.
  intros. assert (same_second (clock w1) (clock w2)) as Hsecond by done.
  split; [exact Hsecond|].
  destruct (@create_run ext "scans/a.pdf" "b.png" w1 w2 Hsecond)
    as (_ & _ & _ & Hreturns & _ & Hdistinct & _).
  split; [by vm_compute|]. split; [by vm_compute|].
  split; [by apply Hdistinct|].
  destruct Hreturns as [w' Hw']; [done..|]. exists w'. rewrite Hw'. by vm_compute.
Defined.

(** ** What a run does before the client is called *)

Lemma adds_only_weaken {A : Type} (P Q : Event → Prop) (m : M A) :
  (∀ ev, P ev → Q ev) → adds_only P m → adds_only Q m.
Proof.
  intros HPQ Hm w r w' (evs & He & HP)%Hm. exists evs. split; [done|].
  eapply Forall_impl; [exact HP|exact HPQ].
Qed.

Lemma endswith_slash_absent (s : string) :
  PyStr.contains s "/" = false → PyStr.endswith_char s "/" = false.
Proof.
  induction s as [|c s IH]; [done|]. simpl.
  intros [Hc Hs]%orb_false_elim. destruct s; [done|]. by apply IH.
Qed.

(** A run directory is joined to a relative name with a separator. *)
Lemma run_directory_prefix (t : datetime) (path : string) :
  join_prefix (run_directory t path) = run_directory t path +:+ "/".
Proof.
  unfold join_prefix. rewrite run_directory_eq.
  rewrite bool_decide_eq_false_2 by (unfold String.app; simpl; discriminate).
  rewrite endswith_char_app, endswith_slash_absent; [done|..].
  - apply run_name_without_slash.
  - by destruct (strftime t).
Qed.

Section SparesAssembly.
Variable output_dir : string.
Hypothesis output_dir_prefix : join_prefix output_dir = output_dir +:+ "/".

Lemma complete_md_child : complete_md output_dir = output_dir +:+ "/" +:+ "complete.md".
Proof using output_dir_prefix.
  by rewrite complete_md_eq, output_dir_prefix, str_app_assoc.
Qed.

Lemma images_dir_child : images_dir output_dir = output_dir +:+ "/" +:+ "images".
Proof using output_dir_prefix.
  by rewrite images_dir_eq, output_dir_prefix, str_app_assoc.
Qed.

(** A file of the run directory other than [complete.md] and [images] is
    no path of the assembler. *)
Lemma child_spares_assembly (x : string) :
  x ≠ "complete.md" → x ≠ "images" → PyStr.startswith x "images/" = false →
  ¬ assembly_path output_dir (output_dir +:+ "/" +:+ x).
Proof using output_dir_prefix.
  intros Hc Hi Hb [Heq|[Heq|Heq]].
  - rewrite complete_md_child in Heq. by do 2 apply str_app_inv_head in Heq.
  - rewrite images_dir_child in Heq. by do 2 apply str_app_inv_head in Heq.
  - unfold below in Heq. rewrite images_dir_child, !str_app_assoc in Heq.
    unfold PyStr.startswith in *. rewrite !strip_prefix_common in Heq.
    change ("images" +:+ "/") with "images/" in Heq. by rewrite Heq in Hb.
Qed.

(** Neither is the run directory itself, nor a path it extends. *)
Lemma above_spares_assembly (a b : string) :
  output_dir = a +:+ b → ¬ assembly_path output_dir a.
Proof using output_dir_prefix.
  intros Hab [Heq|[Heq|Heq]].
  - rewrite complete_md_child, Hab, str_app_assoc in Heq.
    rewrite <- (str_app_nil_r a) in Heq at 1. apply str_app_inv_head in Heq.
    apply (f_equal String.length) in Heq. rewrite !str_length_app in Heq.
    simpl in Heq. lia.
  - rewrite images_dir_child, Hab, str_app_assoc in Heq.
    rewrite <- (str_app_nil_r a) in Heq at 1. apply str_app_inv_head in Heq.
    apply (f_equal String.length) in Heq. rewrite !str_length_app in Heq.
    simpl in Heq. lia.
  - unfold below in Heq. apply startswith_true in Heq as [rest Heq].
    rewrite images_dir_child, Hab, !str_app_assoc in Heq.
    rewrite <- (str_app_nil_r a) in Heq at 1. apply str_app_inv_head in Heq.
    apply (f_equal String.length) in Heq. rewrite !str_length_app in Heq.
    simpl in Heq. lia.
Qed.

End SparesAssembly.

Lemma spares_makedirs_outputs (t : datetime) (path : string) :
  spares_assembly (run_directory t path) (EvMakedirs "outputs").
Proof.
  intros p [= <-]. eapply above_spares_assembly; [apply run_directory_prefix|].
  rewrite run_directory_eq.
  change ("outputs/" +:+ ?x) with ("outputs" +:+ "/" +:+ x). done.
Qed.

Lemma spares_makedirs_run_directory (t : datetime) (path : string) :
  spares_assembly (run_directory t path) (EvMakedirs (run_directory t path)).
Proof.
  intros p [= <-]. eapply above_spares_assembly; [apply run_directory_prefix|].
  by rewrite str_app_nil_r.
Qed.

(** Whatever its outcome, [create_output_directory] adds no event about a
    path of the assembler, and leaves the clock as it is. *)
Lemma create_output_directory_spares (path : string) (w w' : World) (r : Result string) :
  create_output_directory path w = (r, w') →
  ∃ evs, events w' = events w ++ evs
    ∧ Forall (spares_assembly (run_directory (clock w) path)) evs
    ∧ clock w' = clock w
    ∧ (∀ dir, r = Ok dir → dir = run_directory (clock w) path).
Proof.
  unfold create_output_directory. rewrite bind_run.
  destruct (FS.makedirs "outputs" w) as [[[]|e] w1] eqn:E1.
  - apply makedirs_Ok in E1 as (_ & _ & Hc1 & He1).
    rewrite bind_run. simpl. rewrite bind_run, Hc1. fold (run_directory (clock w) path).
    destruct (FS.makedirs (run_directory (clock w) path) w1) as [[[]|e] w2] eqn:E2.
    + apply makedirs_Ok in E2 as (_ & _ & Hc2 & He2). intros [= <- <-].
      exists [EvMakedirs "outputs"; EvMakedirs (run_directory (clock w) path)].
      rewrite He2, He1, <- app_assoc. repeat split; [|congruence|by intros ? [= <-]].
      repeat constructor;
        [apply spares_makedirs_outputs|apply spares_makedirs_run_directory].
    + apply makedirs_Raise in E2 as ->. intros [= <- <-].
      exists [EvMakedirs "outputs"]. repeat split; [done| |done|done].
      repeat constructor. apply spares_makedirs_outputs.
  - apply makedirs_Raise in E1 as ->. intros [= <- <-].
    exists []. rewrite app_nil_r. by repeat split.
Qed.

(** A copy adds events about its target only: the destination, or the
    source's base name inside it. *)
Lemma copy2_adds (src dst : string) :
  adds_only
    (λ ev, ∀ p, event_path ev = Some p →
       p = dst ∨ p = PosixPath.join dst (FS.basename src))
    (FS.copy2 src dst).
Proof.
  unfold FS.copy2, FS.path_isdir, FS.path_exists.
  adds_only_step; [adds_only_step|]. adds_only_step; [adds_only_step|].
  case_match; [adds_only_step|].
  repeat adds_only_step; intros p [= <-]; destruct a; eauto.
Qed.

(** The copy of the original into a run directory spares the paths of the
    assembler. *)
Lemma copy_origin_spares (t : datetime) (path src suffix : string) :
  adds_only (spares_assembly (run_directory t path))
    (FS.copy2 src (PosixPath.join (run_directory t path) ("origin" +:+ suffix))).
Proof.
  eapply adds_only_weaken; [|apply copy2_adds].
  intros ev Hev p Hp. rewrite join_relative in Hev by done.
  rewrite !run_directory_prefix, str_app_assoc in Hev.
  destruct (Hev p Hp) as [->| ->].
  - apply child_spares_assembly; [apply run_directory_prefix|done..].
  - rewrite join_relative by apply startswith_slash, basename_without_slash.
    set (origin := run_directory t path +:+ "/" +:+ "origin" +:+ suffix).
    assert (∃ rest, join_prefix origin +:+ FS.basename src
                    = run_directory t path +:+ "/" +:+ "origin" +:+ rest) as [rest ->].
    { unfold join_prefix. case_match; eexists; unfold origin; rewrite !str_app_assoc; done. }
    apply child_spares_assembly; [apply run_directory_prefix|done..].
Qed.

Lemma prepare_run_spares (path : string) (w w' : World) (r : Result string) :
  prepare_run path w = (r, w') →
  ∃ evs, events w' = events w ++ evs
    ∧ Forall (spares_assembly (run_directory (clock w) path)) evs
    ∧ (∀ dir, r = Ok dir → dir = run_directory (clock w) path).
Proof.
  unfold prepare_run. rewrite bind_run.
  destruct (create_output_directory path w) as [[dir|e] w1] eqn:E1;
    apply create_output_directory_spares in E1 as (evs1 & He1 & Hs1 & Hc1 & Hdir).
  - rewrite (Hdir dir eq_refl), bind_run.
    destruct (FS.copy2 _ _ w1) as [[[]|e] w2] eqn:E2;
      apply copy_origin_spares in E2 as (evs2 & He2 & Hs2); intros [= <- <-];
      exists (evs1 ++ evs2); rewrite He2, He1, <- app_assoc;
      (repeat split; [by apply Forall_app|by intros ? [= <-] || done]).
  - intros [= <- <-]. exists evs1. by repeat split.
Qed.

Section NormalizerProperties.
Context `{Externals}.

Lemma is_image_file_silent (file_path : string) (P : Event → Prop) :
  adds_only P (is_image_file file_path).
Proof.
  intros w r w'. rewrite is_image_file_run. intros [= <- <-].
  exists []. by rewrite app_nil_r.
Qed.

Lemma convert_image_to_pdf_adds (image_path output_dir : string) :
  adds_only (λ ev, ∀ p, event_path ev = Some p → p = PosixPath.join output_dir "converted.pdf")
    (convert_image_to_pdf image_path output_dir).
Proof.
  unfold convert_image_to_pdf. repeat adds_only_step; by intros p [= <-].
Qed.

(** [process_file] normalizes its input and calls the client with the run
    directory. *)
Lemma process_file_normalize (file_path api_key : string) (w : World) :
  process_file file_path api_key w
  = ('(file_to_process, output_dir) ← normalize file_path;
     process_pdf file_to_process api_key (Some output_dir)) w.
Proof.
  unfold process_file, normalize. rewrite !bind_run.
  destruct (create_output_directory file_path w) as [[dir|e] w1]; [|done].
  rewrite !bind_run. destruct (FS.copy2 _ _ w1) as [[[]|e] w2]; [|done].
  rewrite !bind_run. destruct (is_image_file file_path w2) as [[is_image|e] w3]; [|done].
  rewrite !bind_run. destruct is_image.
  - by destruct (convert_image_to_pdf file_path dir w3) as [[doc|e] w4].
  - done.
Qed.

(** Whatever its outcome, the normalization adds no event about a path of
    the assembler; the directory it returns is the run directory. *)
Lemma normalize_spares (file_path : string) (w w' : World) (r : Result (string * string)) :
  normalize file_path w = (r, w') →
  ∃ evs, events w' = events w ++ evs
    ∧ Forall (spares_assembly (run_directory (clock w) file_path)) evs
    ∧ (∀ doc dir, r = Ok (doc, dir) → dir = run_directory (clock w) file_path).
Proof.
  unfold normalize. rewrite bind_run.
  destruct (create_output_directory file_path w) as [[dir|e] w1] eqn:E1;
    apply create_output_directory_spares in E1 as (evs1 & He1 & Hs1 & Hc1 & Hdir);
    [|intros [= <- <-]; exists evs1; by repeat split].
  rewrite (Hdir dir eq_refl). clear Hdir dir.
  set (dir := run_directory (clock w) file_path) in *.
  assert (adds_only (spares_assembly dir)
    (FS.copy2 file_path (PosixPath.join dir ("origin" +:+ PurePath.suffix file_path));;
     is_image ← is_image_file file_path;
     file_to_process ←
       (if is_image : bool then convert_image_to_pdf file_path dir
        else mret (PosixPath.join dir ("origin" +:+ PurePath.suffix file_path)));
     mret (file_to_process, dir))) as Hrest.
  { adds_only_step; [apply copy_origin_spares|].
    adds_only_step; [apply is_image_file_silent|].
    adds_only_step; [|adds_only_step].
    destruct a0; [|adds_only_step].
    eapply adds_only_weaken; [|apply convert_image_to_pdf_adds].
    intros ev Hev p Hp. rewrite (Hev p Hp), join_relative by done.
    unfold dir. rewrite run_directory_prefix, str_app_assoc.
    apply child_spares_assembly; [apply run_directory_prefix|done..]. }
  intros Hrun. pose proof (Hrest _ _ _ Hrun) as (evs2 & He2 & Hs2).
  exists (evs1 ++ evs2). rewrite He2, He1, <- app_assoc.
  repeat split; [by apply Forall_app|].
  intros doc d ->. apply bind_Ok in Hrun as (? & ? & _ & Hrun).
  apply bind_Ok in Hrun as (? & ? & _ & Hrun).
  by apply bind_Ok in Hrun as (? & ? & _ & [= _ <-]).
Qed.

End NormalizerProperties.

(** ** The name of a path and the name of its run directory *)

Lemma split_nonempty (s : string) (sep : ascii) : PyStr.split s sep ≠ [].
Proof.
  induction s as [|c s IH]; [done|]. simpl.
  destruct (decide (c = sep)); [done|]. by destruct (PyStr.split s sep).
Qed.

Lemma split_app_last (a x : string) (sep : ascii) :
  PyStr.contains x sep = false →
  PyStr.split (a +:+ String sep x) sep = PyStr.split a sep ++ [x].
Proof.
  intros Hx. induction a as [|c a IH].
  - rewrite str_app_nil_l. cbn [PyStr.split]. rewrite decide_True by done.
    by rewrite split_without_sep.
  - rewrite str_app_cons. cbn [PyStr.split]. rewrite IH.
    destruct (decide (c = sep)); [done|].
    pose proof (split_nonempty a sep). by destruct (PyStr.split a sep).
Qed.

(** The name of a path is its last component. *)
Lemma name_child (a x : string) :
  PyStr.contains x "/" = false → x ≠ "" → x ≠ "." →
  PurePath.name (a +:+ "/" +:+ x) = x.
Proof.
  intros Hx Hne Hdot. unfold PurePath.name, PurePath.parts.
  change ("/" +:+ x) with (String "/" x).
  rewrite split_app_last by done.
  rewrite filter_app, filter_cons_True, filter_nil by done.
  apply List.last_last.
Qed.

Lemma count_char_app (a b : string) (c : ascii) :
  count_char (a +:+ b) c = (count_char a c + count_char b c)%nat.
Proof.
  induction a as [|x a IH]; [done|]. rewrite str_app_cons. simpl. rewrite IH. lia.
Qed.

Lemma count_char_absent (s : string) (c : ascii) :
  PyStr.contains s c = false → count_char s c = 0%nat.
Proof.
  induction s as [|x s IH]; [done|]. simpl.
  intros [-> Hs]%orb_false_elim. by rewrite IH.
Qed.

Lemma of_N_without_dot (n : N) : PyStr.contains (PyStr.of_N n) "." = false.
Proof.
  unfold PyStr.of_N. induction (N.to_uint n) as [|d IH|d IH|d IH|d IH|d IH|d IH|d IH|d IH|d IH|d IH];
    [done|by simpl; rewrite IH..].
Qed.

Lemma zfill_without_dot (width : nat) (s : string) :
  PyStr.contains s "." = false → PyStr.contains (PyStr.zfill width s) "." = false.
Proof.
  intros Hs. unfold PyStr.zfill. rewrite contains_app, Hs, orb_false_r.
  induction (width - String.length s)%nat as [|k IH]; [done|].
  destruct k; [done|]. simpl in *.
  change (PyStr.contains ("0" +:+ ?x) ".") with (PyStr.contains x "."). done.
Qed.

Lemma strftime_without_dot (t : datetime) : PyStr.contains (strftime t) "." = false.
Proof.
  unfold strftime.
  by rewrite !contains_app, !zfill_without_dot by apply of_N_without_dot.
Qed.

(** No path is named as its own run directory: the name of the run
    directory is the stem of the path after a timestamp, one dot short of the
    name of a path with a suffix, and longer than the name of one without. *)
Lemma name_not_run_name (t : datetime) (path : string) :
  PurePath.name path ≠ strftime t +:+ "_" +:+ PurePath.stem path.
Proof.
  unfold PurePath.stem. set (name := PurePath.name path). unfold PyStr.rfind.
  destruct (rfind_from_spec name "." 0) as [[_ ->]|(a & b & Hname & Hb & ->)]; [lia|..].
  - simpl. intros Heq. apply (f_equal String.length) in Heq.
    rewrite !str_length_app in Heq. simpl in Heq. lia.
  - rewrite Z.add_0_l. case_match.
    + rewrite Hname at 2. rewrite take_app. rewrite Hname. intros Heq.
      apply (f_equal (λ s, count_char s ".")) in Heq.
      rewrite !count_char_app in Heq. simpl in Heq.
      rewrite (count_char_absent b), (count_char_absent (strftime t)) in Heq
        by (done || apply strftime_without_dot).
      lia.
    + intros Heq. apply (f_equal String.length) in Heq.
      rewrite !str_length_app in Heq. simpl in Heq. lia.
Qed.

Lemma name_run_directory (t : datetime) (path : string) :
  PurePath.name (run_directory t path) = strftime t +:+ "_" +:+ PurePath.stem path.
Proof.
  rewrite run_directory_eq.
  change ("outputs/" +:+ ?x) with ("outputs" +:+ "/" +:+ x).
  assert (PyStr.contains (strftime t +:+ "_" +:+ PurePath.stem path) "_" = true) as Hu.
  { rewrite contains_app. change ("_" +:+ ?x) with (String "_" x). simpl.
    by rewrite orb_true_r. }
  apply name_child; [apply run_name_without_slash|by intros Heq; rewrite Heq in Hu..].
Qed.

(** So a path that names nothing, and is not named [outputs], names no
    directory once its run directory is created. *)
Lemma isdir_after_run_directory (path dir : string) (w w0 : World) :
  create_output_directory path w = (Ok dir, w0) →
  FS.exists_ w path = false → PurePath.name path ≠ "outputs" →
  FS.exists_ w0 path = false.
Proof.
  intros (-> & Hf & Hd & _)%create_output_directory_Ok Hmissing Hname.
  apply orb_false_elim in Hmissing as [Hfile Hdir].
  unfold FS.exists_, FS.isfile. rewrite Hf. fold (FS.isfile w path). rewrite Hfile.
  unfold FS.isdir in *. apply bool_decide_eq_false in Hdir.
  apply bool_decide_eq_false. rewrite Hd, ancestors_run_directory.
  change (FS.ancestors "outputs") with (@nil string).
  rewrite !elem_of_union, !elem_of_list_to_set, !elem_of_singleton, elem_of_nil.
  rewrite list_elem_of_singleton.
  assert (path ≠ "outputs") as Hout by (by intros ->).
  assert (path ≠ run_directory (clock w) path) as Hrun.
  { intros Heq. apply (name_not_run_name (clock w) path).
    rewrite Heq at 1. apply name_run_directory. }
  tauto.
Qed.

(** ** The Remote OCR Client *)

Section ClientProperties.
Context `{Externals}.

Lemma save_ocr_results_local (resp : OCR.Response) (output_dir : string) :
  adds_only (λ e, is_remote e = false) (save_ocr_results resp output_dir).
Proof. unfold save_ocr_results. by repeat adds_only_step. Qed.

(** Without an output directory [process_pdf] prepares one and goes on as
    with it. *)
Lemma process_pdf_None (pdf_path api_key : string) (w : World) :
  process_pdf pdf_path api_key None w
  = (output_dir ← prepare_run pdf_path; process_pdf pdf_path api_key (Some output_dir)) w.
Proof.
  unfold process_pdf, prepare_run. rewrite !bind_run.
  destruct (create_output_directory pdf_path w) as [[d|e] w1]; [|done].
  rewrite !bind_run. by destruct (FS.copy2 _ _ w1) as [[[]|e] w2].
Qed.

(** A path that is no regular file is refused before anything is sent. *)
Lemma process_pdf_not_a_file (pdf_path api_key output_dir : string) (w : World) :
  files w !! pdf_path = None →
  process_pdf pdf_path api_key (Some output_dir) w
  = (Raise (FileNotFoundError ("文件不存在: " +:+ pdf_path)), w).
Proof.
  intros Hnone. unfold process_pdf. rewrite bind_run. simpl.
  rewrite bind_run. simpl.
  unfold FS.isfile. rewrite Hnone. by rewrite bool_decide_eq_false_2 by by intros [].
Qed.

(** The run of [process_pdf] on a regular file, call by call. *)
Lemma process_pdf_run (pdf_path api_key output_dir content : string) (w : World) :
  files w !! pdf_path = Some content →
  let upload := upload_call api_key pdf_path content in
  process_pdf pdf_path api_key (Some output_dir) w
  = match files_upload (events w ++ [upload]) api_key (PurePath.stem pdf_path) content "ocr" with
    | Raise e => (Raise e, logged w [upload])
    | Ok file_id =>
        let sign := signed_url_call api_key file_id in
        match files_get_signed_url (events w ++ [upload; sign]) api_key file_id 1 with
        | Raise e => (Raise e, logged w [upload; sign])
        | Ok url =>
            let ocr := ocr_call api_key url in
            match ocr_process (events w ++ [upload; sign; ocr]) api_key url
                    "mistral-ocr-latest" true with
            | Raise e => (Raise e, logged w [upload; sign; ocr])
            | Ok resp => save_ocr_results resp output_dir (logged w [upload; sign; ocr])
            end
        end
    end.
Proof.
  intros Hfile upload. unfold process_pdf. rewrite bind_run. simpl.
  rewrite bind_run. simpl.
  unfold FS.isfile. rewrite Hfile, bool_decide_eq_true_2 by done. simpl.
  rewrite bind_run. unfold FS.read_bytes. rewrite Hfile.
  rewrite bind_run. unfold client_files_upload. rewrite remote_call_run. simpl.
  fold upload.
  destruct (files_upload _ _ _ _ _) as [file_id|e]; [|done].
  rewrite bind_run. unfold client_files_get_signed_url. rewrite remote_call_run.
  simpl. rewrite <- app_assoc. simpl.
  destruct (files_get_signed_url _ _ _ _) as [url|e]; [|by rewrite logged_logged].
  rewrite bind_run. unfold client_ocr_process. rewrite remote_call_run.
  simpl. rewrite <- !app_assoc. simpl.
  destruct (ocr_process _ _ _ _ _) as [resp|e]; [|by rewrite !logged_logged].
  rewrite bind_run, !logged_logged. simpl.
  by destruct (save_ocr_results _ _ _) as [[[md d]|e] w'].
Qed.


(** C7, as amended.  For a document path that names a regular file the
    client sends, in this order and each when the one before was answered,
    (1) the upload of the file's bytes under the file's stem (its name
    without the last extension) and the purpose [ocr], (2) the request of a
    signed URL for the identifier the upload returned, with expiry 1, (3) the
    OCR job for that URL, with model [mistral-ocr-latest] and inline base64
    images asked for; and it sends no other call.  Without an output
    directory the run directory is prepared first, which sends nothing and
    leaves the document as it is. *)
Theorem remote_protocol (pdf_path api_key content : string) (w : World) :
  files w !! pdf_path = Some content →
  let upload := upload_call api_key pdf_path content in
  (∀ output_dir r w', process_pdf pdf_path api_key (Some output_dir) w = (r, w') →
     remote_calls (events w')
     = remote_calls (events w) ++ protocol_calls (events w) api_key pdf_path content)
  ∧ (∀ file_id url,
       files_upload (events w ++ [upload]) api_key (PurePath.stem pdf_path) content "ocr"
       = Ok file_id →
       files_get_signed_url (events w ++ [upload; signed_url_call api_key file_id])
         api_key file_id 1 = Ok url →
       protocol_calls (events w) api_key pdf_path content
       = [upload; signed_url_call api_key file_id; ocr_call api_key url])
  ∧ process_pdf pdf_path api_key None w
    = (output_dir ← prepare_run pdf_path;
       process_pdf pdf_path api_key (Some output_dir)) w
  ∧ (∀ output_dir w0, prepare_run pdf_path w = (Ok output_dir, w0) →
       files w0 !! pdf_path = Some content
       ∧ remote_calls (events w0) = remote_calls (events w)).
Proof.
  intros Hfile upload. split; [|split; [|split]].
  - intros output_dir r w'. rewrite (process_pdf_run _ _ _ content) by done.
    unfold protocol_calls. fold upload.
    destruct (files_upload _ _ _ _ _) as [file_id|e];
      [|intros [= <- <-]; simpl; by rewrite remote_calls_app].
    destruct (files_get_signed_url _ _ _ _) as [url|e];
      [|intros [= <- <-]; simpl; by rewrite remote_calls_app].
    destruct (ocr_process _ _ _ _ _) as [resp|e];
      [|intros [= <- <-]; simpl; by rewrite remote_calls_app].
    intros Hsave.
    rewrite (adds_only_local_calls _ _ _ _ (save_ocr_results_local _ _) Hsave).
    simpl. by rewrite remote_calls_app.
  - intros file_id url Hup Hsign. unfold protocol_calls. fold upload.
    by rewrite Hup, Hsign.
  - apply process_pdf_None.
  - intros output_dir w0 Hprep. split.
    + apply bind_Ok in Hprep as (d & w1 & Hdir & Hcopy).
      apply create_output_directory_Ok in Hdir as (_ & Hf1 & _).
      apply bind_Ok in Hcopy as (? & w2 & Hcopy & [= <- <-]).
      apply copy2_Ok in Hcopy as (target & c & _ & Hne & _ & Hf2 & _).
      by rewrite Hf2, lookup_insert_ne, Hf1.
    + by eapply adds_only_local_calls; [apply prepare_run_local|].
Qed.

(** C9.  When the remote service fails at the submission of the OCR job,
    the client raises the service's error as it is, and has done nothing
    but send its three calls: the file system is as it was when the client
    was entered.  The run that led there, whether [process_file] or
    [process_pdf] without an output directory, ends with that error, and no
    event of it is about [complete.md], [images] or a path below [images]
    of the run's directory. *)
Theorem ocr_failure_leaves_no_artifacts (pdf_path api_key output_dir content : string)
    (w : World) (file_id url : string) (e : Exn) :
  files w !! pdf_path = Some content →
  let upload := upload_call api_key pdf_path content in
  let sign := signed_url_call api_key file_id in
  let ocr := ocr_call api_key url in
  files_upload (events w ++ [upload]) api_key (PurePath.stem pdf_path) content "ocr"
  = Ok file_id →
  files_get_signed_url (events w ++ [upload; sign]) api_key file_id 1 = Ok url →
  ocr_process (events w ++ [upload; sign; ocr]) api_key url "mistral-ocr-latest" true
  = Raise e →
  (∃ w', process_pdf pdf_path api_key (Some output_dir) w = (Raise e, w')
     ∧ files w' = files w
     ∧ dirs w' = dirs w
     ∧ events w' = events w ++ [upload; sign; ocr])
  ∧ (∀ file_path w0,
       normalize file_path w0 = (Ok (pdf_path, output_dir), w) →
       ∃ w' evs, process_file file_path api_key w0 = (Raise e, w')
         ∧ events w' = events w0 ++ evs
         ∧ Forall (spares_assembly output_dir) evs)
  ∧ (∀ w0,
       prepare_run pdf_path w0 = (Ok output_dir, w) →
       ∃ w' evs, process_pdf pdf_path api_key None w0 = (Raise e, w')
         ∧ events w' = events w0 ++ evs
         ∧ Forall (spares_assembly output_dir) evs).
Proof.
  intros Hfile upload sign ocr Hup Hsign Hocr.
  assert (process_pdf pdf_path api_key (Some output_dir) w
          = (Raise e, logged w [upload; sign; ocr])) as Hrun.
  { rewrite (process_pdf_run _ _ _ content) by done.
    subst upload sign ocr. cbv zeta. by rewrite Hup, Hsign, Hocr. }
  assert (Forall (spares_assembly output_dir) [upload; sign; ocr]) as Hcalls.
  { by repeat constructor. }
  split; [by exists (logged w [upload; sign; ocr])|]. split.
  - intros file_path w0 Hnorm.
    pose proof (normalize_spares _ _ _ _ Hnorm) as (evs & He & Hs & Hdir).
    rewrite <- (Hdir _ _ eq_refl) in Hs.
    exists (logged w [upload; sign; ocr]), (evs ++ [upload; sign; ocr]).
    rewrite process_file_normalize, bind_run, Hnorm. split; [done|].
    split; [by simpl; rewrite He, <- app_assoc|by apply Forall_app].
  - intros w0 Hprep.
    pose proof (prepare_run_spares _ _ _ _ Hprep) as (evs & He & Hs & Hdir).
    rewrite <- (Hdir _ eq_refl) in Hs.
    exists (logged w [upload; sign; ocr]), (evs ++ [upload; sign; ocr]).
    rewrite process_pdf_None, bind_run, Hprep. split; [done|].
    split; [by simpl; rewrite He, <- app_assoc|by apply Forall_app].
Qed.

End ClientProperties.



Lemma remote_protocol_witness :
  let ext := Sample.externals (Ok "file-1") (Ok "https://signed/1") (Ok Sample.two_plain_pages) in
  let w := Sample.world {[ "doc.pdf" := "%PDF" ]} in
  let w' := (@process_pdf ext "doc.pdf" "KEY" (Some "out") w).2 in
  files w !! "doc.pdf" = Some "%PDF"
  ∧ remote_calls (events w')
    = [EvUpload "KEY" "doc" "%PDF" "ocr"; EvSignedUrl "KEY" "file-1" 1;
       EvOcr "KEY" "https://signed/1" "mistral-ocr-latest" true].
Proof.
  intros. assert (files w !! "doc.pdf" = Some "%PDF") as Hfile by done.
  split; [exact Hfile|].
  destruct (@remote_protocol ext "doc.pdf" "KEY" "%PDF" w Hfile) as (Hcalls & _).
  rewrite (Hcalls "out" (@process_pdf ext "doc.pdf" "KEY" (Some "out") w).1 w')
    by (by destruct (@process_pdf ext "doc.pdf" "KEY" (Some "out") w)).
  by vm_compute.
Defined.

(** C7, as stated, fails on [doc.pdf]: the name sent with the upload is the
    stem [doc], not the base file name [doc.pdf].  And when the service
    refuses the upload, the upload is the only call. *)
Lemma upload_name_counterexample :
  let ext := Sample.externals (Ok "file-1") (Ok "https://signed/1") (Ok Sample.two_plain_pages) in
  let refused := LibraryError "SDKError" "Status 401" in
  let ext' := Sample.externals (Raise refused) (Ok "https://signed/1") (Ok Sample.two_plain_pages) in
  let w := Sample.world {[ "doc.pdf" := "%PDF" ]} in
  remote_calls (events (@process_pdf ext "doc.pdf" "KEY" (Some "out") w).2) !! 0%nat
  = Some (EvUpload "KEY" "doc" "%PDF" "ocr")
  ∧ FS.basename "doc.pdf" = "doc.pdf"
  ∧ "doc" ≠ "doc.pdf"
  ∧ @process_pdf ext' "doc.pdf" "KEY" (Some "out") w
    = (Raise refused, logged w [EvUpload "KEY" "doc" "%PDF" "ocr"]).
Proof. repeat split; by vm_compute. Qed.

Lemma ocr_failure_leaves_no_artifacts_witness :
  let failure := LibraryError "SDKError" "Status 503" in
  let ext := Sample.externals (Ok "file-1") (Ok "https://signed/1") (Raise failure) in
  let w := Sample.world {[ "doc.pdf" := "%PDF" ]} in
  files w !! "doc.pdf" = Some "%PDF"
  ∧ ∃ w', @process_pdf ext "doc.pdf" "KEY" (Some "out") w = (Raise failure, w')
      ∧ files w' = files w
      ∧ dirs w' = dirs w
      ∧ events w' = [EvUpload "KEY" "doc" "%PDF" "ocr"; EvSignedUrl "KEY" "file-1" 1;
                     EvOcr "KEY" "https://signed/1" "mistral-ocr-latest" true].
Proof.
  intros. assert (files w !! "doc.pdf" = Some "%PDF") as Hfile by done.
  split; [exact Hfile|].
  destruct (@ocr_failure_leaves_no_artifacts ext "doc.pdf" "KEY" "out" "%PDF" w
              "file-1" "https://signed/1" failure Hfile eq_refl eq_refl eq_refl)
    as ((w' & Hrun & Hf & Hd & He) & _).
  exists w'. by rewrite He.
Defined.

(** * Further properties of the pipeline *)

(** ** Rewriting image references *)

(** Replacing a text by itself changes nothing. *)
Lemma replace_from_same (fuel : nat) (old s : string) :
  PyStr.replace_from fuel old old s = s.
Proof.
  revert s. induction fuel as [|fuel IH]; intros s; [done|]. simpl.
  destruct (PyStr.strip_prefix old s) as [rest|] eqn:E.
  - apply strip_prefix_Some in E as ->. by rewrite IH.
  - destruct s as [|c s]; [done|]. by rewrite IH.
Qed.

Lemma interleave_nil (s : string) : PyStr.interleave "" s = s.
Proof. induction s as [|c s IH]; [done|]. simpl. by rewrite IH. Qed.

Lemma replace_same (s old : string) : PyStr.replace s old old = s.
Proof.
  unfold PyStr.replace. destruct old; [apply interleave_nil|apply replace_from_same].
Qed.

(** X1.  A text that holds no reference [![name](name)] to a name of the
    dictionary is returned as it is. *)
Theorem rewrite_without_references (markdown_str : string) (images_dict : dict) :
  (∀ img_name img_path, (img_name, img_path) ∈ images_dict →
     ¬ occurs (image_ref img_name img_name) markdown_str) →
  replace_images_in_markdown markdown_str images_dict = markdown_str.
Proof.
  unfold replace_images_in_markdown.
  induction images_dict as [|[img_name img_path] images_dict IH]; intros Hno; [done|].
  cbn [fold_left]. rewrite replace_absent.
  - apply IH. intros n p Hin. apply (Hno n p). by right.
  - apply (image_ref_nonempty img_name img_name).
  - apply (Hno img_name img_path). by left.
Qed.

Lemma rewrite_without_references_witness :
  (∀ img_name img_path, (img_name, img_path) ∈ [("a", "images/a.png")] →
     ¬ occurs (image_ref img_name img_name) "See ![b](b).")
  ∧ replace_images_in_markdown "See ![b](b)." [("a", "images/a.png")] = "See ![b](b).".
Proof.
  assert (∀ img_name img_path, (img_name, img_path) ∈ [("a", "images/a.png")] →
            ¬ occurs (image_ref img_name img_name) "See ![b](b).") as Hno.
  { intros n p [= -> ->]%list_elem_of_singleton (l & r & Heq).
    do 6 (destruct l as [|? l]; [by vm_compute in Heq|];
          rewrite str_app_cons in Heq; injection Heq as _ Heq).
    apply (f_equal String.length) in Heq. rewrite !str_length_app in Heq.
    simpl in Heq. lia. }
  split; [exact Hno|]. exact (rewrite_without_references _ _ Hno).
Defined.

(** ** The assembler: repeated identifiers *)

Section RepeatedIdentifiers.
Context `{Externals}.

(** X2.  An image saved more than once, under one identifier in one page
    or in several, leaves the payload saved last: the file of an image after
    which no image of the response has the same path holds that image's
    decoded payload. *)
Theorem assemble_last_image_wins (resp : OCR.Response) (output_dir : string)
    (w w' : World) (r : string * string)
    (before : list OCR.ImageObject) (img : OCR.ImageObject) (after : list OCR.ImageObject) :
  save_ocr_results resp output_dir w = (Ok r, w') →
  all_images resp = before ++ img :: after →
  image_path output_dir img ∉ map (image_path output_dir) after →
  ∃ data, decodes_to img data ∧ files w' !! image_path output_dir img = Some data.
Proof.
  intros Hrun Himgs Hlast.
  apply save_ocr_results_Ok in Hrun as (datas & Hdatas & _ & Hf & _).
  rewrite Himgs in Hdatas, Hf.
  apply Forall2_app_inv_l in Hdatas as (datas1 & datas' & Hdatas1 & Hdatas' & ->).
  apply Forall2_cons_inv_l in Hdatas' as (data & datas2 & Hdata & Hdatas2 & ->).
  exists data. split; [done|].
  rewrite Hf, lookup_insert_ne by (symmetry; apply image_path_not_complete_md).
  rewrite image_files_app by (by eapply Forall2_length).
  change (img :: after) with ([img] ++ after).
  change (data :: datas2) with ([data] ++ datas2).
  rewrite image_files_app by done.
  rewrite image_files_lookup_other by done.
  unfold image_files. simpl. apply lookup_insert_eq.
Qed.

End RepeatedIdentifiers.

Lemma assemble_last_image_wins_witness :
  let ext := Sample.externals (Ok "id") (Ok "url") (Ok Sample.two_plain_pages) in
  let older := {| OCR.id := "x"; OCR.image_base64 := "data:image/png;base64,QUJD" |} in
  let newer := {| OCR.id := "x"; OCR.image_base64 := "data:image/png;base64,REVG" |} in
  let resp :=
    {| OCR.pages := [ {| OCR.markdown := "One"; OCR.images := [older] |};
                      {| OCR.markdown := "Two"; OCR.images := [newer] |} ] |} in
  let w' := (@save_ocr_results ext resp "out" (Sample.world ∅)).2 in
  @save_ocr_results ext resp "out" (Sample.world ∅)
  = (Ok ("One" +:+ PyStr.LF +:+ PyStr.LF +:+ "Two", "out"), w')
  ∧ all_images resp = [older] ++ newer :: []
  ∧ (image_path "out" newer ∉ map (image_path "out") [])
  ∧ files w' !! "out/images/x.png" = Some "DEF"
  ∧ ∃ data, @decodes_to ext newer data ∧ files w' !! image_path "out" newer = Some data.
Proof.
  intros.
  assert (@save_ocr_results ext resp "out" (Sample.world ∅)
          = (Ok ("One" +:+ PyStr.LF +:+ PyStr.LF +:+ "Two", "out"), w')) as Hrun
    by (by vm_compute).
  assert (image_path "out" newer ∉ map (image_path "out") []) as Hlast
    by apply not_elem_of_nil.
  split; [exact Hrun|]. split; [done|]. split; [exact Hlast|]. split; [by vm_compute|].
  exact (@assemble_last_image_wins ext resp "out" (Sample.world ∅) w' _
           [older] newer [] Hrun eq_refl Hlast).
Defined.

(** ** The classifier and the format of an image *)

(** A path is what precedes its base name, then its base name. *)
Lemma basename_split (p : string) :
  ∃ pre, p = pre +:+ FS.basename p ∧ PyStr.rfind p "/" + 1 = PyStr.len pre.
Proof.
  unfold FS.basename, PyStr.rfind.
  destruct (rfind_from_spec p "/" 0) as [[Hp ->]|(a & b & -> & Hb & ->)]; [lia|..].
  - exists "". pose proof (drop_app "" p) as Hdrop. rewrite str_app_nil_l in Hdrop.
    change (-1 + 1) with (PyStr.len ""). by rewrite Hdrop.
  - exists (a +:+ "/").
    replace (0 + PyStr.len a + 1) with (PyStr.len (a +:+ "/"))
      by (unfold PyStr.len; rewrite str_length_app; simpl; lia).
    change (String "/" b) with ("/" +:+ b).
    by rewrite <- (str_app_assoc a "/" b), drop_app.
Qed.

Lemma contains_lower_dot (s : string) :
  PyStr.contains (PyStr.lower s) "." = PyStr.contains s ".".
Proof.
  induction s as [|c s IH]; [done|]. simpl. rewrite IH. f_equal.
  apply bool_decide_ext, lower_char_dot.
Qed.

(** A base name made of dots, a dot and a word without dot has no
    extension. *)
Lemma splitext_hidden (p dots name : string) :
  FS.basename p = dots +:+ String "." name →
  PyStr.all_char dots "." = true → PyStr.contains name "." = false →
  PosixPath.splitext p = (p, "").
Proof.
  intros Hbase Hdots Hname.
  destruct (basename_split p) as (pre & Hp & Hsep). rewrite Hbase in Hp.
  unfold PosixPath.splitext.
  assert (PyStr.rfind p "." = PyStr.len (pre +:+ dots)) as Hdot.
  { rewrite Hp at 1. rewrite <- str_app_assoc. by apply rfind_last. }
  rewrite Hdot.
  assert (PyStr.len (pre +:+ dots) = PyStr.len pre + PyStr.len dots) as Hlen.
  { unfold PyStr.len. rewrite str_length_app. lia. }
  assert (0 ≤ PyStr.len dots) as Hnn by (unfold PyStr.len; lia).
  destruct (PyStr.rfind p "/" <? PyStr.len (pre +:+ dots)) eqn:E;
    [|apply Z.ltb_ge in E; lia].
  assert (PyStr.slice (PyStr.rfind p "/" + 1) (PyStr.len (pre +:+ dots)) p = dots) as ->.
  { rewrite Hsep, Hlen. unfold PyStr.slice, PyStr.len. rewrite Hp at 1.
    rewrite Nat2Z.id.
    replace (Z.to_nat (Z.of_nat (String.length pre) + Z.of_nat (String.length dots))
             - String.length pre)%nat with (String.length dots) by lia.
    rewrite substring_skip, substring_prefix by done. apply substring_all. }
  by rewrite Hdots.
Qed.

Section InspectionProperties.
Context `{Externals}.

(** X3.  A file whose name is dots, a dot and a word without dot, as
    [.png] or [dir/.jpg], has no extension for [os.path.splitext] and is
    never an image for the classifier, whatever it holds. *)
Theorem hidden_file_is_document (file_path dots name : string) (w : World) :
  FS.basename file_path = dots +:+ String "." name →
  PyStr.all_char dots "." = true →
  PyStr.contains name "." = false →
  is_image_file file_path w = (Ok false, w).
Proof.
  intros Hbase Hdots Hname. rewrite is_image_file_run.
  assert (supported_extension file_path = false) as ->; [|done].
  unfold supported_extension.
  rewrite (splitext_hidden _ (PyStr.lower dots) (PyStr.lower name)).
  - done.
  - rewrite basename_lower, Hbase, lower_app. done.
  - by rewrite (all_char_lower "." lower_char_dot).
  - by rewrite contains_lower_dot.
Qed.

(** X4.  [get_image_format] never raises and changes nothing.  It names
    the format PIL reads off the content of the file, whatever the extension
    of the path, and answers [未知] when the file cannot be read, when PIL
    fails on it and when the format is missing or empty; so it names a
    format for every file the classifier takes for an image, unless that
    format is empty. *)
Theorem image_format_of_content (file_path : string) (w : World) :
  ∃ answer, get_image_format file_path w = (Ok answer, w)
    ∧ (files w !! file_path = None → answer = "未知")
    ∧ (∀ content, files w !! file_path = Some content →
         answer = match pil_open content with
                  | Ok (Some fmt) => if bool_decide (fmt = "") then "未知" else fmt
                  | _ => "未知"
                  end)
    ∧ (answer ≠ "未知" → decodes_as_image w file_path = true)
    ∧ (is_image_file file_path w = (Ok true, w) →
       ∃ content fmt, files w !! file_path = Some content
         ∧ pil_open content = Ok (Some fmt)
         ∧ (fmt ≠ "" → answer = fmt)).
Proof.
  unfold get_image_format, try_except, Image_open. rewrite !bind_run.
  unfold FS.read_bytes. rewrite is_image_file_run. unfold decodes_as_image.
  destruct (files w !! file_path) as [content|] eqn:Hfile.
  - unfold lift. destruct (pil_open content) as [[fmt|]|e] eqn:Hpil.
    + exists (if bool_decide (fmt = "") then "未知" else fmt).
      split; [done|]. split; [done|]. split.
      { intros c [= <-]. by rewrite Hpil. }
      split; [done|]. intros _. exists content, fmt. split; [done|]. split; [done|].
      intros Hfmt. by rewrite bool_decide_eq_false_2.
    + exists "未知". split; [done|]. split; [done|]. split.
      { intros c [= <-]. by rewrite Hpil. }
      split; [done|]. rewrite andb_false_r. done.
    + exists "未知". split; [done|]. split; [done|]. split.
      { intros c [= <-]. by rewrite Hpil. }
      split; [done|]. rewrite andb_false_r. done.
  - exists "未知". split; [by destruct (FS.isdir w file_path), (existsb (FS.isfile w) (FS.ancestors file_path))|].
    split; [done|].
    split; [done|]. split; [done|]. rewrite andb_false_r. done.
Qed.

End InspectionProperties.

Lemma hidden_file_is_document_witness :
  let ext := Sample.externals (Ok "id") (Ok "url") (Ok Sample.two_plain_pages) in
  let w := Sample.world {[ "scans/.png" := String (ascii_of_nat 137) "PNG" ]} in
  FS.basename "scans/.png" = "" +:+ String "." "png"
  ∧ PyStr.all_char "" "." = true
  ∧ PyStr.contains "png" "." = false
  ∧ @decodes_as_image ext w "scans/.png" = true
  ∧ @is_image_file ext "scans/.png" w = (Ok false, w).
Proof.
  intros. split; [done|]. split; [done|]. split; [done|]. split; [by vm_compute|].
  exact (@hidden_file_is_document ext "scans/.png" "" "png" w eq_refl eq_refl eq_refl).
Defined.

(** ** The conversion of an image *)

Section ConversionProperties.
Context `{Externals}.

(** X5.  A conversion that returns has written what [img2pdf] made of the
    image to [converted.pdf] in the output directory, and returns that path.
    The file is opened, and emptied, before the image is read. *)
Theorem convert_image_writes_pdf (image_path output_dir : string) (w w' : World)
    (result : string) :
  convert_image_to_pdf image_path output_dir w = (Ok result, w') →
  let pdf_path := PosixPath.join output_dir "converted.pdf" in
  result = pdf_path
  ∧ ∃ content pdf,
      <[pdf_path := ""]> (files w) !! image_path = Some content
      ∧ (image_path ≠ pdf_path → files w !! image_path = Some content)
      ∧ img2pdf_convert content = Ok pdf
      ∧ files w' = <[pdf_path := pdf]> (files w)
      ∧ dirs w' = dirs w
      ∧ clock w' = clock w
      ∧ events w' = events w ++ [EvOpen pdf_path; EvWrite pdf_path pdf].
Proof.
  intros Hrun pdf_path. unfold convert_image_to_pdf, try_except in Hrun.
  fold pdf_path in Hrun.
  destruct ((FS.open_w pdf_path;; _) w) as [[p|e] w1] eqn:Hbody; [|done].
  injection Hrun as -> ->.
  apply bind_Ok in Hbody as (? & w1 & (Hf1 & Hd1 & Hc1 & He1)%open_w_Ok & Hbody).
  apply bind_Ok in Hbody as (content & w2 & Hread & Hbody).
  unfold FS.read_bytes in Hread.
  destruct (files w1 !! image_path) as [c|] eqn:Hsrc; [|by repeat case_match].
  injection Hread as -> <-.
  apply bind_Ok in Hbody as (pdf & w2 & [= Hpdf <-] & Hbody).
  apply bind_Ok in Hbody as (? & w3 & [= Hw3] & [= <- <-]).
  split; [done|]. exists content, pdf. simpl. rewrite Hf1 in *.
  split; [done|]. split; [intros Hne; by rewrite lookup_insert_ne in Hsrc|].
  split; [done|]. subst w3. simpl.
  split; [by rewrite lookup_insert_eq, insert_insert_eq|].
  split; [done|]. split; [done|]. by rewrite He1, <- app_assoc.
Qed.

(** X6.  A conversion that fails raises a plain [Exception] whose message
    is [图片转换为PDF失败: ] followed by the text of the error, whatever the
    class of that error.  Unless [converted.pdf] could not be opened, the
    failure leaves it behind, empty. *)
Theorem convert_image_failure (image_path output_dir : string) (w w' : World) (e : Exn) :
  convert_image_to_pdf image_path output_dir w = (Raise e, w') →
  let pdf_path := PosixPath.join output_dir "converted.pdf" in
  (∃ cause, e = Exception ("图片转换为PDF失败: " +:+ exn_str cause))
  ∧ ((w' = w ∧ ∃ cause, FS.open_w pdf_path w = (Raise cause, w))
     ∨ (files w' = <[pdf_path := ""]> (files w)
        ∧ dirs w' = dirs w
        ∧ clock w' = clock w
        ∧ events w' = events w ++ [EvOpen pdf_path])).
Proof.
  intros Hrun pdf_path. unfold convert_image_to_pdf, try_except in Hrun.
  fold pdf_path in Hrun.
  destruct ((FS.open_w pdf_path;; _) w) as [[p|cause] w1] eqn:Hbody; [done|].
  injection Hrun as <- <-. split; [by exists cause|].
  apply bind_Raise in Hbody as [Hopen|(? & w2 & (Hf1 & Hd1 & Hc1 & He1)%open_w_Ok & Hbody)].
  { pose proof (open_w_Raise _ _ _ _ Hopen) as ->. left. eauto. }
  right.
  apply bind_Raise in Hbody as [Hread|(content & w3 & Hread & Hbody)].
  { unfold FS.read_bytes in Hread. repeat case_match; by injection Hread as _ <-. }
  unfold FS.read_bytes in Hread.
  destruct (files w2 !! image_path); [|by repeat case_match]. injection Hread as -> <-.
  apply bind_Raise in Hbody as [Hpdf|(pdf & w4 & _ & Hbody)].
  { by injection Hpdf as _ <-. }
  by apply bind_Raise in Hbody as [Hw|(? & ? & _ & [=])].
Qed.

End ConversionProperties.

Lemma convert_image_writes_pdf_witness :
  let ext := Sample.externals (Ok "id") (Ok "url") (Ok Sample.two_plain_pages) in
  let png := String (ascii_of_nat 137) "PNG" in
  let w := {| files := {[ "a.png" := png ]}; dirs := {[ "out" ]};
              clock := Sample.noon; events := [] |} in
  let w' := (@convert_image_to_pdf ext "a.png" "out" w).2 in
  let pdf_path := PosixPath.join "out" "converted.pdf" in
  @convert_image_to_pdf ext "a.png" "out" w = (Ok "out/converted.pdf", w')
  ∧ "out/converted.pdf" = pdf_path
  ∧ ∃ content pdf,
      <[pdf_path := ""]> (files w) !! "a.png" = Some content
      ∧ ("a.png" ≠ pdf_path → files w !! "a.png" = Some content)
      ∧ @img2pdf_convert ext content = Ok pdf
      ∧ files w' = <[pdf_path := pdf]> (files w)
      ∧ dirs w' = dirs w
      ∧ clock w' = clock w
      ∧ events w' = events w ++ [EvOpen pdf_path; EvWrite pdf_path pdf].
Proof.
  intros.
  assert (@convert_image_to_pdf ext "a.png" "out" w = (Ok "out/converted.pdf", w')) as Hrun
    by (by vm_compute).
  split; [exact Hrun|].
  exact (@convert_image_writes_pdf ext "a.png" "out" w w' _ Hrun).
Defined.

Lemma convert_image_failure_witness :
  let ext := Sample.externals (Ok "id") (Ok "url") (Ok Sample.two_plain_pages) in
  let w := {| files := {[ "a.png" := "text" ]}; dirs := {[ "out" ]};
              clock := Sample.noon; events := [] |} in
  let w' := (@convert_image_to_pdf ext "a.png" "out" w).2 in
  let e := Exception "图片转换为PDF失败: cannot identify image file" in
  let pdf_path := PosixPath.join "out" "converted.pdf" in
  @convert_image_to_pdf ext "a.png" "out" w = (Raise e, w')
  ∧ files w' !! "out/converted.pdf" = Some ""
  ∧ (∃ cause, e = Exception ("图片转换为PDF失败: " +:+ exn_str cause))
  ∧ ((w' = w ∧ ∃ cause, FS.open_w pdf_path w = (Raise cause, w))
     ∨ (files w' = <[pdf_path := ""]> (files w)
        ∧ dirs w' = dirs w
        ∧ clock w' = clock w
        ∧ events w' = events w ++ [EvOpen pdf_path])).
Proof.
  intros.
  assert (@convert_image_to_pdf ext "a.png" "out" w = (Raise e, w')) as Hrun
    by (by vm_compute).
  split; [exact Hrun|]. split; [by vm_compute|].
  exact (@convert_image_failure ext "a.png" "out" w w' e Hrun).
Defined.

(** ** The names of the files of a run *)

Lemma basename_child (a x : string) :
  PyStr.contains x "/" = false → FS.basename (a +:+ "/" +:+ x) = x.
Proof.
  intros Hx. unfold FS.basename. change ("/" +:+ x) with (String "/" x).
  rewrite rfind_last by done.
  replace (PyStr.len a + 1) with (PyStr.len (a +:+ "/"))
    by (unfold PyStr.len; rewrite str_length_app; simpl; lia).
  change (String "/" x) with ("/" +:+ x).
  by rewrite <- (str_app_assoc a "/" x), drop_app.
Qed.

(** A suffix is empty, or a dot and a word without dot or separator. *)
Lemma suffix_shape (p : string) :
  PurePath.suffix p = ""
  ∨ ∃ x, PurePath.suffix p = String "." x ∧ x ≠ ""
         ∧ PyStr.contains x "." = false ∧ PyStr.contains x "/" = false.
Proof.
  unfold PurePath.suffix. pose proof (name_without_slash p) as Hslash.
  set (name := PurePath.name p) in *. unfold PyStr.rfind.
  destruct (rfind_from_spec name "." 0) as [[_ ->]|(a & b & Hname & Hb & ->)];
    [lia|by left|].
  case_match eqn:Hcond; [|by left]. right. exists b.
  apply andb_prop in Hcond as [Hlo Hhi]. apply Z.ltb_lt in Hlo, Hhi.
  rewrite Hname in Hhi |- *. rewrite Z.add_0_l.
  change (String "." b) with ("." +:+ b) at 1.
  rewrite drop_app. split; [done|]. split; [|split; [done|]].
  - intros ->. unfold PyStr.len in Hhi. rewrite str_length_app in Hhi. simpl in Hhi. lia.
  - rewrite Hname, contains_app in Hslash. apply orb_false_elim in Hslash as [_ Hs].
    by simpl in Hs.
Qed.

(** The copy of the original is named [origin], whatever its suffix. *)
Lemma stem_origin (dir p : string) :
  PurePath.stem (dir +:+ "/" +:+ "origin" +:+ PurePath.suffix p) = "origin".
Proof.
  unfold PurePath.stem.
  destruct (suffix_shape p) as [->|(x & -> & Hne & Hdot & Hslash)].
  - rewrite str_app_nil_r, name_child by done. by vm_compute.
  - rewrite name_child; [|by rewrite contains_app; simpl; rewrite Hslash|done|done].
    rewrite rfind_last by done.
    assert (PyStr.len ("origin" +:+ String "." x) - 1 = 6 + PyStr.len x) as ->.
    { unfold PyStr.len. rewrite str_length_app. simpl. lia. }
    assert (0 < PyStr.len x) as Hlen.
    { unfold PyStr.len. destruct x; [done|simpl; lia]. }
    change (PyStr.len "origin") with 6.
    destruct ((0 <? 6) && (6 <? 6 + PyStr.len x)) eqn:E.
    + change 6 with (PyStr.len "origin"). apply take_app.
    + apply andb_false_iff in E as [E|E]; apply Z.ltb_ge in E; lia.
Qed.

Lemma stem_converted (dir : string) :
  PurePath.stem (dir +:+ "/" +:+ "converted.pdf") = "converted".
Proof. unfold PurePath.stem. rewrite name_child by done. by vm_compute. Qed.

(** ** What [process_file] hands to the client *)

(** A copy onto a path that is no directory writes that path. *)
Lemma copy2_to_file (src dst : string) (w w' : World) (u : ()) :
  FS.copy2 src dst w = (Ok u, w') → FS.isdir w dst = false →
  ∃ content,
    files w !! src = Some content
    ∧ dst ≠ src
    ∧ files w' = <[dst := content]> (files w)
    ∧ dirs w' = dirs w
    ∧ clock w' = clock w
    ∧ events w' = events w ++ [EvOpen dst; EvWrite dst content].
Proof.
  intros Hcopy Hdst. unfold FS.copy2, FS.path_isdir, FS.path_exists in Hcopy.
  rewrite bind_run in Hcopy. simpl in Hcopy. rewrite Hdst, bind_run in Hcopy.
  simpl in Hcopy.
  destruct (bool_decide (src = dst) && FS.exists_ w src) eqn:Hsame; [done|].
  apply bind_Ok in Hcopy as (content & w1 & Hread & Hrun).
  unfold FS.read_bytes in Hread.
  destruct (files w !! src) as [c|] eqn:Hsrc; [|by repeat case_match].
  injection Hread as -> <-.
  assert (Hrun' : (FS.open_w dst;; FS.write dst content;; mret ()) w = (Ok u, w')).
  { rewrite bind_run in *. destruct (FS.open_w dst w) as [[[]|e] w2]; [|done].
    rewrite bind_run. by destruct u. }
  apply open_write_Ok in Hrun' as (w2 & Hf & Hd & Hc & He & Hw).
  assert (w2 = w') as -> by (by injection Hw).
  exists content. repeat split; try done.
  intros ->. apply andb_false_iff in Hsame as [Hne|Hex].
  - by apply bool_decide_eq_false in Hne.
  - unfold FS.exists_, FS.isfile in Hex. apply orb_false_elim in Hex as [Hex _].
    apply bool_decide_eq_false in Hex. apply Hex. by rewrite Hsrc.
Qed.

Lemma run_directory_child (t : datetime) (path x : string) :
  PyStr.startswith x "/" = false →
  PosixPath.join (run_directory t path) x = run_directory t path +:+ "/" +:+ x.
Proof.
  intros Hx. by rewrite join_relative, run_directory_prefix, str_app_assoc.
Qed.

(** A path below a run directory is none of the directories
    [create_output_directory] makes. *)
Lemma isdir_after_create (path x dir : string) (w w' : World) :
  create_output_directory path w = (Ok dir, w') →
  FS.isdir w' (dir +:+ "/" +:+ x) = FS.isdir w (dir +:+ "/" +:+ x).
Proof.
  intros (-> & _ & Hd & _)%create_output_directory_Ok.
  unfold FS.isdir. apply bool_decide_ext. rewrite Hd, ancestors_run_directory.
  set (dir := run_directory (clock w) path) in *.
  change (FS.ancestors "outputs") with (@nil string).
  rewrite !elem_of_union, !elem_of_list_to_set, !elem_of_singleton, elem_of_nil.
  rewrite list_elem_of_singleton.
  assert (dir +:+ "/" +:+ x ≠ "outputs") as Hout.
  { unfold dir. rewrite run_directory_eq. intros Heq.
    apply (f_equal String.length) in Heq. rewrite !str_length_app in Heq.
    simpl in Heq. lia. }
  assert (dir +:+ "/" +:+ x ≠ dir) as Hdir.
  { intros Heq. apply (f_equal String.length) in Heq. rewrite !str_length_app in Heq.
    simpl in Heq. lia. }
  tauto.
Qed.

Section NormalizedDocument.
Context `{Externals}.

(** The classifier reads the file only: a world with the same file gives
    the same answer. *)
Lemma is_image_file_same_file (file_path : string) (w w' : World) :
  files w' !! file_path = files w !! file_path →
  (is_image_file file_path w').1 = (is_image_file file_path w).1.
Proof.
  intros Hfile. rewrite !is_image_file_run. unfold decodes_as_image. by rewrite Hfile.
Qed.

(** No image is named [converted.pdf]. *)
Lemma converted_pdf_unsupported (dir : string) :
  supported_extension (dir +:+ "/" +:+ "converted.pdf") = false.
Proof.
  unfold supported_extension. rewrite !lower_app.
  change (PyStr.lower "/") with "/". change (PyStr.lower "converted.pdf") with "converted.pdf".
  change ("/" +:+ "converted.pdf") with ("/" +:+ "converted" +:+ String "." "pdf").
  rewrite <- !str_app_assoc, splitext_extension; [done..|].
  rewrite str_app_assoc, basename_child; done.
Qed.

(** What the conversion of an image that returns has done. *)
Lemma convert_image_to_pdf_Ok (image_path output_dir result : string) (w w' : World) :
  convert_image_to_pdf image_path output_dir w = (Ok result, w') →
  let pdf_path := PosixPath.join output_dir "converted.pdf" in
  result = pdf_path
  ∧ ∃ content pdf,
      <[pdf_path := ""]> (files w) !! image_path = Some content
      ∧ img2pdf_convert content = Ok pdf
      ∧ files w' = <[pdf_path := pdf]> (files w)
      ∧ dirs w' = dirs w
      ∧ clock w' = clock w
      ∧ events w' = events w ++ [EvOpen pdf_path; EvWrite pdf_path pdf].
Proof.
  intros Hrun pdf_path. unfold convert_image_to_pdf, try_except in Hrun.
  fold pdf_path in Hrun.
  destruct ((FS.open_w pdf_path;; _) w) as [[p|e] w1] eqn:Hbody; [|done].
  injection Hrun as -> ->.
  apply bind_Ok in Hbody as (? & w1 & (Hf1 & Hd1 & Hc1 & He1)%open_w_Ok & Hbody).
  apply bind_Ok in Hbody as (content & w2 & Hread & Hbody).
  unfold FS.read_bytes in Hread.
  destruct (files w1 !! image_path) as [c|] eqn:Hsrc; [|by repeat case_match].
  injection Hread as -> <-.
  apply bind_Ok in Hbody as (pdf & w2 & [= Hpdf <-] & Hbody).
  apply bind_Ok in Hbody as (? & w3 & [= Hw3] & [= <- <-]).
  split; [done|]. exists content, pdf. simpl. rewrite Hf1 in *.
  split; [done|]. split; [done|]. subst w3. simpl.
  split; [by rewrite lookup_insert_eq, insert_insert_eq|].
  split; [done|]. split; [done|]. by rewrite He1, <- app_assoc.
Qed.

(** What a normalization that returns has done: the run directory, the
    copy of the original, and for an image its conversion. *)
Lemma normalize_Ok (file_path doc dir : string) (w w1 : World) :
  normalize file_path w = (Ok (doc, dir), w1) →
  let origin := dir +:+ "/" +:+ "origin" +:+ PurePath.suffix file_path in
  let converted := dir +:+ "/" +:+ "converted.pdf" in
  FS.isdir w origin = false →
  dir = run_directory (clock w) file_path
  ∧ ∃ content,
      files w !! file_path = Some content
      ∧ origin ≠ file_path
      ∧ dirs w1 = dirs w ∪ {[ "outputs" ]} ∪ {[ dir ]}
      ∧ clock w1 = clock w
      ∧ (((is_image_file file_path w).1 = Ok false
          ∧ doc = origin
          ∧ files w1 = <[origin := content]> (files w)
          ∧ events w1 = events w ++ [EvMakedirs "outputs"; EvMakedirs dir;
                                     EvOpen origin; EvWrite origin content])
         ∨ ((is_image_file file_path w).1 = Ok true
            ∧ doc = converted
            ∧ ∃ pdf, img2pdf_convert content = Ok pdf
                ∧ files w1 = <[converted := pdf]> (<[origin := content]> (files w))
                ∧ events w1 = events w ++ [EvMakedirs "outputs"; EvMakedirs dir;
                                           EvOpen origin; EvWrite origin content;
                                           EvOpen converted; EvWrite converted pdf])).
Proof.
  intros Hnorm origin converted Horigin. unfold normalize in Hnorm.
  apply bind_Ok in Hnorm as (d & w2 & Hdir & Hnorm).
  pose proof (isdir_after_create _ ("origin" +:+ PurePath.suffix file_path) _ _ _ Hdir)
    as Hisdir.
  apply create_output_directory_Ok in Hdir as (-> & Hf2 & Hd2 & Hc2 & He2).
  rewrite run_directory_child in Hnorm by done.
  set (d := run_directory (clock w) file_path) in *.
  apply bind_Ok in Hnorm as (? & w3 & Hcopy & Hnorm).
  apply bind_Ok in Hnorm as (is_image & w4 & Himage & Hnorm).
  apply bind_Ok in Hnorm as (document & w5 & Hdoc & [= <- <- <-]).
  fold origin in Hcopy, Hisdir, Hdoc.
  apply copy2_to_file in Hcopy as (content & Hsrc & Hne & Hf3 & Hd3 & Hc3 & He3);
    [|by rewrite Hisdir].
  rewrite Hf2 in Hsrc, Hf3.
  assert (dirs w3 = dirs w ∪ {[ "outputs" ]} ∪ {[ d ]}) as Hdirs.
  { rewrite Hd3, Hd2. unfold d. rewrite ancestors_run_directory. fold d.
    change (FS.ancestors "outputs") with (@nil string). simpl.
    rewrite !(right_id_L ∅ (∪)), <- (assoc_L (∪) (dirs w)).
    by rewrite (idemp_L (∪)). }
  assert ((is_image_file file_path w3).1 = (is_image_file file_path w).1) as Hsame.
  { apply is_image_file_same_file. by rewrite Hf3, lookup_insert_ne. }
  rewrite is_image_file_run in Himage. injection Himage as Himage <-.
  rewrite is_image_file_run in Hsame. simpl in Hsame. rewrite Himage in Hsame.
  split; [done|]. exists content. split; [done|]. split; [done|].
  destruct is_image.
  - apply convert_image_to_pdf_Ok in Hdoc
      as (-> & c & pdf & Hread & Hpdf & Hf5 & Hd5 & Hc5 & He5).
    unfold d in Hread, Hf5, He5 |- *. rewrite run_directory_child in * by done.
    fold d converted in Hread, Hf5, He5 |- *.
    assert (converted ≠ file_path) as Hconv.
    { intros Heq. rewrite is_image_file_run, <- Heq in Hsame. simpl in Hsame.
      unfold converted in Hsame. rewrite converted_pdf_unsupported in Hsame. done. }
    rewrite lookup_insert_ne, Hf3, lookup_insert_ne, Hsrc in Hread by done.
    injection Hread as <-.
    split; [congruence|]. split; [congruence|]. right.
    split; [by rewrite <- Hsame|]. split; [done|]. exists pdf. split; [done|].
    split; [by rewrite Hf5, Hf3|].
    rewrite He5, He3, He2, <- !app_assoc. done.
  - injection Hdoc as <- <-.
    split; [congruence|]. split; [congruence|]. left.
    split; [by rewrite <- Hsame|]. split; [done|]. split; [done|].
    rewrite He3, He2, <- !app_assoc. done.
Qed.

End NormalizedDocument.

Section RunProperties.
Context `{Externals}.

(** The calls of the client on a regular file are those of the protocol. *)
Lemma process_pdf_calls (pdf_path api_key output_dir content : string) (w w' : World)
    (r : Result (string * string)) :
  files w !! pdf_path = Some content →
  process_pdf pdf_path api_key (Some output_dir) w = (r, w') →
  remote_calls (events w')
  = remote_calls (events w) ++ protocol_calls (events w) api_key pdf_path content.
Proof.
  intros Hfile. rewrite (process_pdf_run _ _ _ content) by done.
  unfold protocol_calls.
  destruct (files_upload _ _ _ _ _) as [file_id|e];
    [|intros [= <- <-]; simpl; by rewrite remote_calls_app].
  destruct (files_get_signed_url _ _ _ _) as [url|e];
    [|intros [= <- <-]; simpl; by rewrite remote_calls_app].
  destruct (ocr_process _ _ _ _ _) as [resp|e];
    [|intros [= <- <-]; simpl; by rewrite remote_calls_app].
  intros Hsave.
  rewrite (adds_only_local_calls _ _ _ _ (save_ocr_results_local _ _) Hsave).
  simpl. by rewrite remote_calls_app.
Qed.

(** The protocol begins with the upload. *)
Lemma protocol_calls_upload (history : list Event) (api_key pdf_path content : string) :
  ∃ rest, protocol_calls history api_key pdf_path content
          = upload_call api_key pdf_path content :: rest.
Proof. unfold protocol_calls. repeat case_match; eauto. Qed.

(** What a run of the client that returns has done. *)
Lemma process_pdf_Ok (pdf_path api_key output_dir : string) (w w' : World)
    (r : string * string) :
  process_pdf pdf_path api_key (Some output_dir) w = (Ok r, w') →
  ∃ content file_id url resp,
    let upload := upload_call api_key pdf_path content in
    let sign := signed_url_call api_key file_id in
    let ocr := ocr_call api_key url in
    files w !! pdf_path = Some content
    ∧ files_upload (events w ++ [upload]) api_key (PurePath.stem pdf_path) content "ocr"
      = Ok file_id
    ∧ files_get_signed_url (events w ++ [upload; sign]) api_key file_id 1 = Ok url
    ∧ ocr_process (events w ++ [upload; sign; ocr]) api_key url "mistral-ocr-latest" true
      = Ok resp
    ∧ save_ocr_results resp output_dir (logged w [upload; sign; ocr]) = (Ok r, w').
Proof.
  destruct (files w !! pdf_path) as [content|] eqn:Hfile;
    [|by rewrite process_pdf_not_a_file].
  rewrite (process_pdf_run _ _ _ content) by done. cbv zeta.
  destruct (files_upload _ _ _ _ _) as [file_id|e] eqn:Hup; [|done].
  destruct (files_get_signed_url _ _ _ _) as [url|e] eqn:Hsign; [|done].
  destruct (ocr_process _ _ _ _ _) as [resp|e] eqn:Hocr; [|done].
  intros Hsave. by exists content, file_id, url, resp.
Qed.

(** X7.  The document [process_file] sends is never sent under the name
    of the source: a file that is no image is uploaded as it is under the
    name [origin], from its copy in the run directory; an image is uploaded
    as the PDF [img2pdf] made of it, under the name [converted]. *)
Theorem process_file_upload (file_path api_key doc dir : string) (w w1 : World) :
  normalize file_path w = (Ok (doc, dir), w1) →
  FS.isdir w (dir +:+ "/" +:+ "origin" +:+ PurePath.suffix file_path) = false →
  ∃ content name sent,
    files w !! file_path = Some content
    ∧ files w1 !! (dir +:+ "/" +:+ "origin" +:+ PurePath.suffix file_path) = Some content
    ∧ (((is_image_file file_path w).1 = Ok false
        ∧ doc = dir +:+ "/" +:+ "origin" +:+ PurePath.suffix file_path
        ∧ name = "origin" ∧ sent = content)
       ∨ ((is_image_file file_path w).1 = Ok true
          ∧ doc = dir +:+ "/" +:+ "converted.pdf"
          ∧ name = "converted" ∧ img2pdf_convert content = Ok sent))
    ∧ ∀ r w', process_file file_path api_key w = (r, w') →
        ∃ rest, remote_calls (events w')
                = remote_calls (events w) ++ EvUpload api_key name sent "ocr" :: rest.
Proof.
  intros Hnorm Horigin.
  pose proof (normalize_Ok _ _ _ _ _ Hnorm Horigin)
    as (-> & content & Hsrc & Hne & Hd1 & Hc1 & Hcases).
  set (dir := run_directory (clock w) file_path) in *.
  set (origin := dir +:+ "/" +:+ "origin" +:+ PurePath.suffix file_path) in *.
  assert (∀ name sent, files w1 !! doc = Some sent → PurePath.stem doc = name →
            remote_calls (events w1) = remote_calls (events w) →
            ∀ r w', process_file file_path api_key w = (r, w') →
              ∃ rest, remote_calls (events w')
                      = remote_calls (events w) ++ EvUpload api_key name sent "ocr" :: rest)
    as Hcalls.
  { intros name sent Hdoc Hname Hlocal r w'.
    rewrite process_file_normalize, bind_run, Hnorm. intros Hrun.
    rewrite (process_pdf_calls _ _ _ _ _ _ _ Hdoc Hrun), Hlocal.
    destruct (protocol_calls_upload (events w1) api_key doc sent) as [rest ->].
    exists rest. unfold upload_call. by rewrite Hname. }
  destruct Hcases as [(Himage & -> & Hf1 & He1)|(Himage & -> & pdf & Hpdf & Hf1 & He1)].
  - exists content, "origin", content. split; [done|].
    split; [by rewrite Hf1, lookup_insert_eq|]. split; [by left|].
    apply Hcalls.
    + by rewrite Hf1, lookup_insert_eq.
    + apply stem_origin.
    + rewrite He1, remote_calls_app. simpl. by rewrite app_nil_r.
  - exists content, "converted", pdf. split; [done|].
    split.
    { rewrite Hf1, lookup_insert_ne, lookup_insert_eq; [done|].
      intros Heq. do 2 apply str_app_inv_head in Heq. done. }
    split; [by right|].
    apply Hcalls.
    + by rewrite Hf1, lookup_insert_eq.
    + apply stem_converted.
    + rewrite He1, remote_calls_app. simpl. by rewrite app_nil_r.
Qed.

(** X8.  For a source path that names nothing, [process_file] sends
    nothing and writes no file.  It has created the run directory before it
    finds out: when it could, the path is plainly spelled, its last
    component is not [outputs] and no leading part of it is a regular file,
    the error is the [FileNotFoundError] of the copy, and the empty run
    directory stays. *)
Theorem process_file_missing_source (file_path api_key : string) (w w' : World)
    (r : Result (string * string)) :
  FS.exists_ w file_path = false →
  process_file file_path api_key w = (r, w') →
  remote_calls (events w') = remote_calls (events w)
  ∧ files w' = files w
  ∧ ∃ e, r = Raise e
      ∧ (∀ dir w0, create_output_directory file_path w = (Ok dir, w0) →
           plain_path file_path = true →
           PurePath.name file_path ≠ "outputs" →
           existsb (FS.isfile w) (FS.ancestors file_path) = false →
           e = ENOENT file_path ∧ w' = w0 ∧ dir ∈ dirs w'
           ∧ events w' = events w ++ [EvMakedirs "outputs"; EvMakedirs dir]).
Proof.
  intros Hmissing Hrun.
  assert (files w !! file_path = None) as Hnone.
  { apply orb_false_elim in Hmissing as [Hfile _]. unfold FS.isfile in Hfile.
    apply bool_decide_eq_false in Hfile. by apply eq_None_not_Some. }
  unfold process_file in Hrun. rewrite bind_run in Hrun.
  destruct (create_output_directory file_path w) as [[dir|e] w0] eqn:Hdir.
  - pose proof (create_output_directory_local file_path _ _ _ Hdir) as (evs0 & He0 & Hl0).
    pose proof Hdir as Hdir0.
    apply create_output_directory_Ok in Hdir as (-> & Hf0 & Hd0 & Hc0 & He0').
    rewrite bind_run in Hrun.
    destruct (FS.copy2 _ _ w0) as [[[]|e] w2] eqn:Hcopy.
    { apply copy2_Ok in Hcopy as (? & content & Hsrc & _). congruence. }
    injection Hrun as <- <-.
    pose proof (copy2_local _ _ _ _ _ Hcopy) as (evs2 & He2 & Hl2).
    assert (files w2 = files w0) as Hf2.
    { unfold FS.copy2, FS.path_isdir, FS.path_exists in Hcopy.
      rewrite bind_run in Hcopy. simpl in Hcopy. rewrite bind_run in Hcopy.
      simpl in Hcopy. case_match; [by injection Hcopy as _ <-|].
      rewrite bind_run in Hcopy. unfold FS.read_bytes in Hcopy.
      rewrite Hf0, Hnone in Hcopy.
      destruct (FS.isdir w0 file_path), (existsb (FS.isfile w0) (FS.ancestors file_path));
        by injection Hcopy as _ <-. }
    split; [|split; [congruence|]].
    + rewrite He2, He0, !remote_calls_app.
      rewrite (remote_calls_local evs0), (remote_calls_local evs2) by done.
      by rewrite !app_nil_r.
    + exists e. split; [done|]. intros dir w1 [= <- <-] _ Hname Hancestors.
      pose proof (isdir_after_run_directory _ _ _ _ Hdir0 Hmissing Hname) as Hmissing0.
      rewrite copy2_missing in Hcopy by done.
      unfold FS.isfile in Hcopy. rewrite Hf0 in Hcopy.
      fold (FS.isfile w) in Hcopy. rewrite Hancestors in Hcopy.
      injection Hcopy as <- <-. split; [done|]. split; [done|].
      split; [|done]. rewrite Hd0. by apply elem_of_union_r, elem_of_singleton.
  - injection Hrun as <- <-.
    pose proof (create_output_directory_local file_path _ _ _ Hdir) as (evs0 & He0 & Hl0).
    assert (files w0 = files w) as Hf0.
    { unfold create_output_directory in Hdir. rewrite bind_run in Hdir.
      destruct (FS.makedirs "outputs" w) as [[[]|e1] w1] eqn:Hmk1.
      - apply makedirs_Ok in Hmk1 as (Hf1 & _). rewrite bind_run in Hdir.
        simpl in Hdir. rewrite bind_run in Hdir.
        destruct (FS.makedirs _ w1) as [[[]|e2] w2] eqn:Hmk2; [done|].
        apply makedirs_Raise in Hmk2 as ->. by injection Hdir as _ <-.
      - apply makedirs_Raise in Hmk1 as ->. by injection Hdir as _ <-. }
    split; [|split; [done|]].
    + rewrite He0, remote_calls_app, (remote_calls_local evs0) by done.
      by rewrite app_nil_r.
    + exists e. split; [done|]. by intros dir w1 [=].
Qed.

End RunProperties.

Lemma process_file_upload_witness :
  let ext := Sample.externals (Ok "id") (Ok "url") (Ok Sample.two_plain_pages) in
  let png := String (ascii_of_nat 137) "PNG" in
  let w := Sample.world {[ "scan.png" := png ]} in
  let w1 := (@normalize ext "scan.png" w).2 in
  let dir := "outputs/20250307_120009_scan" in
  let doc := "outputs/20250307_120009_scan/converted.pdf" in
  @normalize ext "scan.png" w = (Ok (doc, dir), w1)
  ∧ FS.isdir w (dir +:+ "/" +:+ "origin" +:+ PurePath.suffix "scan.png") = false
  ∧ ∃ content name sent,
      files w !! "scan.png" = Some content
      ∧ files w1 !! (dir +:+ "/" +:+ "origin" +:+ PurePath.suffix "scan.png") = Some content
      ∧ (((@is_image_file ext "scan.png" w).1 = Ok false
          ∧ doc = dir +:+ "/" +:+ "origin" +:+ PurePath.suffix "scan.png"
          ∧ name = "origin" ∧ sent = content)
         ∨ ((@is_image_file ext "scan.png" w).1 = Ok true
            ∧ doc = dir +:+ "/" +:+ "converted.pdf"
            ∧ name = "converted" ∧ @img2pdf_convert ext content = Ok sent))
      ∧ ∀ r w', @process_file ext "scan.png" "KEY" w = (r, w') →
          ∃ rest, remote_calls (events w')
                  = remote_calls (events w) ++ EvUpload "KEY" name sent "ocr" :: rest.
Proof.
  intros.
  assert (@normalize ext "scan.png" w = (Ok (doc, dir), w1)) as Hnorm by (by vm_compute).
  assert (FS.isdir w (dir +:+ "/" +:+ "origin" +:+ PurePath.suffix "scan.png") = false)
    as Horigin by (by vm_compute).
  split; [exact Hnorm|]. split; [exact Horigin|].
  exact (@process_file_upload ext "scan.png" "KEY" doc dir w w1 Hnorm Horigin).
Defined.

Lemma process_file_missing_source_witness :
  let ext := Sample.externals (Ok "id") (Ok "url") (Ok Sample.two_plain_pages) in
  let w := Sample.world ∅ in
  let run := @process_file ext "missing.pdf" "KEY" w in
  FS.exists_ w "missing.pdf" = false
  ∧ run.1 = Raise (FileNotFoundError "[Errno 2] No such file or directory: 'missing.pdf'")
  ∧ remote_calls (events run.2) = remote_calls (events w)
  ∧ files run.2 = files w
  ∧ ∃ e, run.1 = Raise e
      ∧ (∀ dir w0, create_output_directory "missing.pdf" w = (Ok dir, w0) →
           plain_path "missing.pdf" = true →
           PurePath.name "missing.pdf" ≠ "outputs" →
           existsb (FS.isfile w) (FS.ancestors "missing.pdf") = false →
           e = ENOENT "missing.pdf" ∧ run.2 = w0 ∧ dir ∈ dirs run.2
           ∧ events run.2 = events w ++ [EvMakedirs "outputs"; EvMakedirs dir]).
Proof.
  intros.
  assert (FS.exists_ w "missing.pdf" = false) as Hmissing by (by vm_compute).
  split; [exact Hmissing|]. split; [by vm_compute|].
  exact (@process_file_missing_source ext "missing.pdf" "KEY" w run.2 run.1
           Hmissing (surjective_pairing run)).
Defined.

Section Outcomes.
Context `{Externals}.

Lemma normalize_local (file_path : string) :
  adds_only (λ e, is_remote e = false) (normalize file_path).
Proof.
  unfold normalize. adds_only_step; [apply create_output_directory_local|].
  adds_only_step; [apply copy2_local|].
  adds_only_step; [apply is_image_file_silent|].
  adds_only_step; [|adds_only_step].
  destruct a1; [|adds_only_step].
  unfold convert_image_to_pdf. by repeat adds_only_step.
Qed.


(** X10.  A run of the client that returns gives back the directory it was
    given and the text it assembled from the pages the service answered;
    [complete.md] in that directory holds that text, and the calls sent are
    the upload, the request for the signed URL and the OCR job, once each. *)
Theorem client_returns (pdf_path api_key output_dir text dir : string) (w w' : World) :
  process_pdf pdf_path api_key (Some output_dir) w = (Ok (text, dir), w') →
  dir = output_dir
  ∧ files w' !! complete_md output_dir = Some text
  ∧ ∃ content file_id url resp,
      files w !! pdf_path = Some content
      ∧ ocr_process
          (events w ++ [upload_call api_key pdf_path content;
                        signed_url_call api_key file_id; ocr_call api_key url])
          api_key url "mistral-ocr-latest" true = Ok resp
      ∧ text = PyStr.join (PyStr.LF +:+ PyStr.LF) (map rewritten (OCR.pages resp))
      ∧ remote_calls (events w')
        = remote_calls (events w)
          ++ [upload_call api_key pdf_path content;
              signed_url_call api_key file_id; ocr_call api_key url].
Proof.
  intros Hrun. pose proof Hrun as Hcalls.
  apply process_pdf_Ok in Hrun
    as (content & file_id & url & resp & Hfile & Hup & Hsign & Hocr & Hsave).
  apply (process_pdf_calls _ _ _ content) in Hcalls; [|done].
  unfold protocol_calls in Hcalls. rewrite Hup, Hsign in Hcalls.
  apply save_ocr_results_Ok in Hsave as (datas & _ & [= -> ->] & Hf & _).
  split; [done|]. split; [by rewrite Hf, lookup_insert_eq|].
  by exists content, file_id, url, resp.
Qed.

(** X11.  A run of [process_file] that returns gives back the run
    directory [outputs/<timestamp>_<stem>] of its source and the assembled
    text, which [complete.md] in that directory holds; it has sent three
    calls, the upload, the request for the signed URL and the OCR job. *)
Theorem process_file_returns (file_path api_key text dir : string) (w w' : World) :
  process_file file_path api_key w = (Ok (text, dir), w') →
  dir = "outputs/" +:+ strftime (clock w) +:+ "_" +:+ PurePath.stem file_path
  ∧ files w' !! (dir +:+ "/" +:+ "complete.md") = Some text
  ∧ ∃ name sent file_id url,
      remote_calls (events w')
      = remote_calls (events w)
        ++ [EvUpload api_key name sent "ocr"; EvSignedUrl api_key file_id 1;
            EvOcr api_key url "mistral-ocr-latest" true].
Proof.
  rewrite process_file_normalize. intros ([doc d] & w1 & Hnorm & Hrun)%bind_Ok.
  pose proof (normalize_spares _ _ _ _ Hnorm) as (_ & _ & _ & Hdir).
  specialize (Hdir doc d eq_refl) as ->.
  pose proof (adds_only_local_calls _ _ _ _ (normalize_local file_path) Hnorm) as Hlocal.
  pose proof Hrun as Hcalls.
  apply process_pdf_Ok in Hrun
    as (content & file_id & url & resp & Hfile & Hup & Hsign & Hocr & Hsave).
  apply (process_pdf_calls _ _ _ content) in Hcalls; [|done].
  unfold protocol_calls in Hcalls. rewrite Hup, Hsign, Hlocal in Hcalls.
  apply save_ocr_results_Ok in Hsave as (datas & _ & [= -> ->] & Hf & _).
  split; [apply run_directory_eq|].
  split.
  - rewrite <- complete_md_child by apply run_directory_prefix.
    by rewrite Hf, lookup_insert_eq.
  - by exists (PurePath.stem doc), content, file_id, url.
Qed.

End Outcomes.

Lemma client_returns_witness :
  let ext := Sample.externals (Ok "id") (Ok "url") (Ok Sample.two_plain_pages) in
  let w := Sample.world {[ "a.pdf" := "%PDF" ]} in
  let w' := (@process_pdf ext "a.pdf" "KEY" (Some "out") w).2 in
  let text := "# Title" +:+ PyStr.LF +:+ PyStr.LF +:+ "Body" in
  @process_pdf ext "a.pdf" "KEY" (Some "out") w = (Ok (text, "out"), w')
  ∧ "out" = "out"
  ∧ files w' !! complete_md "out" = Some text
  ∧ ∃ content file_id url resp,
      files w !! "a.pdf" = Some content
      ∧ @ocr_process ext
          (events w ++ [upload_call "KEY" "a.pdf" content;
                        signed_url_call "KEY" file_id; ocr_call "KEY" url])
          "KEY" url "mistral-ocr-latest" true = Ok resp
      ∧ text = PyStr.join (PyStr.LF +:+ PyStr.LF) (map rewritten (OCR.pages resp))
      ∧ remote_calls (events w')
        = remote_calls (events w)
          ++ [upload_call "KEY" "a.pdf" content;
              signed_url_call "KEY" file_id; ocr_call "KEY" url].
Proof.
  intros.
  assert (@process_pdf ext "a.pdf" "KEY" (Some "out") w = (Ok (text, "out"), w')) as Hrun
    by (by vm_compute).
  split; [exact Hrun|].
  exact (@client_returns ext "a.pdf" "KEY" "out" text "out" w w' Hrun).
Defined.

Lemma process_file_returns_witness :
  let ext := Sample.externals (Ok "id") (Ok "url") (Ok Sample.two_plain_pages) in
  let w := Sample.world {[ "a.pdf" := "%PDF" ]} in
  let w' := (@process_file ext "a.pdf" "KEY" w).2 in
  let text := "# Title" +:+ PyStr.LF +:+ PyStr.LF +:+ "Body" in
  let dir := "outputs/20250307_120009_a" in
  @process_file ext "a.pdf" "KEY" w = (Ok (text, dir), w')
  ∧ dir = "outputs/" +:+ strftime (clock w) +:+ "_" +:+ PurePath.stem "a.pdf"
  ∧ files w' !! (dir +:+ "/" +:+ "complete.md") = Some text
  ∧ ∃ name sent file_id url,
      remote_calls (events w')
      = remote_calls (events w)
        ++ [EvUpload "KEY" name sent "ocr"; EvSignedUrl "KEY" file_id 1;
            EvOcr "KEY" url "mistral-ocr-latest" true].
Proof.
  intros.
  assert (@process_file ext "a.pdf" "KEY" w = (Ok (text, dir), w')) as Hrun
    by (by vm_compute).
  split; [exact Hrun|].
  exact (@process_file_returns ext "a.pdf" "KEY" text dir w w' Hrun).
Defined.

(** ** The HTML preview *)

(** The template is its head, the placeholder and its tail, and replacing
    the placeholder puts the body between the two: the body is not scanned
    again. *)
Lemma html_template_eq :
  html_template = html_head +:+ "HTML_CONTENT_PLACEHOLDER" +:+ html_tail.
Proof. by vm_compute. Qed.

Lemma html_page (html_body : string) :
  PyStr.replace html_template "HTML_CONTENT_PLACEHOLDER" html_body
  = html_head +:+ html_body +:+ html_tail.
Proof. vm_compute. reflexivity. Qed.

(** Replacing a character: each occurrence is replaced, any other
    character is copied. *)
Lemma replace_char_cons (a c : ascii) (s new : string) :
  PyStr.replace (String a s) (String c "") new
  = (if decide (a = c) then new else String a "") +:+ PyStr.replace s (String c "") new.
Proof.
  destruct (decide (a = c)) as [->|Hne].
  - change (String c s) with (String c "" +:+ s). by apply replace_match.
  - rewrite replace_skip; [done|done|]. simpl. by rewrite decide_False by congruence.
Qed.

(** The replaced character is gone when the replacement is without it,
    and a character absent from the text and from the replacement stays
    absent. *)
Lemma replace_char_removes (s new : string) (c : ascii) :
  PyStr.contains new c = false →
  PyStr.contains (PyStr.replace s (String c "") new) c = false.
Proof.
  intros Hnew. induction s as [|a s IH]; [done|].
  rewrite replace_char_cons, contains_app, IH, orb_false_r.
  destruct (decide (a = c)); [done|]. simpl.
  by rewrite bool_decide_eq_false_2, orb_false_r.
Qed.

Lemma replace_char_keeps_absent (s new : string) (c d : ascii) :
  PyStr.contains new d = false → PyStr.contains s d = false →
  PyStr.contains (PyStr.replace s (String c "") new) d = false.
Proof.
  intros Hnew. induction s as [|a s IH]; [done|]. cbn [PyStr.contains].
  intros [Ha Hs]%orb_false_elim.
  rewrite replace_char_cons, contains_app, IH, orb_false_r by done.
  destruct (decide (a = c)); [done|]. simpl. by rewrite Ha.
Qed.

Lemma replace_char_absent (s new : string) (c : ascii) :
  PyStr.contains s c = false → PyStr.replace s (String c "") new = s.
Proof.
  induction s as [|a s IH]; [done|]. cbn [PyStr.contains].
  intros [Ha Hs]%orb_false_elim. apply bool_decide_eq_false in Ha.
  rewrite replace_char_cons, IH by done. by rewrite decide_False.
Qed.

Lemma escaped_without_angles (text : string) :
  PyStr.contains (escaped text) "<" = false ∧ PyStr.contains (escaped text) ">" = false.
Proof.
  unfold escaped. split.
  - apply replace_char_keeps_absent; [done|]. by apply replace_char_removes.
  - by apply replace_char_removes.
Qed.

Lemma escaped_plain (text : string) :
  PyStr.contains text "<" = false → PyStr.contains text ">" = false →
  escaped text = text.
Proof.
  intros Hlt Hgt. unfold escaped. by rewrite (replace_char_absent text), replace_char_absent.
Qed.

Section PreviewProperties.
Context `{Renderer}.

(** X12.  The page of the preview is the template with the body in the
    place of its placeholder, the body not being scanned again.  The body is
    the rendering with both extensions; when that fails with an
    [ImportError] or a [ValueError], the rendering with [extra] alone, and a
    note is printed; when that fails too, in whatever way, the text with [<]
    and [>] escaped, and a warning with the error is printed.  Any other
    failure of the first rendering is raised to the caller. *)
Theorem preview_page (markdown_content : string) :
  let both := markdown_markdown markdown_content ["md4mathjax"; "extra"] in
  let extra := markdown_markdown markdown_content ["extra"] in
  let page html_body := html_head +:+ html_body +:+ html_tail in
  (∀ html_body, both = Ok html_body →
     create_html_content markdown_content None = (Ok (page html_body), []))
  ∧ (∀ e, both = Raise e → import_or_value_error e = false →
       create_html_content markdown_content None = (Raise e, []))
  ∧ (∀ e html_body, both = Raise e → import_or_value_error e = true →
       extra = Ok html_body →
       create_html_content markdown_content None
       = (Ok (page html_body),
          [printed "注意: md4mathjax扩展不可用，数学公式可能无法正确渲染"]))
  ∧ (∀ e e', both = Raise e → import_or_value_error e = true → extra = Raise e' →
       create_html_content markdown_content None
       = (Ok (page (escaped markdown_content)),
          [printed ("警告: markdown转换出错，使用基本HTML转义。错误信息: " +:+ exn_str e')])
       ∧ PyStr.contains (escaped markdown_content) "<" = false
       ∧ PyStr.contains (escaped markdown_content) ">" = false
       ∧ (PyStr.contains markdown_content "<" = false →
          PyStr.contains markdown_content ">" = false →
          escaped markdown_content = markdown_content)).
Proof.
  intros both extra page. unfold create_html_content. fold both extra.
  split; [|split; [|split]].
  - intros html_body ->. by rewrite html_page.
  - by intros e -> ->.
  - intros e html_body -> -> ->. by rewrite html_page.
  - intros e e' -> -> ->. rewrite html_page.
    split; [done|]. split; [apply escaped_without_angles|].
    split; [apply escaped_without_angles|apply escaped_plain].
Qed.

(** X13.  With an output directory, the preview is that of the text in which
    every [](images/] points into the directory: [](file://<dir>/images/].
    Without one, or with an empty one, the text is previewed as it is. *)
Theorem preview_links (markdown_content output_dir : string) :
  output_dir ≠ "" →
  create_html_content markdown_content (Some output_dir)
  = create_html_content
      (PyStr.replace markdown_content "](images/" ("](file://" +:+ output_dir +:+ "/images/"))
      None
  ∧ create_html_content markdown_content (Some "")
    = create_html_content markdown_content None
  ∧ (∀ segs,
       markdown_content = PyStr.join "](images/" segs →
       Forall (clean_before "](images/") (removelast segs) →
       ¬ occurs "](images/" (List.last segs "") →
       PyStr.replace markdown_content "](images/" ("](file://" +:+ output_dir +:+ "/images/")
       = PyStr.join ("](file://" +:+ output_dir +:+ "/images/") segs).
Proof.
  intros Hdir. split; [|split].
  - unfold create_html_content. destruct output_dir as [|c dir]; [exfalso; exact (Hdir eq_refl)|].
    unfold os_sep. by rewrite replace_same.
  - done.
  - intros segs -> Hclean Hlast. by apply replace_join.
Qed.

End PreviewProperties.

Lemma preview_links_witness :
  let rd : Renderer :=
    {| markdown_markdown := λ text _, Ok ("<p>" +:+ text +:+ "</p>");
       import_or_value_error := λ _, true |} in
  let text := "See ![a](images/a.png)." in
  "out" ≠ ""
  ∧ (@create_html_content rd text (Some "out")).1
    = Ok (html_head +:+ "<p>See ![a](file://out/images/a.png).</p>" +:+ html_tail)
  ∧ @create_html_content rd text (Some "out")
    = @create_html_content rd
        (PyStr.replace text "](images/" ("](file://" +:+ "out" +:+ "/images/")) None
  ∧ @create_html_content rd text (Some "") = @create_html_content rd text None
  ∧ (∀ segs,
       text = PyStr.join "](images/" segs →
       Forall (clean_before "](images/") (removelast segs) →
       ¬ occurs "](images/" (List.last segs "") →
       PyStr.replace text "](images/" ("](file://" +:+ "out" +:+ "/images/")
       = PyStr.join ("](file://" +:+ "out" +:+ "/images/") segs).
Proof.
  intros.
  assert ("out" ≠ "") as Hdir by done.
  split; [exact Hdir|]. split; [by vm_compute|].
  exact (@preview_links rd text "out" Hdir).
Defined.

(** ** The command line *)

Lemma cmd_bind_run {A B : Type} (m : Cmd A) (f : A → Cmd B) (s : Session) :
  (m ≫= f) s
  = match m s with
    | (Returns a, s') => f a s'
    | (Raises e, s') => (Raises e, s')
    end.
Proof. done. Qed.

Section CommandLineProperties.
Context `{Externals} `{Host}.


(** A file after which the user is asked, and answers. *)
Lemma main_cli_file_answer (api_key : string) (n i : nat) (file_path line : string)
    (more : list string) (s : Session) :
  (Z.of_nat i <? Z.of_nat n - 1) = true →
  stdin s = line :: more →
  let run := process_file file_path api_key (taken_up (world s)) in
  let quit := bool_decide (PyStr.lower line = "q") in
  main_cli_file api_key false n i file_path s
  = (Returns (if quit then Break else Next),
     {| world := run.2; stdin := more;
        stdout := stdout s ++ [start_line i n file_path; report file_path run.1;
                               prompt file_path run.1]
                           ++ (if quit then [quit_line] else []) |}).
Proof.
  intros Hlast Hin run quit. unfold main_cli_file, cmd_try, mbind, Cmd_bind, mret, Cmd_ret, pipeline, print, input. cbn.
  fold (taken_up (world s)). fold run. rewrite Hlast, Hin.
  destruct run as [[[text dir]|e] w1]; cbn; fold quit; destruct quit; cbn;
    by rewrite <- !app_assoc.
Qed.

(** A file after which the user is asked, at the end of the input. *)
Lemma main_cli_file_end_of_input (api_key : string) (n i : nat) (file_path : string)
    (s : Session) :
  (Z.of_nat i <? Z.of_nat n - 1) = true →
  stdin s = [] →
  let run := process_file file_path api_key (taken_up (world s)) in
  main_cli_file api_key false n i file_path s
  = (Raises (EOFError "EOF when reading a line"),
     {| world := run.2; stdin := [];
        stdout := stdout s ++ [start_line i n file_path]
                  ++ match run.1 with
                     | Ok (_, output_dir) =>
                         [done_line output_dir; done_prompt file_path;
                          error_line file_path "EOF when reading a line";
                          error_prompt file_path]
                     | Raise e =>
                         [error_line file_path (exn_str e); error_prompt file_path]
                     end |}).
Proof.
  intros Hlast Hin run. unfold main_cli_file, cmd_try, mbind, Cmd_bind, mret, Cmd_ret, pipeline, print, input. cbn.
  fold (taken_up (world s)). fold run. rewrite Hlast, Hin.
  destruct run as [[[text dir]|e] w1]; cbn; by rewrite <- !app_assoc.
Qed.




(** X16.  Without [--auto], after a file that is not the last the user is
    asked, after the report on the file, whether it succeeded or failed.  An
    answer [q] or [Q] ends the run: the files after it are not taken up,
    announced or sent.  Any other answer, the empty line as well, goes on to
    the next file. *)
Theorem main_cli_answer (args : CLI.Namespace) (api_key file_path next line : string)
    (rest more : list string) (s : Session) :
  CLI.gui args = false →
  CLI.api_key args = Some api_key →
  api_key ≠ "" →
  CLI.auto args = false →
  CLI.files args = file_path :: next :: rest →
  stdin s = line :: more →
  let n := length (CLI.files args) in
  let run := process_file file_path api_key (taken_up (world s)) in
  let asked :=
    stdout s ++ [start_line 0 n file_path; report file_path run.1;
                 prompt file_path run.1] in
  (PyStr.lower line = "q" →
   main_cli args s
   = (Returns tt, {| world := run.2; stdin := more; stdout := asked ++ [quit_line] |}))
  ∧ (PyStr.lower line ≠ "q" →
     main_cli args s
     = main_cli_loop api_key false n 1 (next :: rest)
         {| world := run.2; stdin := more; stdout := asked |}).
Proof.
  intros Hgui Hkey Hne Hauto Hfiles Hin n run asked. unfold main_cli.
  rewrite Hgui, Hkey, Hauto. fold n. rewrite Hfiles.
  destruct api_key as [|c key]; [done|].
  assert ((Z.of_nat 0 <? Z.of_nat n - 1) = true) as Hlast.
  { unfold n. rewrite Hfiles. cbn [length]. apply Z.ltb_lt. lia. }
  cbn [main_cli_loop].
  rewrite cmd_bind_run, (main_cli_file_answer _ _ _ _ line more) by done. cbv zeta.
  fold run. split.
  - intros Hq. rewrite bool_decide_eq_true_2 by done. unfold asked.
    by rewrite <- app_assoc.
  - intros Hq. rewrite bool_decide_eq_false_2 by done. cbn [main_cli_loop].
    by rewrite app_nil_r.
Qed.

(** X17.  Without [--auto], at the end of the input the run does not end
    quietly after a file that is not the last: [input] raises [EOFError]
    inside the [try], so a file that was processed is reported as failed,
    with the text of the [EOFError], after the report of its success; the
    question asked in the handler raises again, and [main_cli] ends with that
    [EOFError].  The files after it are not taken up. *)
Theorem main_cli_end_of_input (args : CLI.Namespace) (api_key file_path next : string)
    (rest : list string) (s : Session) :
  CLI.gui args = false →
  CLI.api_key args = Some api_key →
  api_key ≠ "" →
  CLI.auto args = false →
  CLI.files args = file_path :: next :: rest →
  stdin s = [] →
  let n := length (CLI.files args) in
  let run := process_file file_path api_key (taken_up (world s)) in
  main_cli args s
  = (Raises (EOFError "EOF when reading a line"),
     {| world := run.2; stdin := [];
        stdout := stdout s ++ [start_line 0 n file_path]
                  ++ match run.1 with
                     | Ok (_, output_dir) =>
                         [done_line output_dir; done_prompt file_path;
                          error_line file_path "EOF when reading a line";
                          error_prompt file_path]
                     | Raise e =>
                         [error_line file_path (exn_str e); error_prompt file_path]
                     end |}).
Proof.
  intros Hgui Hkey Hne Hauto Hfiles Hin n run. unfold main_cli.
  rewrite Hgui, Hkey, Hauto. fold n. rewrite Hfiles.
  destruct api_key as [|c key]; [done|].
  assert ((Z.of_nat 0 <? Z.of_nat n - 1) = true) as Hlast.
  { unfold n. rewrite Hfiles. cbn [length]. apply Z.ltb_lt. lia. }
  cbn [main_cli_loop].
  by rewrite cmd_bind_run, main_cli_file_end_of_input.
Qed.

End CommandLineProperties.


Lemma main_cli_answer_witness :
  let ext := Sample.externals (Ok "id") (Ok "url") (Ok Sample.two_plain_pages) in
  let host : Host := {| elapse := clock; gui_mainloop := mret tt |} in
  let args := {| CLI.files := ["a.pdf"; "b.pdf"]; CLI.api_key := Some "KEY";
                 CLI.auto := false; CLI.gui := false |} in
  let s := {| world := Sample.world {[ "a.pdf" := "%PDF"; "b.pdf" := "%PDF" ]};
              stdin := ["Q"]; stdout := [] |} in
  let n := length (CLI.files args) in
  let run := @process_file ext "a.pdf" "KEY" (@taken_up host (world s)) in
  let asked :=
    stdout s ++ [start_line 0 n "a.pdf"; report "a.pdf" run.1; prompt "a.pdf" run.1] in
  CLI.gui args = false
  ∧ CLI.api_key args = Some "KEY"
  ∧ "KEY" ≠ ""
  ∧ CLI.auto args = false
  ∧ CLI.files args = "a.pdf" :: "b.pdf" :: []
  ∧ stdin s = "Q" :: []
  ∧ PyStr.lower "Q" = "q"
  ∧ stdout (@main_cli ext host args s).2
    = [ start_line 0 2 "a.pdf"; done_line "outputs/20250307_120009_a";
        done_prompt "a.pdf"; quit_line ]
  ∧ @main_cli ext host args s
    = (Returns tt, {| world := run.2; stdin := []; stdout := asked ++ [quit_line] |}).
Proof.
  intros.
  assert ("KEY" ≠ "") as Hne by done.
  assert (PyStr.lower "Q" = "q") as Hq by done.
  split; [done|]. split; [done|]. split; [exact Hne|]. split; [done|]. split; [done|].
  split; [done|]. split; [exact Hq|]. split; [by vm_compute|].
  exact (proj1 (@main_cli_answer ext host args "KEY" "a.pdf" "b.pdf" "Q" [] [] s
                  eq_refl eq_refl Hne eq_refl eq_refl eq_refl) Hq).
Defined.

Lemma main_cli_end_of_input_witness :
  let ext := Sample.externals (Ok "id") (Ok "url") (Ok Sample.two_plain_pages) in
  let host : Host := {| elapse := clock; gui_mainloop := mret tt |} in
  let args := {| CLI.files := ["a.pdf"; "b.pdf"]; CLI.api_key := Some "KEY";
                 CLI.auto := false; CLI.gui := false |} in
  let s := {| world := Sample.world {[ "a.pdf" := "%PDF"; "b.pdf" := "%PDF" ]};
              stdin := []; stdout := [] |} in
  let run := @process_file ext "a.pdf" "KEY" (@taken_up host (world s)) in
  CLI.gui args = false
  ∧ CLI.api_key args = Some "KEY"
  ∧ "KEY" ≠ ""
  ∧ CLI.auto args = false
  ∧ CLI.files args = "a.pdf" :: "b.pdf" :: []
  ∧ stdin s = []
  ∧ run.1 = Ok ("# Title" +:+ PyStr.LF +:+ PyStr.LF +:+ "Body", "outputs/20250307_120009_a")
  ∧ @main_cli ext host args s
    = (Raises (EOFError "EOF when reading a line"),
       {| world := run.2; stdin := [];
          stdout := stdout s ++ [start_line 0 (length (CLI.files args)) "a.pdf"]
                    ++ match run.1 with
                       | Ok (_, output_dir) =>
                           [done_line output_dir; done_prompt "a.pdf";
                            error_line "a.pdf" "EOF when reading a line";
                            error_prompt "a.pdf"]
                       | Raise e =>
                           [error_line "a.pdf" (exn_str e); error_prompt "a.pdf"]
                       end |}).
Proof.
  intros.
  assert ("KEY" ≠ "") as Hne by done.
  split; [done|]. split; [done|]. split; [exact Hne|]. split; [done|]. split; [done|].
  split; [done|]. split; [by vm_compute|].
  exact (@main_cli_end_of_input ext host args "KEY" "a.pdf" "b.pdf" [] s
           eq_refl eq_refl Hne eq_refl eq_refl eq_refl).
Defined.
